(** * The directed connector element of [src/chart/helper/Line.ts]

    A shallow embedding of the [Line] group (a line or quadratic curve, up to
    two endpoint symbols and one label) and of its three entry points:
    construction, data update and the per-frame [beforeUpdate] layout pass.

    Numbers.  JavaScript numbers are idealised as the real numbers of the
    Standard Library.  The one special value the source itself writes, the
    [NaN] that marks an absent control point, is kept as [None] in an
    [option R]; other IEEE special values are outside the model, with one
    exception: the division by an ancestor's x-scale, which leaves Infinity
    or NaN when that scale is 0, is followed in [walkScaleJS] and
    [markerScaleJS].

    Objects.  A zrender group is its list of children, in insertion order;
    [childOfName] returns the first child of a name and a mutation of that
    child rewrites this first occurrence in place. *)

From Stdlib Require Import Reals Lra List String Bool.
Import ListNotations.
Local Open Scope R_scope.

(** ** JavaScript values that are tested for truthiness or compared with [!==] *)

Module JS.

Inductive value : Type :=
| Undefined
| Null
| Boolean (b : bool)
| Str (s : string).

(** [!!v]. *)
Definition truthy (v : value) : bool :=
  match v with
  | Undefined | Null => false
  | Boolean b => b
  | Str s => negb (String.eqb s EmptyString)
  end.

(** [a === b]. *)
Definition strictEq (a b : value) : bool :=
  match a, b with
  | Undefined, Undefined => true
  | Null, Null => true
  | Boolean x, Boolean y => Bool.eqb x y
  | Str x, Str y => String.eqb x y
  | _, _ => false
  end.

(** [v == null]. *)
Definition isNullish (v : value) : bool :=
  match v with
  | Undefined | Null => true
  | _ => false
  end.

(** [a || b]. *)
Definition or (a b : value) : value := if truthy a then a else b.

End JS.

(** ** Points and vectors ([zrender/src/core/vector]) *)

Definition point : Type := (R * R)%type.

Module vector.

Definition sub (a b : point) : point := (fst a - fst b, snd a - snd b).

Definition len (v : point) : R := sqrt (fst v * fst v + snd v * snd v).

(** A zero vector stays zero; any other is divided by its length. *)
Definition normalize (v : point) : point :=
  let d := len v in
  if Req_dec_T d 0 then (0, 0) else (fst v / d, snd v / d).

End vector.

(** [Math.atan2(y, x)] on the reals. *)
Definition atan2 (y x : R) : R :=
  if Rlt_dec 0 x then atan (y / x)
  else if Rlt_dec x 0 then
    if Rle_dec 0 y then atan (y / x) + PI else atan (y / x) - PI
  else if Rlt_dec 0 y then PI / 2
  else if Rlt_dec y 0 then - (PI / 2)
  else 0.

(** ** Curve geometry: the shape of an [ECLinePath] *)

(** [cpx1]/[cpy1] hold [None] where the source stores [NaN]. *)
Record Shape : Type := mkShape {
  x1 : R;
  y1 : R;
  x2 : R;
  y2 : R;
  percent : R;
  cpx1 : option R;
  cpy1 : option R
}.

(** The shape of a freshly built path, before [setLinePoints] fills it. *)
Definition emptyShape : Shape := mkShape 0 0 0 0 1 None None.

(** [setLinePoints(targetShape, points)], lines 85-106.  Reading
    [points[0][0]] or [points[1][0]] of a list with fewer than two points
    throws; that is [None]. *)
Definition setLinePoints (targetShape : Shape) (points : list point) : option Shape :=
  match points with
  | p0 :: p1 :: rest =>
      let cp1 := nth_error points 2 in
      Some {| x1 := fst p0;
              y1 := snd p0;
              x2 := fst p1;
              y2 := snd p1;
              percent := 1;
              cpx1 := match cp1 with Some c => Some (fst c) | None => None end;
              cpy1 := match cp1 with Some c => Some (snd c) | None => None end |}
  | _ => None
  end.

(** The control point of a shape, when both coordinates are numbers. *)
Definition controlPoint (s : Shape) : option point :=
  match cpx1 s, cpy1 s with
  | Some cx, Some cy => Some (cx, cy)
  | _, _ => None
  end.

(** Modelled from the spec: [pointAt] of the line path ([./LinePath] is not
    part of the sources).  "Straight-line case is linear interpolation;
    curved case is standard quadratic Bezier evaluation." *)
Definition pointAt (s : Shape) (t : R) : point :=
  match controlPoint s with
  | None =>
      (x1 s * (1 - t) + x2 s * t, y1 s * (1 - t) + y2 s * t)
  | Some (cx, cy) =>
      ((1 - t) * (1 - t) * x1 s + 2 * t * (1 - t) * cx + t * t * x2 s,
       (1 - t) * (1 - t) * y1 s + 2 * t * (1 - t) * cy + t * t * y2 s)
  end.

(** Modelled from the spec: [tangentAt] of the line path.  "returns the
    (unnormalized) derivative direction at t; straight case returns p1-p0;
    curved case the Bezier derivative." *)
Definition tangentAt (s : Shape) (t : R) : point :=
  match controlPoint s with
  | None => (x2 s - x1 s, y2 s - y1 s)
  | Some (cx, cy) =>
      (2 * (1 - t) * (cx - x1 s) + 2 * t * (x2 s - cx),
       2 * (1 - t) * (cy - y1 s) + 2 * t * (y2 s - cy))
  end.

(** ** Scene-graph elements *)

(** A number or a two-element array of numbers: the type of a symbol size
    and of a label distance. *)
Inductive NumberOrPair : Type :=
| Scalar (s : R)
| Pair (a b : R).

(** [if (!zrUtil.isArray(v)) { v = [v, v]; }]. *)
Definition toPair (v : NumberOrPair) : point :=
  match v with
  | Scalar s => (s, s)
  | Pair a b => (a, b)
  end.

(** An endpoint marker.  The first six fields are the arguments handed to
    the shape factory; the others are what the group writes afterwards. *)
Record ECSymbol : Type := mkSymbol {
  symbol_name : string;
  symbol_type : JS.value;
  symbol_x : R;
  symbol_y : R;
  symbol_w : R;
  symbol_h : R;
  symbol_color : JS.value;
  symbol_opacity : R;
  symbol_position : point;
  symbol_rotation : R;
  symbol_scale : point
}.

(** Modelled from the spec: the shape factory [symbolUtil.createSymbol] of
    [../../util/symbol], "marker-shape construction by name": a shape of the
    given kind in the box [(x, y, w, h)], painted in [color], with the
    default pose of a new element. *)
Definition symbolUtil_createSymbol
    (symbolType : JS.value) (x y w h : R) (color : JS.value) : ECSymbol :=
  {| symbol_name := EmptyString;
     symbol_type := symbolType;
     symbol_x := x;
     symbol_y := y;
     symbol_w := w;
     symbol_h := h;
     symbol_color := color;
     symbol_opacity := 1;
     symbol_position := (0, 0);
     symbol_rotation := 0;
     symbol_scale := (1, 1) |}.

(** The text of a label: a string, or the number the raw value gave. *)
Inductive NotFinite : Type := NaN | PosInfinity | NegInfinity.

Inductive RawValue : Type :=
| RawAbsent
| RawFinite (r : R)
| RawNotFinite (v : NotFinite).

Inductive LabelText : Type :=
| TextString (s : string)
| TextNumber (r : R)
| TextNotFinite (v : NotFinite).

(** The hover overlay of the label. *)
Record HoverTextStyle : Type := mkHover {
  hover_text : option LabelText;
  hover_textFill : JS.value;
  hover_fontStyle : JS.value;
  hover_fontWeight : JS.value;
  hover_fontSize : JS.value;
  hover_fontFamily : JS.value
}.

Record InnerLineLabel : Type := mkLabel {
  label_text : option LabelText;
  label_autoColor : JS.value;
  style_textAlign : JS.value;
  style_textVerticalAlign : JS.value;
  label_hoverStyle : HoverTextStyle;
  label_ignore : bool;
  lineLabelOriginalOpacity : R;
  __textAlign : JS.value;
  __verticalAlign : JS.value;
  __position : JS.value;
  __labelDistance : option point;
  label_position : point;
  label_rotation : R;
  label_scale : point;
  label_origin : point
}.

(** The paint of the curve. *)
Record LineStyle : Type := mkLineStyle {
  stroke : JS.value;
  opacity : option R
}.

(** What the animation layer was last asked to do with the curve. *)
Inductive Transition : Type :=
| InitProps (percentTo : R)
| UpdateProps (target : Shape).

Record ECLinePath : Type := mkLinePath {
  shape : Shape;
  line_dirty : bool;
  line_stroke : JS.value;
  line_opacity : R;
  line_hoverStyle : option LineStyle;
  line_transition : option Transition
}.

Inductive Child : Type :=
| ChLine (l : ECLinePath)
| ChLabel (t : InnerLineLabel)
| ChSymbol (s : ECSymbol).

(** The [name] of a child: ['line'] and ['label'] are given at creation. *)
Definition child_name (c : Child) : string :=
  match c with
  | ChLine _ => "line"
  | ChLabel _ => "label"
  | ChSymbol s => symbol_name s
  end.

(** An ancestor in the transform hierarchy. *)
#[local] Set Warnings "-register-all".
Inductive Node : Type := mkNode {
  node_scale : option point;
  node_parent : option Node
}.

(** ** The data record ([List]) and the models it hands out *)

Record LabelModel : Type := mkLabelModel {
  model_show : JS.value;
  model_position : JS.value;
  model_distance : NumberOrPair;
  model_align : JS.value;
  model_verticalAlign : JS.value;
  model_textColor : JS.value;
  model_fontStyle : JS.value;
  model_fontWeight : JS.value;
  model_fontSize : JS.value;
  model_fontFamily : JS.value
}.

Record LineDrawSeriesScope : Type := mkScope {
  scope_lineStyle : LineStyle;
  scope_hoverLineStyle : LineStyle;
  scope_labelModel : LabelModel;
  scope_hoverLabelModel : LabelModel
}.

Inductive LabelState : Type := normal | emphasis.

Record SeriesModel : Type := mkSeries {
  getFormattedLabel : nat -> LabelState -> option string;
  getRawValue : nat -> RawValue
}.

(** [getItemVisual] is split by the type of what a key holds: strings
    (['color'], the two symbol kinds), sizes ([name + 'Size']) and the
    opacity. *)
Record LineData : Type := mkLineData {
  hostModel : SeriesModel;
  getItemLayout : nat -> list point;
  getItemVisual : nat -> string -> JS.value;
  getItemVisualSize : nat -> string -> NumberOrPair;
  getItemVisualOpacity : nat -> option R;
  hasItemOption : bool;
  itemLineStyle : nat -> LineStyle;
  itemHoverLineStyle : nat -> LineStyle;
  itemLabelModel : nat -> LabelModel;
  itemHoverLabelModel : nat -> LabelModel;
  getName : nat -> string
}.

(** ** The group *)

Record Line : Type := mkLine {
  children : list Child;
  _fromSymbolType : JS.value;
  _toSymbolType : JS.value;
  parent : option Node;
  __dirty : bool
}.

Definition SYMBOL_CATEGORIES : list string := ["fromSymbol"; "toSymbol"]%string.

(** Lines 47-49. *)
Definition makeSymbolTypeKey (symbolCategory : string) : string :=
  ("_" ++ symbolCategory ++ "Type")%string.

(** [this[key]] for the two keys the class declares. *)
Definition getKey (self : Line) (key : string) : JS.value :=
  if String.eqb key "_fromSymbolType" then _fromSymbolType self
  else if String.eqb key "_toSymbolType" then _toSymbolType self
  else JS.Undefined.

(** [this[key] = v]. *)
Definition setKey (self : Line) (key : string) (v : JS.value) : Line :=
  if String.eqb key "_fromSymbolType" then
    mkLine (children self) v (_toSymbolType self) (parent self) (__dirty self)
  else if String.eqb key "_toSymbolType" then
    mkLine (children self) (_fromSymbolType self) v (parent self) (__dirty self)
  else self.

Definition setChildren (self : Line) (cs : list Child) : Line :=
  mkLine cs (_fromSymbolType self) (_toSymbolType self) (parent self) (__dirty self).

(** [group.childOfName(name)]: the first child of that name. *)
Definition childOfName (name : string) (cs : list Child) : option Child :=
  find (fun c => String.eqb (child_name c) name) cs.

(** [group.add(child)]: appended at the end; [add(undefined)] does nothing. *)
Definition add (child : option Child) (cs : list Child) : list Child :=
  match child with
  | Some c => cs ++ [c]
  | None => cs
  end.

(** [group.remove(group.childOfName(name))]: the child that [childOfName]
    finds is taken out; with no such child nothing changes. *)
Fixpoint removeChildOfName (name : string) (cs : list Child) : list Child :=
  match cs with
  | [] => []
  | c :: rest =>
      if String.eqb (child_name c) name then rest
      else c :: removeChildOfName name rest
  end.

(** A mutation of the object [childOfName(name)] returned. *)
Fixpoint updateChildOfName (name : string) (f : Child -> Child) (cs : list Child)
  : list Child :=
  match cs with
  | [] => []
  | c :: rest =>
      if String.eqb (child_name c) name then f c :: rest
      else c :: updateChildOfName name f rest
  end.

(** The casts [childOfName(..) as ECLinePath / InnerLineLabel / ECSymbol]. *)
Definition lineOfName (name : string) (cs : list Child) : option ECLinePath :=
  match childOfName name cs with
  | Some (ChLine l) => Some l
  | _ => None
  end.

Definition labelOfName (name : string) (cs : list Child) : option InnerLineLabel :=
  match childOfName name cs with
  | Some (ChLabel t) => Some t
  | _ => None
  end.

Definition symbolOfName (name : string) (cs : list Child) : option ECSymbol :=
  match childOfName name cs with
  | Some (ChSymbol s) => Some s
  | _ => None
  end.

Definition onLine (f : ECLinePath -> ECLinePath) (c : Child) : Child :=
  match c with ChLine l => ChLine (f l) | _ => c end.

Definition onLabel (f : InnerLineLabel -> InnerLineLabel) (c : Child) : Child :=
  match c with ChLabel t => ChLabel (f t) | _ => c end.

Definition onSymbol (f : ECSymbol -> ECSymbol) (c : Child) : Child :=
  match c with ChSymbol s => ChSymbol (f s) | _ => c end.

(** ** The marker factory, lines 54-74 *)

Definition createSymbol (name : string) (lineData : LineData) (idx : nat)
  : option ECSymbol :=
  let color := getItemVisual lineData idx "color" in
  let symbolType := getItemVisual lineData idx name in
  let symbolSize := getItemVisualSize lineData idx (name ++ "Size")%string in
  if negb (JS.truthy symbolType) || JS.strictEq symbolType (JS.Str "none") then
    None
  else
    let symbolSize := toPair symbolSize in
    let symbolPath :=
      symbolUtil_createSymbol
        symbolType (- fst symbolSize / 2) (- snd symbolSize / 2)
        (fst symbolSize) (snd symbolSize) color in
    Some {| symbol_name := name;
            symbol_type := symbol_type symbolPath;
            symbol_x := symbol_x symbolPath;
            symbol_y := symbol_y symbolPath;
            symbol_w := symbol_w symbolPath;
            symbol_h := symbol_h symbolPath;
            symbol_color := symbol_color symbolPath;
            symbol_opacity := symbol_opacity symbolPath;
            symbol_position := symbol_position symbolPath;
            symbol_rotation := symbol_rotation symbolPath;
            symbol_scale := symbol_scale symbolPath |}.

(** Lines 76-83. *)
Definition createLine (points : list point) : option ECLinePath :=
  match setLinePoints emptyShape points with
  | Some s =>
      Some {| shape := s;
              line_dirty := true;
              line_stroke := JS.Undefined;
              line_opacity := 1;
              line_hoverStyle := None;
              line_transition := None |}
  | None => None
  end.

(** ** Style and label resolution, construction and data update *)

Section LineGroup.

(** [round] of [../../util/number]: the rounding "to a display
    precision" of a finite raw value. *)
Variable round : R -> R.

(** [zrUtil.retrieve2] and [zrUtil.retrieve3]: the first value that is
    not [null]. *)
Definition retrieve2 {A : Type} (a b : option A) : option A :=
  match a with Some _ => a | None => b end.

Definition retrieve3 {A : Type} (a b : option A) (c : A) : A :=
  match a with
  | Some v => v
  | None => match b with Some v => v | None => c end
  end.

(** Lines 185-199: the shared scope is used unless it is missing or some
    item carries its own options. *)
Definition resolveLineStyle lineData idx (seriesScope : option LineDrawSeriesScope)
  : LineStyle :=
  match seriesScope with
  | Some sc => if hasItemOption lineData then itemLineStyle lineData idx
               else scope_lineStyle sc
  | None => itemLineStyle lineData idx
  end.

Definition resolveHoverLineStyle lineData idx (seriesScope : option LineDrawSeriesScope)
  : LineStyle :=
  match seriesScope with
  | Some sc => if hasItemOption lineData then itemHoverLineStyle lineData idx
               else scope_hoverLineStyle sc
  | None => itemHoverLineStyle lineData idx
  end.

Definition resolveLabelModel lineData idx (seriesScope : option LineDrawSeriesScope)
  : LabelModel :=
  match seriesScope with
  | Some sc => if hasItemOption lineData then itemLabelModel lineData idx
               else scope_labelModel sc
  | None => itemLabelModel lineData idx
  end.

Definition resolveHoverLabelModel lineData idx (seriesScope : option LineDrawSeriesScope)
  : LabelModel :=
  match seriesScope with
  | Some sc => if hasItemOption lineData then itemHoverLabelModel lineData idx
               else scope_hoverLabelModel sc
  | None => itemHoverLabelModel lineData idx
  end.

(** Lines 241-249: the base text of the label. *)
Definition resolveBaseText (lineData : LineData) (idx : nat) : LabelText :=
  match getFormattedLabel (hostModel lineData) idx normal with
  | Some s => TextString s
  | None =>
      match getRawValue (hostModel lineData) idx with
      | RawAbsent => TextString (getName lineData idx)
      | RawFinite rawVal => TextNumber (round rawVal)
      | RawNotFinite rawVal => TextNotFinite rawVal
      end
  end.

(** [var baseText] after line 250: left [undefined] when neither state
    shows the label. *)
Definition baseText (lineData : LineData) (idx : nat) (showLabel hoverShowLabel : JS.value)
  : option LabelText :=
  if JS.truthy showLabel || JS.truthy hoverShowLabel
  then Some (resolveBaseText lineData idx)
  else None.

(** Line 251. *)
Definition normalText (lineData : LineData) (idx : nat) (showLabel hoverShowLabel : JS.value)
  : option LabelText :=
  if JS.truthy showLabel then baseText lineData idx showLabel hoverShowLabel else None.

(** Lines 252-257. *)
Definition emphasisText (lineData : LineData) (idx : nat) (showLabel hoverShowLabel : JS.value)
  : option LabelText :=
  if JS.truthy hoverShowLabel then
    retrieve2
      (option_map TextString (getFormattedLabel (hostModel lineData) idx emphasis))
      (baseText lineData idx showLabel hoverShowLabel)
  else None.

(** Modelled from the spec: [symbol.setColor], which the shape factory of
    [../../util/symbol] attaches to the shapes it builds, is not part of the
    sources.  "Apply resolved stroke color/opacity to the curve and
    propagate the same color/opacity to any existing markers": the marker
    takes the color it is given. *)
Definition setColor (color : JS.value) (s : ECSymbol) : ECSymbol :=
  mkSymbol (symbol_name s) (symbol_type s) (symbol_x s) (symbol_y s)
           (symbol_w s) (symbol_h s) color (symbol_opacity s)
           (symbol_position s) (symbol_rotation s) (symbol_scale s).

(** [symbol.setStyle({opacity: visualOpacity})]. *)
Definition setStyleOpacity (visualOpacity : R) (s : ECSymbol) : ECSymbol :=
  mkSymbol (symbol_name s) (symbol_type s) (symbol_x s) (symbol_y s)
           (symbol_w s) (symbol_h s) (symbol_color s) visualOpacity
           (symbol_position s) (symbol_rotation s) (symbol_scale s).

(** Lines 220-228 for one category. *)
Definition paintSymbol (visualColor : JS.value) (visualOpacity : R) (s : ECSymbol)
  : ECSymbol :=
  setStyleOpacity visualOpacity (setColor visualColor s).

(** Lines 259-301 on the label object.  [graphic.setTextStyle] is taken to
    store the text and the default color it is given and to copy the
    alignment options of the label model into the style, from where lines
    270-271 cache them. *)
Definition styleLabel (lineData : LineData) (idx : nat)
    (labelModel hoverLabelModel : LabelModel) (visualColor : JS.value)
    (label : InnerLineLabel) : InnerLineLabel :=
  let showLabel := model_show labelModel in
  let hoverShowLabel := model_show hoverLabelModel in
  let defaultLabelColor :=
    if JS.truthy showLabel || JS.truthy hoverShowLabel
    then JS.or visualColor (JS.Str "#000")
    else JS.Undefined in
  let nText := normalText lineData idx showLabel hoverShowLabel in
  let eText := emphasisText lineData idx showLabel hoverShowLabel in
  let styled :=
    match nText, eText with
    | None, None => label
    | _, _ =>
        mkLabel nText defaultLabelColor
                (model_align labelModel) (model_verticalAlign labelModel)
                (label_hoverStyle label) (label_ignore label)
                (lineLabelOriginalOpacity label)
                (model_align labelModel) (model_verticalAlign labelModel)
                (JS.or (model_position labelModel) (JS.Str "middle"))
                (Some (toPair (model_distance labelModel)))
                (label_position label) (label_rotation label)
                (label_scale label) (label_origin label)
    end in
  let hoverStyle :=
    match eText with
    | Some _ =>
        mkHover eText (model_textColor hoverLabelModel)
                (model_fontStyle hoverLabelModel) (model_fontWeight hoverLabelModel)
                (model_fontSize hoverLabelModel) (model_fontFamily hoverLabelModel)
    | None =>
        mkHover None JS.Undefined JS.Undefined JS.Undefined JS.Undefined JS.Undefined
    end in
  mkLabel (label_text styled) (label_autoColor styled)
          (style_textAlign styled) (style_textVerticalAlign styled)
          hoverStyle
          (negb (JS.truthy showLabel) && negb (JS.truthy hoverShowLabel))
          (lineLabelOriginalOpacity styled)
          (__textAlign styled) (__verticalAlign styled)
          (__position styled) (__labelDistance styled)
          (label_position styled) (label_rotation styled)
          (label_scale styled) (label_origin styled).

(** [_updateCommonStl], lines 180-304.  A missing ['line'] or ['label']
    child makes the method throw. *)
Definition _updateCommonStl (lineData : LineData) (idx : nat)
    (seriesScope : option LineDrawSeriesScope) (self : Line) : option Line :=
  match lineOfName "line" (children self) with
  | None => None
  | Some _ =>
      let lineStyle := resolveLineStyle lineData idx seriesScope in
      let hoverLineStyle := resolveHoverLineStyle lineData idx seriesScope in
      let labelModel := resolveLabelModel lineData idx seriesScope in
      let hoverLabelModel := resolveHoverLabelModel lineData idx seriesScope in
      let visualColor := getItemVisual lineData idx "color" in
      let visualOpacity :=
        retrieve3 (getItemVisualOpacity lineData idx) (opacity lineStyle) 1 in
      let useStyle (l : ECLinePath) :=
        mkLinePath (shape l) (line_dirty l)
                   (if JS.isNullish visualColor then stroke lineStyle else visualColor)
                   visualOpacity (Some hoverLineStyle) (line_transition l) in
      let cs := updateChildOfName "line" (onLine useStyle) (children self) in
      let cs :=
        fold_left
          (fun cs symbolCategory =>
             updateChildOfName symbolCategory
               (onSymbol (paintSymbol visualColor visualOpacity)) cs)
          SYMBOL_CATEGORIES cs in
      match labelOfName "label" cs with
      | None => None
      | Some _ =>
          Some (setChildren self
                  (updateChildOfName "label"
                     (onLabel (styleLabel lineData idx labelModel hoverLabelModel
                                          visualColor))
                     cs))
      end
  end.

(** The label as [new graphic.Text({name: 'label'})] makes it. *)
Definition newLabel : InnerLineLabel :=
  mkLabel None JS.Undefined JS.Undefined JS.Undefined
          (mkHover None JS.Undefined JS.Undefined JS.Undefined JS.Undefined JS.Undefined)
          false 1 JS.Undefined JS.Undefined JS.Undefined None
          (0, 0) 0 (1, 1) (0, 0).

(** Lines 141-148 for one category. *)
Definition createCategory (lineData : LineData) (idx : nat)
    (self : Line) (symbolCategory : string) : Line :=
  let symbol := createSymbol symbolCategory lineData idx in
  let self := setChildren self (add (option_map ChSymbol symbol) (children self)) in
  setKey self (makeSymbolTypeKey symbolCategory)
         (getItemVisual lineData idx symbolCategory).

(** Modelled from the spec: [graphic.initProps] "only requests
    transitions": the request is recorded and the shape keeps the start
    value until the animation layer moves it. *)
Definition initProps (l : ECLinePath) (percentTo : R) : ECLinePath :=
  mkLinePath (shape l) (line_dirty l) (line_stroke l) (line_opacity l)
             (line_hoverStyle l) (Some (InitProps percentTo)).

(** Modelled from the spec: [graphic.updateProps], as [initProps]. *)
Definition updateProps (l : ECLinePath) (target : Shape) : ECLinePath :=
  mkLinePath (shape l) (line_dirty l) (line_stroke l) (line_opacity l)
             (line_hoverStyle l) (Some (UpdateProps target)).

Definition setPercent (l : ECLinePath) (p : R) : ECLinePath :=
  let s := shape l in
  mkLinePath (mkShape (x1 s) (y1 s) (x2 s) (y2 s) p (cpx1 s) (cpy1 s))
             (line_dirty l) (line_stroke l) (line_opacity l)
             (line_hoverStyle l) (line_transition l).

(** The constructor and [_createLine], lines 114-151; [parentNode] is the
    place in the hierarchy the host puts the new group. *)
Definition _createLine (lineData : LineData) (idx : nat)
    (seriesScope : option LineDrawSeriesScope) (parentNode : option Node)
  : option Line :=
  match createLine (getItemLayout lineData idx) with
  | None => None
  | Some line =>
      let line := initProps (setPercent line 0) 1 in
      let self := mkLine [] JS.Undefined JS.Undefined parentNode true in
      let self := setChildren self (add (Some (ChLine line)) (children self)) in
      let self := setChildren self (add (Some (ChLabel newLabel)) (children self)) in
      let self := fold_left (createCategory lineData idx) SYMBOL_CATEGORIES self in
      _updateCommonStl lineData idx seriesScope self
  end.

(** Lines 165-175 for one category. *)
Definition updateCategory (lineData : LineData) (idx : nat)
    (self : Line) (symbolCategory : string) : Line :=
  let symbolType := getItemVisual lineData idx symbolCategory in
  let key := makeSymbolTypeKey symbolCategory in
  let self :=
    if negb (JS.strictEq (getKey self key) symbolType) then
      let cs := removeChildOfName symbolCategory (children self) in
      let symbol := createSymbol symbolCategory lineData idx in
      setChildren self (add (option_map ChSymbol symbol) cs)
    else self in
  setKey self key symbolType.

(** [updateData], lines 153-178. *)
Definition updateData (lineData : LineData) (idx : nat)
    (seriesScope : option LineDrawSeriesScope) (self : Line) : option Line :=
  match setLinePoints emptyShape (getItemLayout lineData idx) with
  | None => None
  | Some target =>
      let cs :=
        updateChildOfName "line" (onLine (fun l => updateProps l target))
                          (children self) in
      let self := setChildren self cs in
      let self := fold_left (updateCategory lineData idx) SYMBOL_CATEGORIES self in
      _updateCommonStl lineData idx seriesScope self
  end.

(** The method [setLinePoints], lines 318-322. *)
Definition Line_setLinePoints (points : list point) (self : Line) : option Line :=
  match lineOfName "line" (children self) with
  | None => None
  | Some linePath =>
      match setLinePoints (shape linePath) points with
      | None => None
      | Some s =>
          let dirty (l : ECLinePath) :=
            mkLinePath s true (line_stroke l) (line_opacity l)
                       (line_hoverStyle l) (line_transition l) in
          Some (setChildren self
                  (updateChildOfName "line" (onLine dirty) (children self)))
      end
  end.

(** [updateLayout], lines 314-316. *)
Definition updateLayout (lineData : LineData) (idx : nat) (self : Line) : option Line :=
  Line_setLinePoints (getItemLayout lineData idx) self.

End LineGroup.

(** ** The per-frame layout pass, [beforeUpdate], lines 324-475 *)

(** Lines 334-341: the walk up the ancestor chain, from [parentNode], read
    over the reals.  It is the number the code computes as long as no
    scale-bearing ancestor has the x-scale 0.  Past a division by 0
    JavaScript carries Infinity or NaN, which a real cannot hold:
    [walkScaleJS] below follows the same lines with that arithmetic, and
    the two agree on every chain without a zero x-scale. *)
Fixpoint walkScale (invScale : R) (parentNode : Node) : R :=
  match parentNode with
  | mkNode scale next =>
      let invScale :=
        match scale with
        | Some sc => invScale / fst sc
        | None => invScale
        end in
      match next with
      | Some p => walkScale invScale p
      | None => invScale
      end
  end.

Definition invScaleOf (parentNode : option Node) : R :=
  match parentNode with
  | Some p => walkScale 1 p
  | None => 1
  end.

(** [case 'a': case 'b': ...] of a [switch (label.__position)]. *)
Definition positionIn (position : JS.value) (cases : list string) : bool :=
  existsb (fun c => JS.strictEq position (JS.Str c)) cases.

(** The first [switch], lines 403-423: [(dy, textVerticalAlign)]. *)
Definition verticalPlacement (position : JS.value) (distanceY : R) : R * string :=
  if positionIn position
       ["insideStartTop"; "insideMiddleTop"; "insideEndTop"; "middle"]%string
  then (- distanceY, "bottom"%string)
  else if positionIn position
            ["insideStartBottom"; "insideMiddleBottom"; "insideEndBottom"]%string
  then (distanceY, "top"%string)
  else (0, "middle"%string).

(** The alignments of [case 'end'], lines 428-429. *)
Definition endTextAlign (d0 : R) : string :=
  if Rgt_dec d0 0.8 then "left"
  else if Rlt_dec d0 (-0.8) then "right" else "center".

Definition endTextVerticalAlign (d1 : R) : string :=
  if Rgt_dec d1 0.8 then "top"
  else if Rlt_dec d1 (-0.8) then "bottom" else "middle".

(** The alignments of [case 'start'], lines 434-435. *)
Definition startTextAlign (d0 : R) : string :=
  if Rgt_dec d0 0.8 then "right"
  else if Rlt_dec d0 (-0.8) then "left" else "center".

Definition startTextVerticalAlign (d1 : R) : string :=
  if Rgt_dec d1 0.8 then "bottom"
  else if Rlt_dec d1 (-0.8) then "top" else "middle".

(** The local variables of the label branch, lines 377-462, as they stand
    when [label.attr] is reached; [rotation] is [Some] when line 400 ran.
    The normal [n] of lines 387-392 is computed and never read. *)
Record LabelLayout : Type := mkLayout {
  rotation : option R;
  dy : R;
  textPosition : option point;
  textAlign : JS.value;
  textVerticalAlign : JS.value;
  textOrigin : option point
}.

Definition labelLayout (s : Shape) (invScale : R)
    (position : JS.value) (distance : point) : LabelLayout :=
  let percent := percent s in
  let fromPos := pointAt s 0 in
  let toPos := pointAt s percent in
  let d := vector.normalize (vector.sub toPos fromPos) in
  let distanceX := fst distance * invScale in
  let distanceY := snd distance * invScale in
  let halfPercent := percent / 2 in
  let tangent := tangentAt s halfPercent in
  let cp := pointAt s halfPercent in
  let dir := if Rlt_dec (fst tangent) 0 then -1 else 1 in
  let rotation :=
    if negb (JS.strictEq position (JS.Str "start"))
       && negb (JS.strictEq position (JS.Str "end"))
    then
      let rotation := - atan2 (snd tangent) (fst tangent) in
      Some (if Rlt_dec (fst toPos) (fst fromPos) then PI + rotation else rotation)
    else None in
  let dy := fst (verticalPlacement position distanceY) in
  let textVerticalAlign := snd (verticalPlacement position distanceY) in
  if positionIn position ["end"]%string then
    mkLayout rotation dy
      (Some (fst d * distanceX + fst toPos, snd d * distanceY + snd toPos))
      (JS.Str (endTextAlign (fst d)))
      (JS.Str (endTextVerticalAlign (snd d)))
      None
  else if positionIn position ["start"]%string then
    mkLayout rotation dy
      (Some (- fst d * distanceX + fst fromPos, - snd d * distanceY + snd fromPos))
      (JS.Str (startTextAlign (fst d)))
      (JS.Str (startTextVerticalAlign (snd d)))
      None
  else if positionIn position
            ["insideStartTop"; "insideStart"; "insideStartBottom"]%string then
    mkLayout rotation dy
      (Some (distanceX * dir + fst fromPos, snd fromPos + dy))
      (JS.Str (if Rlt_dec (fst tangent) 0 then "right" else "left"))
      (JS.Str textVerticalAlign)
      (Some (- distanceX * dir, - dy))
  else if positionIn position
            ["insideMiddleTop"; "insideMiddle"; "insideMiddleBottom"; "middle"]%string then
    mkLayout rotation dy
      (Some (fst cp, snd cp + dy))
      (JS.Str "center")
      (JS.Str textVerticalAlign)
      (Some (0, - dy))
  else if positionIn position
            ["insideEndTop"; "insideEnd"; "insideEndBottom"]%string then
    mkLayout rotation dy
      (Some (- distanceX * dir + fst toPos, snd toPos + dy))
      (JS.Str (if Rge_dec (fst tangent) 0 then "right" else "left"))
      (JS.Str textVerticalAlign)
      (Some (distanceX * dir, - dy))
  else
    mkLayout rotation dy None JS.Undefined (JS.Str textVerticalAlign) None.

(** The three [attr] calls on a symbol, lines 358-363 and 366-371. *)
Definition poseSymbol (position : point) (rot : R) (scale : point) (s : ECSymbol)
  : ECSymbol :=
  mkSymbol (symbol_name s) (symbol_type s) (symbol_x s) (symbol_y s)
           (symbol_w s) (symbol_h s) (symbol_color s) (symbol_opacity s)
           position rot scale.

(** Lines 375, 400 and 464-473 on the label.  An [attr] of [position] or
    [origin] with [undefined] leaves the old array in place. *)
Definition poseLabel (toPos : point) (invScale : R) (lay : LabelLayout)
    (label : InnerLineLabel) : InnerLineLabel :=
  mkLabel (label_text label) (label_autoColor label)
          (JS.or (__textAlign label) (textAlign lay))
          (JS.or (__verticalAlign label) (textVerticalAlign lay))
          (label_hoverStyle label) (label_ignore label)
          (lineLabelOriginalOpacity label)
          (__textAlign label) (__verticalAlign label)
          (__position label) (__labelDistance label)
          (match textPosition lay with Some p => p | None => toPos end)
          (match rotation lay with Some r => r | None => label_rotation label end)
          (invScale, invScale)
          (match textOrigin lay with Some o => o | None => label_origin label end).

Definition isSome {A : Type} (o : option A) : bool :=
  match o with Some _ => true | None => false end.

(** [beforeUpdate], lines 324-475.  [None] is the TypeError of a missing
    child or a missing cached distance.  The scales and offsets it writes
    are reals: they are the code's numbers as long as no scale-bearing
    ancestor has the x-scale 0. *)
Definition beforeUpdate (self : Line) : option Line :=
  let lineGroup := self in
  let symbolFrom := symbolOfName "fromSymbol" (children lineGroup) in
  let symbolTo := symbolOfName "toSymbol" (children lineGroup) in
  match labelOfName "label" (children lineGroup) with
  | None => None
  | Some label =>
      if negb (isSome symbolFrom) && negb (isSome symbolTo) && label_ignore label
      then Some self
      else
        let invScale := invScaleOf (parent self) in
        match lineOfName "line" (children lineGroup) with
        | None => None
        | Some line =>
            if negb (__dirty self) && negb (line_dirty line) then Some self
            else
              let percent := percent (shape line) in
              let fromPos := pointAt (shape line) 0 in
              let toPos := pointAt (shape line) percent in
              let cs := children lineGroup in
              let cs :=
                if isSome symbolFrom then
                  let tangent := tangentAt (shape line) 0 in
                  updateChildOfName "fromSymbol"
                    (onSymbol
                       (poseSymbol fromPos
                          (PI / 2 - atan2 (snd tangent) (fst tangent))
                          (invScale * percent, invScale * percent)))
                    cs
                else cs in
              let cs :=
                if isSome symbolTo then
                  let tangent := tangentAt (shape line) 1 in
                  updateChildOfName "toSymbol"
                    (onSymbol
                       (poseSymbol toPos
                          (- PI / 2 - atan2 (snd tangent) (fst tangent))
                          (invScale * percent, invScale * percent)))
                    cs
                else cs in
              if label_ignore label then Some (setChildren self cs)
              else
                match __labelDistance label with
                | None => None
                | Some distance =>
                    let lay :=
                      labelLayout (shape line) invScale (__position label) distance in
                    Some (setChildren self
                            (updateChildOfName "label"
                               (onLabel (poseLabel toPos invScale lay)) cs))
                end
        end
  end.

(** ** Vocabulary of the properties *)

(** A mutation that leaves the name of a child alone. *)
Definition namePreserving (f : Child -> Child) : Prop :=
  forall c, child_name (f c) = child_name c.

(** The pose line 358-363 gives the from-marker. *)
Definition fromPose (line : ECLinePath) (parentNode : option Node) : ECSymbol -> ECSymbol :=
  let s := shape line in
  let invScale := invScaleOf parentNode in
  poseSymbol (pointAt s 0)
             (PI / 2 - atan2 (snd (tangentAt s 0)) (fst (tangentAt s 0)))
             (invScale * percent s, invScale * percent s).

(** The pose lines 366-371 give the to-marker. *)
Definition toPose (line : ECLinePath) (parentNode : option Node) : ECSymbol -> ECSymbol :=
  let s := shape line in
  let invScale := invScaleOf parentNode in
  poseSymbol (pointAt s (percent s))
             (- PI / 2 - atan2 (snd (tangentAt s 1)) (fst (tangentAt s 1)))
             (invScale * percent s, invScale * percent s).

(** The pass reaches its end when the group has its curve and its label
    and a label that is shown has its distance cached. *)
Definition layoutReady (self : Line) (line : ECLinePath) (label : InnerLineLabel) : Prop :=
  lineOfName "line" (children self) = Some line /\
  labelOfName "label" (children self) = Some label /\
  (label_ignore label = false -> isSome (__labelDistance label) = true).

Definition geometryDirty (self : Line) (line : ECLinePath) : bool :=
  __dirty self || line_dirty line.

(** The x-scales of the scale-bearing ancestors, nearest first. *)
Fixpoint ancestorScales (n : Node) : list R :=
  match n with
  | mkNode scale next =>
      match scale with Some sc => [fst sc] | None => [] end
      ++ match next with Some p => ancestorScales p | None => [] end
  end.

Definition scalesAbove (parentNode : option Node) : list R :=
  match parentNode with
  | Some p => ancestorScales p
  | None => []
  end.

(** The scale compensation in the words of the specification: the product
    of the reciprocals of those x-scales. *)
Definition productOfReciprocals (scales : list R) : R :=
  fold_right (fun s acc => / s * acc) 1 scales.

(** ** The scale compensation in JavaScript's arithmetic *)

Module JSNumber.

(** A number of the scale computation: a real, or one of the values a
    division by zero leaves behind. *)
Inductive t : Type :=
| Finite (r : R)
| NonFinite (v : NotFinite).




End JSNumber.




(** ** Sample records and groups *)

Module Sample.

Local Open Scope string_scope.

Definition plainLabel (show : bool) : LabelModel :=
  mkLabelModel (JS.Boolean show) JS.Undefined (Scalar 5)
               JS.Undefined JS.Undefined JS.Undefined
               JS.Undefined JS.Undefined JS.Undefined JS.Undefined.

(** A record with the given geometry, symbol kinds and label flags. *)
Definition record (layout : list point) (fromKind toKind : JS.value)
    (show hoverShow : bool) (hoverLabel : option string) : LineData :=
  {| hostModel :=
       mkSeries (fun _ state => match state with normal => None | emphasis => hoverLabel end)
                (fun _ => RawFinite 12);
     getItemLayout := fun _ => layout;
     getItemVisual := fun _ key =>
       if String.eqb key "fromSymbol" then fromKind
       else if String.eqb key "toSymbol" then toKind
       else if String.eqb key "color" then JS.Str "#333"
       else JS.Undefined;
     getItemVisualSize := fun _ _ => Scalar 10;
     getItemVisualOpacity := fun _ => None;
     hasItemOption := false;
     itemLineStyle := fun _ => mkLineStyle JS.Undefined None;
     itemHoverLineStyle := fun _ => mkLineStyle JS.Undefined None;
     itemLabelModel := fun _ => plainLabel show;
     itemHoverLabelModel := fun _ => plainLabel hoverShow;
     getName := fun _ => "a > b" |}.

(** A quadratic curve from (0,0) to (1,1) bending through (1,0), with an
    arrow at its end and no label. *)
Definition curveRecord : LineData :=
  record [(0, 0); (1, 1); (1, 0)] (JS.Str "none") (JS.Str "arrow") false false None.

Definition zoomed : option Node :=
  Some (mkNode (Some (2, 2)) (Some (mkNode None (Some (mkNode (Some (4, 4)) None))))).

Definition curveShape : Shape := mkShape 0 0 1 1 0 (Some 1) (Some 0).

Definition curvePath : ECLinePath :=
  mkLinePath curveShape true (JS.Str "#333") 1
             (Some (mkLineStyle JS.Undefined None)) (Some (InitProps 1)).

Definition hiddenLabel : InnerLineLabel :=
  mkLabel None JS.Undefined JS.Undefined JS.Undefined
          (mkHover None JS.Undefined JS.Undefined JS.Undefined JS.Undefined JS.Undefined)
          true 1 JS.Undefined JS.Undefined JS.Undefined None
          (0, 0) 0 (1, 1) (0, 0).

Definition arrow : ECSymbol :=
  mkSymbol "toSymbol" (JS.Str "arrow") (- (10) / 2) (- (10) / 2) 10 10
           (JS.Str "#333") 1 (0, 0) 0 (1, 1).

(** The group [new Line(curveRecord, 0)] builds under [zoomed], as it
    stands when its first frame is laid out. *)
Definition newCurve : Line :=
  mkLine [ChLine curvePath; ChLabel hiddenLabel; ChSymbol arrow]
         (JS.Str "none") (JS.Str "arrow") zoomed true.

(** The same group once its curve is drawn in full: what the method
    [setLinePoints] leaves when it is given the geometry of the record
    again. *)
Definition drawnPath : ECLinePath :=
  mkLinePath (mkShape 0 0 1 1 1 (Some 1) (Some 0)) true (JS.Str "#333") 1
             (Some (mkLineStyle JS.Undefined None)) (Some (InitProps 1)).

Definition drawnCurve : Line :=
  mkLine [ChLine drawnPath; ChLabel hiddenLabel; ChSymbol arrow]
         (JS.Str "none") (JS.Str "arrow") zoomed true.



(** The same connector, its end marker turned into a circle. *)
Definition circleRecord : LineData :=
  record [(0, 0); (1, 1); (1, 0)] (JS.Str "none") (JS.Str "circle") false false None.

(** A straight connector whose label is shown in the base state only,
    though a formatted hover label exists. *)
Definition hoverHidden : LineData :=
  record [(0, 0); (10, 0)] (JS.Str "none") (JS.Str "none") true false (Some "hover").

(** A connector whose from-marker kind is the empty string. *)
Definition emptyKind : LineData :=
  record [(0, 0); (10, 0)] (JS.Str "") (JS.Str "arrow") false false None.

End Sample.

(** ** Anchor policies *)

(** The values of [label.position] that have a [case] in the layout pass. *)
Definition policies : list string :=
  ["end"; "start";
   "insideStartTop"; "insideStart"; "insideStartBottom";
   "insideMiddleTop"; "insideMiddle"; "insideMiddleBottom"; "middle";
   "insideEndTop"; "insideEnd"; "insideEndBottom"]%string.

(** "The policy name contains [part]". *)
Definition nameContains (part name : string) : bool :=
  isSome (String.index 0 part name).

Module SampleLabel.

(** The connector of the end-to-end scenarios: (0,0) to (10,0), no
    control point, fully drawn. *)
Definition straight : Shape := mkShape 0 0 10 0 1 None None.

Definition leftward : Shape := mkShape 0 0 (-10) 0 1 None None.

Definition downward : Shape := mkShape 0 0 0 10 1 None None.

End SampleLabel.

(** ** Vocabulary of the update path *)

(** Lines 202-206. *)
Definition visualOpacity (lineData : LineData) (idx : nat)
    (seriesScope : option LineDrawSeriesScope) : R :=
  retrieve3 (getItemVisualOpacity lineData idx)
            (opacity (resolveLineStyle lineData idx seriesScope)) 1.

(** The paint lines 220-228 give a marker. *)
Definition repaint (lineData : LineData) (idx : nat)
    (seriesScope : option LineDrawSeriesScope) : ECSymbol -> ECSymbol :=
  paintSymbol (getItemVisual lineData idx "color") (visualOpacity lineData idx seriesScope).

(** [this[key] !== symbolType] of line 169. *)
Definition symbolChanged (lineData : LineData) (idx : nat) (self : Line)
    (symbolCategory : string) : bool :=
  negb (JS.strictEq (getKey self (makeSymbolTypeKey symbolCategory))
                    (getItemVisual lineData idx symbolCategory)).

(** The two loops of [updateData] and [_createLine] over the categories. *)
Definition updateCategories (lineData : LineData) (idx : nat) (self : Line) : Line :=
  fold_left (updateCategory lineData idx) SYMBOL_CATEGORIES self.

(** A group as the class keeps it: one child per name, the curve and the
    label among them. *)
Definition wellFormed (self : Line) : Prop :=
  NoDup (map child_name (children self)) /\
  isSome (lineOfName "line" (children self)) = true /\
  isSome (labelOfName "label" (children self)) = true.

(** A history of data refreshes, oldest first. *)
Definition Refresh : Type := (LineData * nat * option LineDrawSeriesScope)%type.

Fixpoint refreshAll (round : R -> R) (history : list Refresh) (self : Line) : option Line :=
  match history with
  | [] => Some self
  | (lineData, idx, seriesScope) :: later =>
      match updateData round lineData idx seriesScope self with
      | Some self' => refreshAll round later self'
      | None => None
      end
  end.

(** A shape with its draw progress replaced. *)
Definition withPercent (s : Shape) (p : R) : Shape :=
  mkShape (x1 s) (y1 s) (x2 s) (y2 s) p (cpx1 s) (cpy1 s).

Definition refreshData (r : Refresh) : LineData := fst (fst r).
Definition refreshIdx (r : Refresh) : nat := snd (fst r).
Definition refreshScope (r : Refresh) : option LineDrawSeriesScope := snd r.

(** The record of a refresh has its two endpoints. *)
Definition hasEndpoints (r : Refresh) : Prop :=
  (2 <= List.length (getItemLayout (refreshData r) (refreshIdx r)))%nat.

(** The shape kind a record holds for a category. *)
Definition kindOf (r : Refresh) (symbolCategory : string) : JS.value :=
  getItemVisual (refreshData r) (refreshIdx r) symbolCategory.


(** ** Vocabulary of the layout pass as a whole *)

(** The two early returns of [beforeUpdate], lines 330 and 346. *)
Definition layoutSkipped (self : Line) (line : ECLinePath) (label : InnerLineLabel) : bool :=
  (negb (isSome (symbolOfName "fromSymbol" (children self)))
   && negb (isSome (symbolOfName "toSymbol" (children self)))
   && label_ignore label)
  || (negb (__dirty self) && negb (line_dirty line)).

(** What lines 375-473 do to a label that is shown. *)
Definition labelPose (self : Line) (line : ECLinePath) (label : InnerLineLabel)
  : InnerLineLabel -> InnerLineLabel :=
  match __labelDistance label with
  | Some distance =>
      let invScale := invScaleOf (parent self) in
      poseLabel (pointAt (shape line) (percent (shape line))) invScale
                (labelLayout (shape line) invScale (__position label) distance)
  | None => fun t => t
  end.

(** The children a pass that is not skipped leaves. *)
Definition layoutOf (self : Line) (line : ECLinePath) (label : InnerLineLabel) : list Child :=
  updateChildOfName "label"
    (onLabel (if label_ignore label then (fun t => t) else labelPose self line label))
    (updateChildOfName "toSymbol" (onSymbol (toPose line (parent self)))
       (updateChildOfName "fromSymbol" (onSymbol (fromPose line (parent self)))
          (children self))).

(** ** Histories of calls on a group *)

Inductive Call : Type :=
| CallUpdateData (lineData : LineData) (idx : nat) (seriesScope : option LineDrawSeriesScope)
| CallUpdateLayout (lineData : LineData) (idx : nat)
| CallSetLinePoints (points : list point)
| CallBeforeUpdate.

Definition call (round : R -> R) (c : Call) (self : Line) : option Line :=
  match c with
  | CallUpdateData lineData idx seriesScope => updateData round lineData idx seriesScope self
  | CallUpdateLayout lineData idx => updateLayout lineData idx self
  | CallSetLinePoints points => Line_setLinePoints points self
  | CallBeforeUpdate => beforeUpdate self
  end.

Fixpoint callAll (round : R -> R) (history : list Call) (self : Line) : option Line :=
  match history with
  | [] => Some self
  | c :: later =>
      match call round c self with
      | Some self' => callAll round later self'
      | None => None
      end
  end.

(** The geometry a call reads, if it reads one. *)
Definition callGeometry (c : Call) : option (list point) :=
  match c with
  | CallUpdateData lineData idx _ => Some (getItemLayout lineData idx)
  | CallUpdateLayout lineData idx => Some (getItemLayout lineData idx)
  | CallSetLinePoints points => Some points
  | CallBeforeUpdate => None
  end.

(** The geometry of the call, if any, has its two endpoints. *)
Definition callable (c : Call) : Prop :=
  match callGeometry c with
  | Some points => (2 <= List.length points)%nat
  | None => True
  end.

(** A mutation that turns a curve into a curve, a label into a label and a
    marker into a marker. *)
Definition kindPreserving (f : Child -> Child) : Prop :=
  forall c,
    match c, f c with
    | ChLine _, ChLine _ | ChLabel _, ChLabel _ | ChSymbol _, ChSymbol _ => True
    | _, _ => False
    end.

Definition isMarker (c : Child) : Prop :=
  match c with ChSymbol _ => True | _ => False end.

(** The curve first, the label second, then markers only. *)
Definition lineFirst (cs : list Child) : Prop :=
  match cs with
  | ChLine _ :: ChLabel _ :: rest => Forall isMarker rest
  | _ => False
  end.

(** The children of a group as the class keeps them. *)
Definition goodChildren (cs : list Child) : Prop :=
  lineFirst cs /\
  NoDup (map child_name cs) /\
  incl (map child_name cs) ("line" :: "label" :: SYMBOL_CATEGORIES)%string.

(** The test of line 59, negated: a kind the factory builds a marker for. *)
Definition kindBuilds (kind : JS.value) : bool :=
  JS.truthy kind && negb (JS.strictEq kind (JS.Str "none")).

(** A shown label has its distance cached. *)
Definition labelReady (self : Line) : Prop :=
  forall label,
    labelOfName "label" (children self) = Some label ->
    label_ignore label = false ->
    isSome (__labelDistance label) = true.

(** Each category has a marker exactly when its cached kind builds one, and
    the marker is of that kind. *)
Definition markersMatch (self : Line) : Prop :=
  forall c, In c SYMBOL_CATEGORIES ->
    match symbolOfName c (children self) with
    | Some s => symbol_type s = getKey self (makeSymbolTypeKey c) /\
                kindBuilds (getKey self (makeSymbolTypeKey c)) = true
    | None => kindBuilds (getKey self (makeSymbolTypeKey c)) = false
    end.

(** The markers among the children. *)
Fixpoint markersOf (cs : list Child) : list ECSymbol :=
  match cs with
  | [] => []
  | ChSymbol s :: rest => s :: markersOf rest
  | _ :: rest => markersOf rest
  end.

(** What the method [setLinePoints] does to the curve, lines 320-321. *)
Definition redraw (s : Shape) (l : ECLinePath) : ECLinePath :=
  mkLinePath s true (line_stroke l) (line_opacity l) (line_hoverStyle l) (line_transition l).

(** The invariant of the class. *)
Definition groupInv (self : Line) : Prop :=
  goodChildren (children self) /\ labelReady self /\ markersMatch self.

Module SampleHistory.

(** A first frame, a refresh that changes the end marker, a layout-only
    refresh, a direct geometry override and another frame. *)
Definition calls : list Call :=
  [CallBeforeUpdate;
   CallUpdateData Sample.circleRecord 0 None;
   CallUpdateLayout Sample.hoverHidden 0;
   CallSetLinePoints [(0, 0); (3, 4)];
   CallBeforeUpdate].

(** The group those calls leave, made on [Sample.newCurve]. *)
Definition reached : Line :=
  match callAll (fun r => r) calls Sample.newCurve with
  | Some self => self
  | None => Sample.newCurve
  end.

End SampleHistory.

(** Two markers that differ at most in pose. *)
Definition samePaint (s s' : ECSymbol) : Prop :=
  symbol_name s' = symbol_name s /\
  symbol_type s' = symbol_type s /\
  (symbol_x s', symbol_y s', symbol_w s', symbol_h s')
    = (symbol_x s, symbol_y s, symbol_w s, symbol_h s) /\
  symbol_color s' = symbol_color s /\
  symbol_opacity s' = symbol_opacity s.

(** Two labels that differ at most in pose and resolved alignment. *)
Definition sameContent (t t' : InnerLineLabel) : Prop :=
  label_text t' = label_text t /\
  label_hoverStyle t' = label_hoverStyle t /\
  label_ignore t' = label_ignore t /\
  __position t' = __position t /\
  __labelDistance t' = __labelDistance t /\
  __textAlign t' = __textAlign t /\
  __verticalAlign t' = __verticalAlign t.

Module SampleGroup.

(** A straight connector with a circle at its start, an arrow at its end
    and a label shown in both states. *)
Definition labelled : LineData :=
  Sample.record [(0, 0); (10, 0)] (JS.Str "circle") (JS.Str "arrow") true true None.

(** The group the constructor builds from a record, under [Sample.zoomed]. *)
Definition built (lineData : LineData) : Line :=
  match _createLine (fun r => r) lineData 0 None Sample.zoomed with
  | Some self => self
  | None => Sample.newCurve
  end.

Definition theLine (self : Line) : ECLinePath :=
  match lineOfName "line" (children self) with
  | Some line => line
  | None => Sample.curvePath
  end.

Definition theLabel (self : Line) : InnerLineLabel :=
  match labelOfName "label" (children self) with
  | Some label => label
  | None => Sample.hiddenLabel
  end.

Definition theSymbol (symbolCategory : string) (self : Line) : ECSymbol :=
  match symbolOfName symbolCategory (children self) with
  | Some s => s
  | None => Sample.arrow
  end.

(** A shared scope that shows labels in the base state only. *)
Definition scope : LineDrawSeriesScope :=
  mkScope (mkLineStyle (JS.Str "#888") (Some (1 / 2))) (mkLineStyle JS.Undefined None)
          (Sample.plainLabel true) (Sample.plainLabel false).

End SampleGroup.

(** ** Vocabulary of the label placement *)

(** Left and right, top and bottom exchanged; the centered values stay. *)
Definition mirrorAlign (a : string) : string :=
  if String.eqb a "left" then "right"
  else if String.eqb a "right" then "left"
  else if String.eqb a "top" then "bottom"
  else if String.eqb a "bottom" then "top"
  else a.

Definition mirrorAlignValue (v : JS.value) : JS.value :=
  match v with
  | JS.Str a => JS.Str (mirrorAlign a)
  | _ => v
  end.

(** The curve point an inside policy is anchored to: the start, the point
    at half the draw progress, or the point at the draw progress. *)
Definition insideBase (s : Shape) (position : string) : option point :=
  if existsb (String.eqb position) ["insideStartTop"; "insideStart"; "insideStartBottom"]%string
  then Some (pointAt s 0)
  else if existsb (String.eqb position)
            ["insideMiddleTop"; "insideMiddle"; "insideMiddleBottom"; "middle"]%string
  then Some (pointAt s (percent s / 2))
  else if existsb (String.eqb position) ["insideEndTop"; "insideEnd"; "insideEndBottom"]%string
  then Some (pointAt s (percent s))
  else None.

(** ** Vocabulary of the style pass *)

(** A record with its per-item style and label models replaced. *)
Definition withItemModels (lineData : LineData)
    (lineStyle hoverLineStyle : nat -> LineStyle)
    (labelModel hoverLabelModel : nat -> LabelModel) : LineData :=
  mkLineData (hostModel lineData) (getItemLayout lineData) (getItemVisual lineData)
             (getItemVisualSize lineData) (getItemVisualOpacity lineData)
             (hasItemOption lineData)
             lineStyle hoverLineStyle labelModel hoverLabelModel
             (getName lineData).

(** The accumulated x-scale of the ancestors. *)
Definition productOfScales (scales : list R) : R := fold_right Rmult 1 scales.

(** The three inside policies without a suffix. *)
Definition plainInside : list string := ["insideStart"; "insideMiddle"; "insideEnd"]%string.


(** * Properties *)

(** ** Strict equality *)

Lemma strictEq_refl (a : JS.value) : JS.strictEq a a = true.
Proof.
  destruct a; simpl; auto using String.eqb_refl.
  destruct b; reflexivity.
Qed.

Lemma strictEq_eq (a b : JS.value) : JS.strictEq a b = true <-> a = b.
Proof.
  split.
  - destruct a, b; simpl; try discriminate; auto.
    + intros H. apply Bool.eqb_prop in H. now subst.
    + intros H. apply String.eqb_eq in H. now subst.
  - intros ->. apply strictEq_refl.
Qed.

(** ** Children of a group *)


Lemma onLine_namePreserving (f : ECLinePath -> ECLinePath) :
  namePreserving (onLine f).
Proof. intros [l | t | s]; reflexivity. Qed.

Lemma onLabel_namePreserving (f : InnerLineLabel -> InnerLineLabel) :
  namePreserving (onLabel f).
Proof. intros [l | t | s]; reflexivity. Qed.

Lemma onSymbol_namePreserving (f : ECSymbol -> ECSymbol) :
  (forall s, symbol_name (f s) = symbol_name s) ->
  namePreserving (onSymbol f).
Proof. intros Hf [l | t | s]; simpl; auto. Qed.

Lemma poseSymbol_namePreserving (p : point) (r : R) (sc : point) :
  namePreserving (onSymbol (poseSymbol p r sc)).
Proof. apply onSymbol_namePreserving. reflexivity. Qed.

Lemma paintSymbol_namePreserving (c : JS.value) (o : R) :
  namePreserving (onSymbol (paintSymbol c o)).
Proof. apply onSymbol_namePreserving. reflexivity. Qed.

Create HintDb children.
#[local] Hint Resolve onLine_namePreserving onLabel_namePreserving
  poseSymbol_namePreserving paintSymbol_namePreserving : children.

Lemma childOfName_update_same (n : string) (f : Child -> Child) (cs : list Child) :
  namePreserving f ->
  childOfName n (updateChildOfName n f cs) = option_map f (childOfName n cs).
Proof.
  intros Hf. unfold childOfName.
  induction cs as [| c rest IH]; simpl; [reflexivity |].
  destruct (String.eqb (child_name c) n) eqn:E; simpl.
  - now rewrite Hf, E.
  - now rewrite E.
Qed.

Lemma childOfName_update_other (n m : string) (f : Child -> Child) (cs : list Child) :
  namePreserving f ->
  String.eqb m n = false ->
  childOfName n (updateChildOfName m f cs) = childOfName n cs.
Proof.
  intros Hf Hnm. unfold childOfName.
  induction cs as [| c rest IH]; simpl; [reflexivity |].
  destruct (String.eqb (child_name c) m) eqn:E; simpl.
  - rewrite Hf.
    apply String.eqb_eq in E. rewrite E, Hnm. reflexivity.
  - now rewrite IH.
Qed.

Lemma childOfName_remove_other (n m : string) (cs : list Child) :
  String.eqb m n = false ->
  childOfName n (removeChildOfName m cs) = childOfName n cs.
Proof.
  intros Hnm. unfold childOfName.
  induction cs as [| c rest IH]; simpl; [reflexivity |].
  destruct (String.eqb (child_name c) m) eqn:E; simpl.
  - apply String.eqb_eq in E. rewrite E, Hnm. reflexivity.
  - now rewrite IH.
Qed.

Lemma childOfName_None (n : string) (cs : list Child) :
  ~ In n (map child_name cs) -> childOfName n cs = None.
Proof.
  unfold childOfName.
  induction cs as [| c rest IH]; simpl; intros H; [reflexivity |].
  destruct (String.eqb (child_name c) n) eqn:E.
  - apply String.eqb_eq in E. tauto.
  - apply IH. tauto.
Qed.

Lemma childOfName_remove_same (n : string) (cs : list Child) :
  NoDup (map child_name cs) ->
  childOfName n (removeChildOfName n cs) = None.
Proof.
  induction cs as [| c rest IH]; simpl; intros H; [reflexivity |].
  inversion H as [| x l Hnotin Hnodup]; subst.
  destruct (String.eqb (child_name c) n) eqn:E.
  - apply String.eqb_eq in E. subst n. now apply childOfName_None.
  - unfold childOfName in *. simpl. rewrite E. now apply IH.
Qed.

Lemma childOfName_add (n : string) (c : option Child) (cs : list Child) :
  childOfName n (add c cs) =
  match childOfName n cs with
  | Some x => Some x
  | None =>
      match c with
      | Some x => if String.eqb (child_name x) n then Some x else None
      | None => None
      end
  end.
Proof.
  unfold childOfName, add.
  destruct c as [x |].
  - induction cs as [| c rest IH]; simpl.
    + reflexivity.
    + destruct (String.eqb (child_name c) n); auto.
  - now destruct (find _ cs).
Qed.

Lemma map_name_update (n : string) (f : Child -> Child) (cs : list Child) :
  namePreserving f ->
  map child_name (updateChildOfName n f cs) = map child_name cs.
Proof.
  intros Hf. induction cs as [| c rest IH]; simpl; [reflexivity |].
  destruct (String.eqb (child_name c) n); simpl.
  - now rewrite Hf.
  - now rewrite IH.
Qed.

Lemma In_name_remove (n m : string) (cs : list Child) :
  In n (map child_name (removeChildOfName m cs)) -> In n (map child_name cs).
Proof.
  induction cs as [| c rest IH]; simpl; [tauto |].
  destruct (String.eqb (child_name c) m); simpl; tauto.
Qed.

Lemma NoDup_remove (m : string) (cs : list Child) :
  NoDup (map child_name cs) ->
  NoDup (map child_name (removeChildOfName m cs)).
Proof.
  induction cs as [| c rest IH]; simpl; intros H; [constructor |].
  inversion H as [| x l Hnotin Hnodup]; subst.
  destruct (String.eqb (child_name c) m); simpl; [assumption |].
  constructor; [| auto].
  intros Hin. apply Hnotin. eapply In_name_remove; eauto.
Qed.

Lemma not_In_remove_same (n : string) (cs : list Child) :
  NoDup (map child_name cs) ->
  ~ In n (map child_name (removeChildOfName n cs)).
Proof.
  induction cs as [| c rest IH]; simpl; intros H; [tauto |].
  inversion H as [| x l Hnotin Hnodup]; subst.
  destruct (String.eqb (child_name c) n) eqn:E; simpl.
  - apply String.eqb_eq in E. now subst n.
  - apply String.eqb_neq in E. intros [Heq | Hin]; [tauto |].
    now apply (IH Hnodup).
Qed.

(** ** The marker factory *)

Lemma createSymbol_name (name : string) (lineData : LineData) (idx : nat) (s : ECSymbol) :
  createSymbol name lineData idx = Some s -> symbol_name s = name.
Proof.
  unfold createSymbol.
  destruct (negb _ || _); [discriminate |].
  intros H. injection H as <-. reflexivity.
Qed.

Lemma createSymbol_None_iff (name : string) (lineData : LineData) (idx : nat) :
  createSymbol name lineData idx = None <->
  JS.truthy (getItemVisual lineData idx name) = false \/
  getItemVisual lineData idx name = JS.Str "none".
Proof.
  unfold createSymbol.
  destruct (JS.truthy (getItemVisual lineData idx name)) eqn:Ht; simpl.
  - destruct (JS.strictEq (getItemVisual lineData idx name) (JS.Str "none")) eqn:Es.
    + apply strictEq_eq in Es. tauto.
    + split; [discriminate |].
      intros [H | H]; [discriminate |].
      rewrite H in Es. discriminate.
  - tauto.
Qed.

(** ** Typed lookups through an in-place update *)

Lemma symbolOfName_update_same (n : string) (g : ECSymbol -> ECSymbol) (cs : list Child) :
  (forall s, symbol_name (g s) = symbol_name s) ->
  symbolOfName n (updateChildOfName n (onSymbol g) cs) = option_map g (symbolOfName n cs).
Proof.
  intros Hg. unfold symbolOfName.
  rewrite childOfName_update_same by now apply onSymbol_namePreserving.
  destruct (childOfName n cs) as [[l | t | s] |]; reflexivity.
Qed.

Lemma symbolOfName_update_other (n m : string) (f : Child -> Child) (cs : list Child) :
  namePreserving f ->
  String.eqb m n = false ->
  symbolOfName n (updateChildOfName m f cs) = symbolOfName n cs.
Proof.
  intros Hf Hnm. unfold symbolOfName. now rewrite childOfName_update_other.
Qed.

Lemma labelOfName_update_same (n : string) (g : InnerLineLabel -> InnerLineLabel)
    (cs : list Child) :
  labelOfName n (updateChildOfName n (onLabel g) cs) = option_map g (labelOfName n cs).
Proof.
  unfold labelOfName.
  rewrite childOfName_update_same by auto with children.
  destruct (childOfName n cs) as [[l | t | s] |]; reflexivity.
Qed.

Lemma labelOfName_update_other (n m : string) (f : Child -> Child) (cs : list Child) :
  namePreserving f ->
  String.eqb m n = false ->
  labelOfName n (updateChildOfName m f cs) = labelOfName n cs.
Proof.
  intros Hf Hnm. unfold labelOfName. now rewrite childOfName_update_other.
Qed.

Lemma lineOfName_update_same (n : string) (g : ECLinePath -> ECLinePath) (cs : list Child) :
  lineOfName n (updateChildOfName n (onLine g) cs) = option_map g (lineOfName n cs).
Proof.
  unfold lineOfName.
  rewrite childOfName_update_same by auto with children.
  destruct (childOfName n cs) as [[l | t | s] |]; reflexivity.
Qed.

Lemma lineOfName_update_other (n m : string) (f : Child -> Child) (cs : list Child) :
  namePreserving f ->
  String.eqb m n = false ->
  lineOfName n (updateChildOfName m f cs) = lineOfName n cs.
Proof.
  intros Hf Hnm. unfold lineOfName. now rewrite childOfName_update_other.
Qed.

(** ** What the layout pass writes on the two markers *)


Lemma beforeUpdate_markers (self : Line) (line : ECLinePath) (label : InnerLineLabel) :
  layoutReady self line label ->
  geometryDirty self line = true ->
  exists self',
    beforeUpdate self = Some self' /\
    symbolOfName "fromSymbol" (children self') =
      option_map (fromPose line (parent self)) (symbolOfName "fromSymbol" (children self)) /\
    symbolOfName "toSymbol" (children self') =
      option_map (toPose line (parent self)) (symbolOfName "toSymbol" (children self)).
Proof.
  intros (Hline & Hlabel & Hdist) Hdirty.
  unfold beforeUpdate. rewrite Hlabel, Hline.
  assert (Hd : negb (__dirty self) && negb (line_dirty line) = false).
  { unfold geometryDirty in Hdirty.
    destruct (__dirty self), (line_dirty line); simpl in *; congruence. }
  rewrite Hd. clear Hd Hdirty.
  destruct (symbolOfName "fromSymbol" (children self)) as [sf |] eqn:Hfrom;
    destruct (symbolOfName "toSymbol" (children self)) as [st |] eqn:Hto;
    destruct (label_ignore label) eqn:Hig; simpl;
    try (destruct (__labelDistance label) as [distance |]; [| now specialize (Hdist eq_refl)]);
    eexists; (split; [reflexivity |]); simpl;
    repeat first
      [ rewrite symbolOfName_update_same by reflexivity
      | rewrite symbolOfName_update_other by (auto with children) ];
    rewrite ?Hfrom, ?Hto; split; reflexivity.
Qed.

(** The layout pass leaves on a shown label the pose computed by
    [labelLayout], a user alignment taking precedence over the computed
    one. *)
Lemma beforeUpdate_label (self : Line) (line : ECLinePath) (label : InnerLineLabel)
    (distance : point) :
  lineOfName "line" (children self) = Some line ->
  labelOfName "label" (children self) = Some label ->
  label_ignore label = false ->
  __labelDistance label = Some distance ->
  geometryDirty self line = true ->
  let invScale := invScaleOf (parent self) in
  let toPos := pointAt (shape line) (percent (shape line)) in
  let lay := labelLayout (shape line) invScale (__position label) distance in
  exists self',
    beforeUpdate self = Some self' /\
    labelOfName "label" (children self') = Some (poseLabel toPos invScale lay label).
Proof.
  intros Hline Hlabel Hig Hdist Hdirty invScale toPos lay.
  unfold beforeUpdate. rewrite Hlabel, Hline, Hig, Hdist.
  assert (Hd : negb (__dirty self) && negb (line_dirty line) = false).
  { unfold geometryDirty in Hdirty.
    destruct (__dirty self), (line_dirty line); simpl in *; congruence. }
  rewrite Hd, andb_false_r.
  eexists. split; [reflexivity |].
  simpl children. rewrite labelOfName_update_same.
  destruct (isSome (symbolOfName "fromSymbol" (children self)));
    destruct (isSome (symbolOfName "toSymbol" (children self)));
    rewrite ?labelOfName_update_other by (auto with children);
    now rewrite Hlabel.
Qed.

(** ** Angles and scale compensation *)

Lemma atan2_right (y x : R) : 0 < x -> atan2 y x = atan (y / x).
Proof.
  intros H. unfold atan2. destruct (Rlt_dec 0 x); [reflexivity | contradiction].
Qed.

Lemma atan2_up (y x : R) : x = 0 -> 0 < y -> atan2 y x = PI / 2.
Proof.
  intros Hx Hy. unfold atan2.
  destruct (Rlt_dec 0 x); [lra |].
  destruct (Rlt_dec x 0); [lra |].
  destruct (Rlt_dec 0 y); [reflexivity | contradiction].
Qed.

Lemma walkScale_product :
  forall (n : Node) (acc : R),
    walkScale acc n = acc * productOfReciprocals (ancestorScales n).
Proof.
  fix IH 1.
  intros [scale [p |]] acc; simpl.
  - rewrite IH. destruct scale as [sc |]; simpl; unfold Rdiv; ring.
  - destruct scale as [sc |]; simpl; unfold Rdiv; ring.
Qed.

(** The walk of lines 334-341 computes the product of reciprocals. *)
Lemma invScaleOf_product (parentNode : option Node) :
  invScaleOf parentNode = productOfReciprocals (scalesAbove parentNode).
Proof.
  destruct parentNode as [p |]; simpl.
  - rewrite walkScale_product. ring.
  - reflexivity.
Qed.

(** ** The sample group *)

Lemma newCurve_constructed :
  _createLine (fun r => r) Sample.curveRecord 0 None Sample.zoomed = Some Sample.newCurve.
Proof. reflexivity. Qed.

Lemma newCurve_ready :
  layoutReady Sample.newCurve Sample.curvePath Sample.hiddenLabel.
Proof. repeat split. discriminate. Qed.

(** ** Marker poses *)

(** C1, as the code has it: in a layout pass over dirty geometry, a
    connector with a to-marker gets that marker placed at the curve point of
    the current draw progress, and rotated by -PI/2 minus the [atan2] of the
    tangent sampled at parameter 1, the end of the whole curve, whatever the
    draw progress is. *)
Theorem toMarker_pose (self : Line) (line : ECLinePath) (label : InnerLineLabel)
    (symbolTo : ECSymbol) :
  layoutReady self line label ->
  geometryDirty self line = true ->
  symbolOfName "toSymbol" (children self) = Some symbolTo ->
  exists self' symbolTo',
    beforeUpdate self = Some self' /\
    symbolOfName "toSymbol" (children self') = Some symbolTo' /\
    symbol_position symbolTo' = pointAt (shape line) (percent (shape line)) /\
    symbol_rotation symbolTo' =
      - PI / 2 - atan2 (snd (tangentAt (shape line) 1)) (fst (tangentAt (shape line) 1)).
Proof.
  intros Hready Hdirty Hto.
  destruct (beforeUpdate_markers self line label Hready Hdirty) as (self' & Hrun & _ & Hto').
  rewrite Hto in Hto'. simpl in Hto'.
  exists self', (toPose line (parent self) symbolTo).
  repeat split; assumption.
Qed.

Lemma toMarker_pose_witness :
  exists self' symbolTo',
    beforeUpdate Sample.newCurve = Some self' /\
    symbolOfName "toSymbol" (children self') = Some symbolTo' /\
    symbol_position symbolTo' =
      pointAt (shape Sample.curvePath) (percent (shape Sample.curvePath)) /\
    symbol_rotation symbolTo' =
      - PI / 2 - atan2 (snd (tangentAt (shape Sample.curvePath) 1))
                       (fst (tangentAt (shape Sample.curvePath) 1)).
Proof.
  apply (toMarker_pose Sample.newCurve Sample.curvePath Sample.hiddenLabel Sample.arrow).
  - exact newCurve_ready.
  - reflexivity.
  - reflexivity.
Defined.

(** C1, as stated, fails on the first frame of the sample curve: the draw
    progress is 0, where the tangent is horizontal, yet the to-marker is
    rotated by the vertical tangent of the curve's end. *)
Lemma toMarker_rotation_not_at_percent :
  exists self' symbolTo',
    _createLine (fun r => r) Sample.curveRecord 0 None Sample.zoomed = Some Sample.newCurve /\
    lineOfName "line" (children Sample.newCurve) = Some Sample.curvePath /\
    beforeUpdate Sample.newCurve = Some self' /\
    symbolOfName "toSymbol" (children self') = Some symbolTo' /\
    symbol_rotation symbolTo' = - PI /\
    symbol_rotation symbolTo' <>
      - PI / 2 - atan2 (snd (tangentAt (shape Sample.curvePath) (percent (shape Sample.curvePath))))
                       (fst (tangentAt (shape Sample.curvePath) (percent (shape Sample.curvePath)))).
Proof.
  destruct (beforeUpdate_markers _ _ _ newCurve_ready eq_refl) as (self' & Hrun & _ & Hto).
  exists self', (toPose Sample.curvePath Sample.zoomed Sample.arrow).
  assert (Hend : atan2 (snd (tangentAt Sample.curveShape 1))
                       (fst (tangentAt Sample.curveShape 1)) = PI / 2).
  { apply atan2_up; simpl; lra. }
  assert (Hstart : atan2 (snd (tangentAt Sample.curveShape 0))
                         (fst (tangentAt Sample.curveShape 0)) = 0).
  { rewrite atan2_right by (simpl; lra).
    replace (snd (tangentAt Sample.curveShape 0) / fst (tangentAt Sample.curveShape 0))
      with 0 by (simpl; lra).
    apply atan_0. }
  repeat split; try assumption; try reflexivity.
  - change (- PI / 2 - atan2 (snd (tangentAt Sample.curveShape 1))
                            (fst (tangentAt Sample.curveShape 1)) = - PI).
    rewrite Hend. lra.
  - change (- PI / 2 - atan2 (snd (tangentAt Sample.curveShape 1))
                            (fst (tangentAt Sample.curveShape 1)) <>
            - PI / 2 - atan2 (snd (tangentAt Sample.curveShape 0))
                             (fst (tangentAt Sample.curveShape 0))).
    rewrite Hend, Hstart. pose proof PI_RGT_0. lra.
Qed.



Lemma drawnCurve_reached :
  Line_setLinePoints (getItemLayout Sample.curveRecord 0) Sample.newCurve
    = Some Sample.drawnCurve.
Proof. reflexivity. Qed.






(** ** Label placement *)

Lemma normalize_scaled (v : point) (l : R) :
  0 < l ->
  fst v * fst v + snd v * snd v = l * l ->
  vector.normalize v = (fst v / l, snd v / l).
Proof.
  intros Hl Hv. unfold vector.normalize, vector.len.
  rewrite (sqrt_lem_1 _ l) by (try rewrite Hv; nra).
  destruct (Req_dec_T l 0); [lra | reflexivity].
Qed.

Lemma endTextAlign_cases (d0 : R) :
  (d0 > 0.8 -> endTextAlign d0 = "left"%string) /\
  (d0 < -0.8 -> endTextAlign d0 = "right"%string) /\
  (-0.8 <= d0 <= 0.8 -> endTextAlign d0 = "center"%string).
Proof.
  unfold endTextAlign.
  destruct (Rgt_dec d0 0.8), (Rlt_dec d0 (-0.8)); repeat split; intros; try reflexivity; lra.
Qed.

Lemma endTextVerticalAlign_cases (d1 : R) :
  (d1 > 0.8 -> endTextVerticalAlign d1 = "top"%string) /\
  (d1 < -0.8 -> endTextVerticalAlign d1 = "bottom"%string) /\
  (-0.8 <= d1 <= 0.8 -> endTextVerticalAlign d1 = "middle"%string).
Proof.
  unfold endTextVerticalAlign.
  destruct (Rgt_dec d1 0.8), (Rlt_dec d1 (-0.8)); repeat split; intros; try reflexivity; lra.
Qed.

(** C4: for the policy 'end', with d the normalized chord from the curve's
    start to the point of the current draw progress, the computed horizontal
    alignment is 'left' when d's x-component exceeds 0.8, 'right' when it is
    below -0.8 and 'center' otherwise, so 'left', 'right' and 'center' at
    0.9, -0.9 and 0; the computed vertical alignment is 'top' above 0.8,
    'bottom' below -0.8 and 'middle' otherwise, on d's y-component. *)
Theorem end_alignment (s : Shape) (invScale : R) (distance : point) :
  let d := vector.normalize (vector.sub (pointAt s (percent s)) (pointAt s 0)) in
  let lay := labelLayout s invScale (JS.Str "end") distance in
  ((fst d > 0.8 -> textAlign lay = JS.Str "left") /\
   (fst d < -0.8 -> textAlign lay = JS.Str "right") /\
   (-0.8 <= fst d <= 0.8 -> textAlign lay = JS.Str "center")) /\
  ((fst d = 0.9 -> textAlign lay = JS.Str "left") /\
   (fst d = -0.9 -> textAlign lay = JS.Str "right") /\
   (fst d = 0 -> textAlign lay = JS.Str "center")) /\
  ((snd d > 0.8 -> textVerticalAlign lay = JS.Str "top") /\
   (snd d < -0.8 -> textVerticalAlign lay = JS.Str "bottom") /\
   (-0.8 <= snd d <= 0.8 -> textVerticalAlign lay = JS.Str "middle")).
Proof.
  intros d lay.
  assert (Ha : textAlign lay = JS.Str (endTextAlign (fst d))) by reflexivity.
  assert (Hv : textVerticalAlign lay = JS.Str (endTextVerticalAlign (snd d))) by reflexivity.
  destruct (endTextAlign_cases (fst d)) as (Hl & Hr & Hc).
  destruct (endTextVerticalAlign_cases (snd d)) as (Ht & Hb & Hm).
  rewrite Ha, Hv.
  repeat split; intros H; f_equal;
    first [ apply Hl | apply Hr | apply Hc | apply Ht | apply Hb | apply Hm ]; lra.
Qed.

Lemma straight_chord :
  vector.normalize
    (vector.sub (pointAt SampleLabel.straight (percent SampleLabel.straight))
                (pointAt SampleLabel.straight 0)) = (1, 0).
Proof.
  rewrite (normalize_scaled _ 10) by (simpl; lra).
  simpl. f_equal; lra.
Qed.

Lemma leftward_chord :
  vector.normalize
    (vector.sub (pointAt SampleLabel.leftward (percent SampleLabel.leftward))
                (pointAt SampleLabel.leftward 0)) = (-1, 0).
Proof.
  rewrite (normalize_scaled _ 10) by (simpl; lra).
  simpl. f_equal; lra.
Qed.

Lemma downward_chord :
  vector.normalize
    (vector.sub (pointAt SampleLabel.downward (percent SampleLabel.downward))
                (pointAt SampleLabel.downward 0)) = (0, 1).
Proof.
  rewrite (normalize_scaled _ 10) by (simpl; lra).
  simpl. f_equal; lra.
Qed.

Lemma end_alignment_witness :
  (textAlign (labelLayout SampleLabel.straight 1 (JS.Str "end") (5, 5)) = JS.Str "left" /\
   textVerticalAlign (labelLayout SampleLabel.straight 1 (JS.Str "end") (5, 5))
     = JS.Str "middle") /\
  textAlign (labelLayout SampleLabel.leftward 1 (JS.Str "end") (5, 5)) = JS.Str "right" /\
  (textAlign (labelLayout SampleLabel.downward 1 (JS.Str "end") (5, 5)) = JS.Str "center" /\
   textVerticalAlign (labelLayout SampleLabel.downward 1 (JS.Str "end") (5, 5))
     = JS.Str "top").
Proof.
  pose proof (end_alignment SampleLabel.straight 1 (5, 5)) as Hs.
  pose proof (end_alignment SampleLabel.leftward 1 (5, 5)) as Hl.
  pose proof (end_alignment SampleLabel.downward 1 (5, 5)) as Hd.
  cbv zeta in Hs, Hl, Hd.
  rewrite straight_chord in Hs. rewrite leftward_chord in Hl. rewrite downward_chord in Hd.
  destruct Hs as ((Hs1 & _ & _) & _ & (_ & _ & Hs2)).
  destruct Hl as ((_ & Hl1 & _) & _).
  destruct Hd as ((_ & _ & Hd1) & _ & (Hd2 & _ & _)).
  repeat split.
  - apply Hs1. simpl. lra.
  - apply Hs2. simpl. lra.
  - apply Hl1. simpl. lra.
  - apply Hd1. simpl. lra.
  - apply Hd2. simpl. lra.
Defined.

Lemma startTextVerticalAlign_cases (d1 : R) :
  (d1 > 0.8 -> startTextVerticalAlign d1 = "bottom"%string) /\
  (d1 < -0.8 -> startTextVerticalAlign d1 = "top"%string) /\
  (-0.8 <= d1 <= 0.8 -> startTextVerticalAlign d1 = "middle"%string).
Proof.
  unfold startTextVerticalAlign.
  destruct (Rgt_dec d1 0.8), (Rlt_dec d1 (-0.8)); repeat split; intros; try reflexivity; lra.
Qed.

(** C2, as the code has it: for a policy with a [case] in the layout pass,
    a name containing "Top", and also the policy 'middle', gives the
    vertical offset -distanceY and the alignment 'bottom'; a name containing
    "Bottom" gives +distanceY and 'top'; every other policy gives the offset
    0, and the alignment 'middle' unless the policy is 'start' or 'end'.
    Those two take the alignment from the y-component of d, the normalized
    chord from the curve's start to the point of the current draw progress:
    'end' is aligned 'top' above 0.8, 'bottom' below -0.8 and 'middle'
    otherwise; 'start' is aligned 'bottom' above 0.8, 'top' below -0.8 and
    'middle' otherwise. *)
Theorem vertical_offset_and_alignment (s : Shape) (invScale : R) (distance : point)
    (position : string) :
  In position policies ->
  let distanceY := snd distance * invScale in
  let d := vector.normalize (vector.sub (pointAt s (percent s)) (pointAt s 0)) in
  let lay := labelLayout s invScale (JS.Str position) distance in
  (nameContains "Top" position = true \/ position = "middle"%string ->
   dy lay = - distanceY /\ textVerticalAlign lay = JS.Str "bottom") /\
  (nameContains "Bottom" position = true ->
   dy lay = distanceY /\ textVerticalAlign lay = JS.Str "top") /\
  (nameContains "Top" position = false ->
   nameContains "Bottom" position = false ->
   position <> "middle"%string ->
   dy lay = 0 /\
   (position <> "start"%string -> position <> "end"%string ->
    textVerticalAlign lay = JS.Str "middle")) /\
  (position = "end"%string ->
   (snd d > 0.8 -> textVerticalAlign lay = JS.Str "top") /\
   (snd d < -0.8 -> textVerticalAlign lay = JS.Str "bottom") /\
   (-0.8 <= snd d <= 0.8 -> textVerticalAlign lay = JS.Str "middle")) /\
  (position = "start"%string ->
   (snd d > 0.8 -> textVerticalAlign lay = JS.Str "bottom") /\
   (snd d < -0.8 -> textVerticalAlign lay = JS.Str "top") /\
   (-0.8 <= snd d <= 0.8 -> textVerticalAlign lay = JS.Str "middle")).
Proof.
  intros Hin distanceY d lay.
  assert (Hend : position = "end"%string ->
                 textVerticalAlign lay = JS.Str (endTextVerticalAlign (snd d)))
    by (intros Hp; subst lay; rewrite Hp; reflexivity).
  assert (Hstart : position = "start"%string ->
                   textVerticalAlign lay = JS.Str (startTextVerticalAlign (snd d)))
    by (intros Hp; subst lay; rewrite Hp; reflexivity).
  assert (Hfirst :
    (nameContains "Top" position = true \/ position = "middle"%string ->
     dy lay = - distanceY /\ textVerticalAlign lay = JS.Str "bottom") /\
    (nameContains "Bottom" position = true ->
     dy lay = distanceY /\ textVerticalAlign lay = JS.Str "top") /\
    (nameContains "Top" position = false ->
     nameContains "Bottom" position = false ->
     position <> "middle"%string ->
     dy lay = 0 /\
     (position <> "start"%string -> position <> "end"%string ->
      textVerticalAlign lay = JS.Str "middle"))).
  { clear Hend Hstart. subst distanceY lay. clear d.
    unfold policies in Hin. simpl in Hin.
    repeat (destruct Hin as [<- | Hin]); try contradiction;
      (split; [| split]);
      try (intros [Ht | Hm]; try discriminate Ht; try discriminate Hm);
      try (intros Ht; discriminate Ht);
      try (intros _ Hb; discriminate Hb);
      try (intros _ _ Hm; now contradiction Hm);
      try (intros _ _ _);
      split; try reflexivity;
      intros Hs He; try reflexivity; congruence. }
  destruct Hfirst as (Htop & Hbottom & Hplain).
  split; [exact Htop |]. split; [exact Hbottom |]. split; [exact Hplain |].
  split.
  - intros Hp. rewrite (Hend Hp).
    destruct (endTextVerticalAlign_cases (snd d)) as (Ht & Hb & Hm).
    repeat split; intros H; f_equal; auto.
  - intros Hp. rewrite (Hstart Hp).
    destruct (startTextVerticalAlign_cases (snd d)) as (Hb & Ht & Hm).
    repeat split; intros H; f_equal; auto.
Qed.

Lemma vertical_offset_and_alignment_witness :
  (let lay := labelLayout SampleLabel.straight 1 (JS.Str "middle") (5, 5) in
   dy lay = - (5 * 1) /\ textVerticalAlign lay = JS.Str "bottom") /\
  (let lay := labelLayout SampleLabel.downward 1 (JS.Str "start") (5, 5) in
   dy lay = 0 /\ textVerticalAlign lay = JS.Str "bottom") /\
  (let lay := labelLayout SampleLabel.downward 1 (JS.Str "end") (5, 5) in
   dy lay = 0 /\ textVerticalAlign lay = JS.Str "top").
Proof.
  assert (Hmiddle : In "middle"%string policies) by (simpl; tauto).
  assert (Hstart : In "start"%string policies) by (simpl; tauto).
  assert (Hend : In "end"%string policies) by (simpl; tauto).
  pose proof (vertical_offset_and_alignment SampleLabel.straight 1 (5, 5) "middle" Hmiddle)
    as (Hm & _).
  pose proof (vertical_offset_and_alignment SampleLabel.downward 1 (5, 5) "start" Hstart)
    as (_ & _ & Hs0 & _ & Hs).
  pose proof (vertical_offset_and_alignment SampleLabel.downward 1 (5, 5) "end" Hend)
    as (_ & _ & He0 & He & _).
  rewrite downward_chord in Hs, He.
  split; [| split].
  - apply Hm. right. reflexivity.
  - split.
    + apply Hs0; [reflexivity | reflexivity | discriminate].
    + apply (Hs eq_refl). simpl. lra.
  - split.
    + apply He0; [reflexivity | reflexivity | discriminate].
    + apply (He eq_refl). simpl. lra.
Defined.

(** C2, as stated, fails for the policy 'middle' in the specification's own
    end-to-end scenario: the name contains neither "Top" nor "Bottom", yet
    the offset is -distanceY and the alignment is 'bottom'. *)
Lemma middle_is_placed_like_top :
  let lay := labelLayout SampleLabel.straight 1 (JS.Str "middle") (5, 5) in
  In "middle"%string policies /\
  nameContains "Top" "middle" = false /\
  nameContains "Bottom" "middle" = false /\
  dy lay = -5 /\
  textVerticalAlign lay = JS.Str "bottom" /\
  ~ (dy lay = 0 /\ textVerticalAlign lay = JS.Str "middle").
Proof.
  simpl. repeat split.
  - tauto.
  - lra.
  - intros [H _]. lra.
Qed.

(** ** The cached shape kinds *)

Lemma children_setKey (self : Line) (key : string) (v : JS.value) :
  children (setKey self key v) = children self.
Proof.
  unfold setKey.
  destruct (String.eqb key "_fromSymbolType"); [reflexivity |].
  destruct (String.eqb key "_toSymbolType"); reflexivity.
Qed.

Lemma parent_setKey (self : Line) (key : string) (v : JS.value) :
  parent (setKey self key v) = parent self.
Proof.
  unfold setKey.
  destruct (String.eqb key "_fromSymbolType"); [reflexivity |].
  destruct (String.eqb key "_toSymbolType"); reflexivity.
Qed.

Lemma getKey_setKey (self : Line) (c c' : string) (v : JS.value) :
  In c SYMBOL_CATEGORIES ->
  In c' SYMBOL_CATEGORIES ->
  getKey (setKey self (makeSymbolTypeKey c) v) (makeSymbolTypeKey c') =
  if String.eqb c c' then v else getKey self (makeSymbolTypeKey c').
Proof.
  intros [<- | [<- | []]] [<- | [<- | []]]; reflexivity.
Qed.

(** ** One category of the update loop *)

Lemma updateCategory_changed (lineData : LineData) (idx : nat) (self : Line) (c : string) :
  symbolChanged lineData idx self c = true ->
  children (updateCategory lineData idx self c) =
  add (option_map ChSymbol (createSymbol c lineData idx))
      (removeChildOfName c (children self)).
Proof.
  unfold symbolChanged, updateCategory. intros ->.
  now rewrite children_setKey.
Qed.

Lemma updateCategory_unchanged (lineData : LineData) (idx : nat) (self : Line) (c : string) :
  symbolChanged lineData idx self c = false ->
  children (updateCategory lineData idx self c) = children self.
Proof.
  unfold symbolChanged, updateCategory. intros ->.
  now rewrite children_setKey.
Qed.

Lemma updateCategory_parent (lineData : LineData) (idx : nat) (self : Line) (c : string) :
  parent (updateCategory lineData idx self c) = parent self.
Proof.
  unfold updateCategory. rewrite parent_setKey.
  now destruct (negb _).
Qed.

Lemma updateCategory_key (lineData : LineData) (idx : nat) (self : Line) (c c' : string) :
  In c SYMBOL_CATEGORIES ->
  In c' SYMBOL_CATEGORIES ->
  getKey (updateCategory lineData idx self c) (makeSymbolTypeKey c') =
  if String.eqb c c' then getItemVisual lineData idx c
  else getKey self (makeSymbolTypeKey c').
Proof.
  intros Hc Hc'. unfold updateCategory.
  rewrite getKey_setKey by assumption.
  now destruct (negb _).
Qed.

Lemma childOfName_created (n c : string) (lineData : LineData) (idx : nat) (cs : list Child) :
  childOfName n (add (option_map ChSymbol (createSymbol c lineData idx)) cs) =
  match childOfName n cs with
  | Some x => Some x
  | None =>
      if String.eqb c n then option_map ChSymbol (createSymbol c lineData idx) else None
  end.
Proof.
  rewrite childOfName_add.
  destruct (childOfName n cs); [reflexivity |].
  destruct (createSymbol c lineData idx) as [s |] eqn:Hs; simpl.
  - now rewrite (createSymbol_name _ _ _ _ Hs).
  - now destruct (String.eqb c n).
Qed.

Lemma childOfName_updateCategory_other (lineData : LineData) (idx : nat) (self : Line)
    (c n : string) :
  String.eqb c n = false ->
  childOfName n (children (updateCategory lineData idx self c)) =
  childOfName n (children self).
Proof.
  intros Hcn.
  destruct (symbolChanged lineData idx self c) eqn:Hch.
  - rewrite updateCategory_changed by assumption.
    rewrite childOfName_created, Hcn, childOfName_remove_other by assumption.
    now destruct (childOfName n (children self)).
  - now rewrite updateCategory_unchanged.
Qed.

Lemma symbolOfName_updateCategory (lineData : LineData) (idx : nat) (self : Line) (c : string) :
  NoDup (map child_name (children self)) ->
  symbolOfName c (children (updateCategory lineData idx self c)) =
  if symbolChanged lineData idx self c then createSymbol c lineData idx
  else symbolOfName c (children self).
Proof.
  intros Hnd. unfold symbolOfName.
  destruct (symbolChanged lineData idx self c) eqn:Hch.
  - rewrite updateCategory_changed by assumption.
    rewrite childOfName_created, childOfName_remove_same, String.eqb_refl by assumption.
    now destruct (createSymbol c lineData idx).
  - now rewrite updateCategory_unchanged.
Qed.

Lemma NoDup_add_created (c : string) (lineData : LineData) (idx : nat) (cs : list Child) :
  NoDup (map child_name cs) ->
  ~ In c (map child_name cs) ->
  NoDup (map child_name (add (option_map ChSymbol (createSymbol c lineData idx)) cs)).
Proof.
  intros Hnd Hnotin.
  destruct (createSymbol c lineData idx) as [s |] eqn:Hs; simpl; [| assumption].
  rewrite map_app. simpl. rewrite (createSymbol_name _ _ _ _ Hs).
  apply NoDup_app; [assumption | repeat constructor; simpl; tauto |].
  intros x Hx [<- | []]. contradiction.
Qed.

Lemma NoDup_updateCategory (lineData : LineData) (idx : nat) (self : Line) (c : string) :
  NoDup (map child_name (children self)) ->
  NoDup (map child_name (children (updateCategory lineData idx self c))).
Proof.
  intros Hnd.
  destruct (symbolChanged lineData idx self c) eqn:Hch.
  - rewrite updateCategory_changed by assumption.
    apply NoDup_add_created.
    + now apply NoDup_remove.
    + now apply not_In_remove_same.
  - now rewrite updateCategory_unchanged.
Qed.

(** ** The style pass *)

Section StylePass.

Variable round : R -> R.
Variables (lineData : LineData) (idx : nat) (seriesScope : option LineDrawSeriesScope).

(** [_updateCommonStl] returns on a group that has its curve and label;
    it restyles the label, repaints the markers in place and touches
    nothing else. *)
Lemma updateCommonStl_effect (self : Line) (line : ECLinePath) (label : InnerLineLabel) :
  lineOfName "line" (children self) = Some line ->
  labelOfName "label" (children self) = Some label ->
  exists self',
    _updateCommonStl round lineData idx seriesScope self = Some self' /\
    labelOfName "label" (children self') =
      Some (styleLabel round lineData idx
              (resolveLabelModel lineData idx seriesScope)
              (resolveHoverLabelModel lineData idx seriesScope)
              (getItemVisual lineData idx "color") label) /\
    (exists line',
        lineOfName "line" (children self') = Some line' /\ shape line' = shape line) /\
    (forall c, In c SYMBOL_CATEGORIES ->
       symbolOfName c (children self') =
       option_map (repaint lineData idx seriesScope) (symbolOfName c (children self))) /\
    (forall key, getKey self' key = getKey self key) /\
    parent self' = parent self /\
    map child_name (children self') = map child_name (children self).
Proof.
  intros Hline Hlabel.
  unfold _updateCommonStl. rewrite Hline. simpl fold_left.
  rewrite !labelOfName_update_other by (auto using paintSymbol_namePreserving with children).
  rewrite Hlabel.
  eexists. split; [reflexivity |].
  simpl children.
  split; [| split; [| split; [| split; [| split]]]].
  - rewrite labelOfName_update_same.
    rewrite !labelOfName_update_other by (auto using paintSymbol_namePreserving with children).
    now rewrite Hlabel.
  - rewrite !lineOfName_update_other by (auto using paintSymbol_namePreserving with children).
    rewrite lineOfName_update_same, Hline. simpl.
    eexists. split; reflexivity.
  - intros c [<- | [<- | []]].
    + rewrite symbolOfName_update_other by (auto with children).
      rewrite symbolOfName_update_other by (auto using paintSymbol_namePreserving).
      rewrite symbolOfName_update_same by reflexivity.
      now rewrite symbolOfName_update_other by (auto with children).
    + rewrite symbolOfName_update_other by (auto with children).
      rewrite symbolOfName_update_same by reflexivity.
      rewrite symbolOfName_update_other by (auto using paintSymbol_namePreserving).
      now rewrite symbolOfName_update_other by (auto with children).
  - reflexivity.
  - reflexivity.
  - now rewrite !map_name_update by (auto using paintSymbol_namePreserving with children).
Qed.

(** [updateData] returns on a well-formed group whose record has its two
    endpoints, and tells, for each category, what marker it leaves. *)
Lemma updateData_effect (self : Line) :
  wellFormed self ->
  (2 <= List.length (getItemLayout lineData idx))%nat ->
  exists self',
    updateData round lineData idx seriesScope self = Some self' /\
    wellFormed self' /\
    parent self' = parent self /\
    (exists label,
        labelOfName "label" (children self) = Some label /\
        labelOfName "label" (children self') =
          Some (styleLabel round lineData idx
                  (resolveLabelModel lineData idx seriesScope)
                  (resolveHoverLabelModel lineData idx seriesScope)
                  (getItemVisual lineData idx "color") label)) /\
    (forall c, In c SYMBOL_CATEGORIES ->
       getKey self' (makeSymbolTypeKey c) = getItemVisual lineData idx c /\
       symbolOfName c (children self') =
       option_map (repaint lineData idx seriesScope)
         (if symbolChanged lineData idx self c then createSymbol c lineData idx
          else symbolOfName c (children self))).
Proof.
  intros (Hnd & Hline & Hlabel) Hlen.
  unfold updateData.
  destruct (getItemLayout lineData idx) as [| p0 [| p1 rest]] eqn:Hlayout;
    simpl in Hlen; try (exfalso; inversion Hlen; fail).
  { exfalso. inversion Hlen as [| n Hle]. inversion Hle. }
  cbv beta iota delta [setLinePoints]. cbv zeta.
  set (target := mkShape _ _ _ _ _ _ _).
  cbv beta iota.
  set (self0 := setChildren self _).
  set (self1 := updateCategory lineData idx self0 "fromSymbol").
  simpl fold_left. fold self1.
  set (self2 := updateCategory lineData idx self1 "toSymbol").
  assert (Hnd0 : NoDup (map child_name (children self0))).
  { subst self0. simpl. now rewrite map_name_update by auto with children. }
  assert (Hnd1 : NoDup (map child_name (children self1))) by now apply NoDup_updateCategory.
  assert (Hnd2 : NoDup (map child_name (children self2))) by now apply NoDup_updateCategory.
  assert (Hother : forall n,
             String.eqb "fromSymbol" n = false -> String.eqb "toSymbol" n = false ->
             childOfName n (children self2) = childOfName n (children self0)).
  { intros n Hf Ht. subst self2 self1.
    now rewrite !childOfName_updateCategory_other. }
  destruct (lineOfName "line" (children self)) as [line |] eqn:Hl; [| discriminate].
  destruct (labelOfName "label" (children self)) as [label |] eqn:Hb; [| discriminate].
  assert (Hline2 : lineOfName "line" (children self2) = Some (updateProps line target)).
  { unfold lineOfName. rewrite Hother by reflexivity.
    fold (lineOfName "line" (children self0)). subst self0. simpl.
    now rewrite lineOfName_update_same, Hl. }
  assert (Hlabel2 : labelOfName "label" (children self2) = Some label).
  { unfold labelOfName. rewrite Hother by reflexivity.
    fold (labelOfName "label" (children self0)). subst self0. simpl.
    now rewrite labelOfName_update_other by auto with children. }
  destruct (updateCommonStl_effect self2 _ _ Hline2 Hlabel2)
    as (self' & Hrun & Hlab' & (line' & Hline' & _) & Hsym' & Hkey' & Hpar' & Hnames').
  exists self'. split; [exact Hrun |].
  split; [| split; [| split]].
  - repeat split.
    + now rewrite Hnames'.
    + now rewrite Hline'.
    + now rewrite Hlab'.
  - rewrite Hpar'. subst self2 self1. now rewrite !updateCategory_parent.
  - exists label. split; [reflexivity | exact Hlab'].
  - intros c Hc. rewrite Hkey', (Hsym' c Hc).
    assert (Hsym0 : forall n, String.eqb "line" n = false ->
               symbolOfName n (children self0) = symbolOfName n (children self)).
    { intros n Hn. subst self0. simpl.
      now rewrite symbolOfName_update_other by auto with children. }
    destruct Hc as [<- | [<- | []]].
    + split.
      * subst self2. rewrite updateCategory_key by (simpl; tauto). simpl.
        subst self1. now rewrite updateCategory_key by (simpl; tauto).
      * f_equal.
        assert (Hkeep : symbolOfName "fromSymbol" (children self2)
                        = symbolOfName "fromSymbol" (children self1)).
        { unfold symbolOfName. subst self2.
          now rewrite childOfName_updateCategory_other by reflexivity. }
        rewrite Hkeep. subst self1.
        rewrite symbolOfName_updateCategory by assumption.
        now rewrite Hsym0 by reflexivity.
    + split.
      * subst self2. now rewrite updateCategory_key by (simpl; tauto).
      * f_equal. subst self2.
        rewrite symbolOfName_updateCategory by assumption.
        assert (Hch : symbolChanged lineData idx self1 "toSymbol"
                      = symbolChanged lineData idx self "toSymbol").
        { unfold symbolChanged. subst self1.
          now rewrite updateCategory_key by (simpl; tauto). }
        assert (Hkeep : symbolOfName "toSymbol" (children self1)
                        = symbolOfName "toSymbol" (children self)).
        { rewrite <- Hsym0 by reflexivity. unfold symbolOfName. subst self1.
          now rewrite childOfName_updateCategory_other by reflexivity. }
        now rewrite Hch, Hkeep.
Qed.

End StylePass.

(** ** Construction *)

Section Construction.

Variable round : R -> R.
Variables (lineData : LineData) (idx : nat) (seriesScope : option LineDrawSeriesScope).
Variable parentNode : option Node.

Lemma createCategory_children (self : Line) (c : string) :
  children (createCategory lineData idx self c) =
  add (option_map ChSymbol (createSymbol c lineData idx)) (children self).
Proof. unfold createCategory. now rewrite children_setKey. Qed.

Lemma createCategory_parent (self : Line) (c : string) :
  parent (createCategory lineData idx self c) = parent self.
Proof. unfold createCategory. now rewrite parent_setKey. Qed.

Lemma createCategory_key (self : Line) (c c' : string) :
  In c SYMBOL_CATEGORIES ->
  In c' SYMBOL_CATEGORIES ->
  getKey (createCategory lineData idx self c) (makeSymbolTypeKey c') =
  if String.eqb c c' then getItemVisual lineData idx c
  else getKey self (makeSymbolTypeKey c').
Proof.
  intros Hc Hc'. unfold createCategory. now rewrite getKey_setKey.
Qed.

(** The constructor returns on a record that has its two endpoints, and
    leaves a well-formed group: the curve with the record's geometry at
    draw progress 0, the label, and the markers the factory built. *)
Lemma createLine_effect :
  (2 <= List.length (getItemLayout lineData idx))%nat ->
  exists self s line,
    _createLine round lineData idx seriesScope parentNode = Some self /\
    wellFormed self /\
    parent self = parentNode /\
    setLinePoints emptyShape (getItemLayout lineData idx) = Some s /\
    lineOfName "line" (children self) = Some line /\
    shape line = withPercent s 0 /\
    labelOfName "label" (children self) =
      Some (styleLabel round lineData idx
              (resolveLabelModel lineData idx seriesScope)
              (resolveHoverLabelModel lineData idx seriesScope)
              (getItemVisual lineData idx "color") newLabel) /\
    (forall c, In c SYMBOL_CATEGORIES ->
       getKey self (makeSymbolTypeKey c) = getItemVisual lineData idx c /\
       symbolOfName c (children self) =
       option_map (repaint lineData idx seriesScope) (createSymbol c lineData idx)).
Proof.
  intros Hlen. unfold _createLine, createLine.
  destruct (setLinePoints emptyShape (getItemLayout lineData idx)) as [s |] eqn:Hs.
  2: { exfalso. unfold setLinePoints in Hs.
       destruct (getItemLayout lineData idx) as [| p0 [| p1 rest]];
         simpl in Hlen; try discriminate Hs.
       - inversion Hlen.
       - inversion Hlen as [| n Hle]. inversion Hle. }
  cbv zeta. simpl add. simpl fold_left.
  set (line0 := initProps _ 1).
  set (self0 := setChildren _ [ChLine line0; ChLabel newLabel]).
  set (self1 := createCategory lineData idx self0 "fromSymbol").
  set (self2 := createCategory lineData idx self1 "toSymbol").
  assert (Hch2 : children self2 =
                 add (option_map ChSymbol (createSymbol "toSymbol" lineData idx))
                   (add (option_map ChSymbol (createSymbol "fromSymbol" lineData idx))
                        [ChLine line0; ChLabel newLabel])).
  { subst self2 self1. now rewrite !createCategory_children. }
  assert (Hnd2 : NoDup (map child_name (children self2))).
  { rewrite Hch2. apply NoDup_add_created.
    - apply NoDup_add_created.
      + simpl. repeat constructor; simpl; intuition discriminate.
      + simpl. intuition discriminate.
    - destruct (createSymbol "fromSymbol" lineData idx) as [sf |] eqn:Hf; simpl.
      + rewrite (createSymbol_name _ _ _ _ Hf). intuition discriminate.
      + intuition discriminate. }
  assert (Hline2 : lineOfName "line" (children self2) = Some line0).
  { rewrite Hch2. unfold lineOfName. now rewrite !childOfName_created. }
  assert (Hlabel2 : labelOfName "label" (children self2) = Some newLabel).
  { rewrite Hch2. unfold labelOfName. now rewrite !childOfName_created. }
  destruct (updateCommonStl_effect round lineData idx seriesScope self2 _ _ Hline2 Hlabel2)
    as (self' & Hrun & Hlab' & (line' & Hline' & Hshape') & Hsym' & Hkey' & Hpar' & Hnames').
  exists self', s, line'.
  split; [exact Hrun |].
  split; [| split; [| split; [| split; [| split; [| split]]]]].
  - repeat split.
    + now rewrite Hnames'.
    + now rewrite Hline'.
    + now rewrite Hlab'.
  - rewrite Hpar'. subst self2 self1. now rewrite !createCategory_parent.
  - reflexivity.
  - exact Hline'.
  - rewrite Hshape'. reflexivity.
  - exact Hlab'.
  - intros c Hc. rewrite Hkey', (Hsym' c Hc). split.
    + subst self2 self1.
      destruct Hc as [<- | [<- | []]];
        rewrite !createCategory_key by (simpl; tauto); reflexivity.
    + f_equal. rewrite Hch2. unfold symbolOfName.
      rewrite !childOfName_created. simpl childOfName.
      destruct Hc as [<- | [<- | []]]; simpl.
      * now destruct (createSymbol "fromSymbol" lineData idx).
      * now destruct (createSymbol "toSymbol" lineData idx).
Qed.

End Construction.

(** ** Marker rebuild *)

Lemma symbolChanged_true (lineData : LineData) (idx : nat) (self : Line) (c : string) :
  getKey self (makeSymbolTypeKey c) <> getItemVisual lineData idx c ->
  symbolChanged lineData idx self c = true.
Proof.
  intros Hne. unfold symbolChanged.
  destruct (JS.strictEq _ _) eqn:E; [| reflexivity].
  apply strictEq_eq in E. contradiction.
Qed.

Lemma symbolChanged_false (lineData : LineData) (idx : nat) (self : Line) (c : string) :
  getKey self (makeSymbolTypeKey c) = getItemVisual lineData idx c ->
  symbolChanged lineData idx self c = false.
Proof.
  intros He. unfold symbolChanged. rewrite He, strictEq_refl. reflexivity.
Qed.

Lemma newCurve_wellFormed : wellFormed Sample.newCurve.
Proof.
  repeat split. simpl. repeat constructor; simpl; intuition discriminate.
Qed.

(** C5: on a data update, for each marker category: when the shape kind
    recorded by the previous update differs from the kind on the new record,
    the old marker child (if any) is removed and what the factory builds (if
    anything) is added, so the category's marker after the update is the
    factory's; when the kind is unchanged the children are left as they are
    by the loop, and the category's marker after the update is the one that
    was there, only repainted. *)
Theorem marker_rebuilt_iff_kind_changed (round : R -> R)
    (lineData : LineData) (idx : nat) (seriesScope : option LineDrawSeriesScope)
    (self : Line) (symbolCategory : string) :
  wellFormed self ->
  (2 <= List.length (getItemLayout lineData idx))%nat ->
  In symbolCategory SYMBOL_CATEGORIES ->
  let recorded := getKey self (makeSymbolTypeKey symbolCategory) in
  let kind := getItemVisual lineData idx symbolCategory in
  (recorded <> kind ->
   children (updateCategory lineData idx self symbolCategory) =
     add (option_map ChSymbol (createSymbol symbolCategory lineData idx))
         (removeChildOfName symbolCategory (children self)) /\
   childOfName symbolCategory (removeChildOfName symbolCategory (children self)) = None) /\
  (recorded = kind ->
   children (updateCategory lineData idx self symbolCategory) = children self) /\
  exists self',
    updateData round lineData idx seriesScope self = Some self' /\
    (recorded <> kind ->
     symbolOfName symbolCategory (children self') =
       option_map (repaint lineData idx seriesScope)
                  (createSymbol symbolCategory lineData idx)) /\
    (recorded = kind ->
     symbolOfName symbolCategory (children self') =
       option_map (repaint lineData idx seriesScope)
                  (symbolOfName symbolCategory (children self))).
Proof.
  intros Hwf Hlen Hc recorded kind.
  split; [| split].
  - intros Hne. split.
    + apply updateCategory_changed. now apply symbolChanged_true.
    + apply childOfName_remove_same. apply Hwf.
  - intros He. apply updateCategory_unchanged. now apply symbolChanged_false.
  - destruct (updateData_effect round lineData idx seriesScope self Hwf Hlen)
      as (self' & Hrun & _ & _ & _ & Hsym).
    exists self'. split; [exact Hrun |].
    destruct (Hsym symbolCategory Hc) as (_ & Hlookup).
    split.
    + intros Hne. now rewrite Hlookup, symbolChanged_true.
    + intros He. now rewrite Hlookup, symbolChanged_false.
Qed.

Lemma marker_rebuilt_iff_kind_changed_witness :
  let lineData := Sample.circleRecord in
  let self := Sample.newCurve in
  let recorded := getKey self (makeSymbolTypeKey "toSymbol") in
  let kind := getItemVisual lineData 0 "toSymbol" in
  (recorded <> kind ->
   children (updateCategory lineData 0 self "toSymbol") =
     add (option_map ChSymbol (createSymbol "toSymbol" lineData 0))
         (removeChildOfName "toSymbol" (children self)) /\
   childOfName "toSymbol" (removeChildOfName "toSymbol" (children self)) = None) /\
  (recorded = kind ->
   children (updateCategory lineData 0 self "toSymbol") = children self) /\
  exists self',
    updateData (fun r => r) lineData 0 None self = Some self' /\
    (recorded <> kind ->
     symbolOfName "toSymbol" (children self') =
       option_map (repaint lineData 0 None) (createSymbol "toSymbol" lineData 0)) /\
    (recorded = kind ->
     symbolOfName "toSymbol" (children self') =
       option_map (repaint lineData 0 None) (symbolOfName "toSymbol" (children self))).
Proof.
  apply (marker_rebuilt_iff_kind_changed
           (fun r => r) Sample.circleRecord 0 None Sample.newCurve "toSymbol").
  - exact newCurve_wellFormed.
  - simpl. repeat constructor.
  - simpl. tauto.
Defined.

(** ** The cached kinds along a history of refreshes *)

Lemma last_cons {A : Type} (a d : A) (l : list A) : last (a :: l) d = last l a.
Proof.
  revert a d. induction l as [| b l IH]; intros a d; [reflexivity |].
  change (last (b :: l) d = last (b :: l) a). now rewrite !IH.
Qed.

Lemma refreshAll_effect (round : R -> R) (history : list Refresh) :
  forall (current : Refresh) (self0 : Line),
    wellFormed self0 ->
    (forall c, In c SYMBOL_CATEGORIES ->
       getKey self0 (makeSymbolTypeKey c) = kindOf current c) ->
    Forall hasEndpoints history ->
    exists self,
      refreshAll round history self0 = Some self /\
      wellFormed self /\
      (forall c, In c SYMBOL_CATEGORIES ->
         getKey self (makeSymbolTypeKey c) = kindOf (last history current) c).
Proof.
  induction history as [| [[lineData idx] seriesScope] later IH];
    intros current self0 Hwf Hkeys Hall.
  - exists self0. simpl. auto.
  - inversion Hall as [| r l Hhead Htail]; subst.
    destruct (updateData_effect round lineData idx seriesScope self0 Hwf Hhead)
      as (self1 & Hrun & Hwf1 & _ & _ & Hsym).
    destruct (IH (lineData, idx, seriesScope) self1 Hwf1) as (self & Hrest & Hwf' & Hkeys').
    + intros c Hc. apply (Hsym c Hc).
    + exact Htail.
    + exists self. simpl refreshAll. rewrite Hrun, last_cons. auto.
Qed.

(** C10: after construction and after every data update of a history, the
    cached fields [_fromSymbolType] and [_toSymbolType] hold the shape kinds
    of the record handled last, rebuilt marker or not; so the next update
    rebuilds a category exactly when its record's kind differs from that of
    the immediately preceding record. *)
Theorem cached_kind_is_last_record_kind (round : R -> R)
    (first : Refresh) (parentNode : option Node) (history : list Refresh) :
  Forall hasEndpoints (first :: history) ->
  exists self0 self,
    _createLine round (refreshData first) (refreshIdx first) (refreshScope first) parentNode
      = Some self0 /\
    refreshAll round history self0 = Some self /\
    _fromSymbolType self = kindOf (last history first) "fromSymbol" /\
    _toSymbolType self = kindOf (last history first) "toSymbol" /\
    (forall (next : Refresh) (c : string),
       In c SYMBOL_CATEGORIES ->
       symbolChanged (refreshData next) (refreshIdx next) self c =
       negb (JS.strictEq (kindOf (last history first) c) (kindOf next c))).
Proof.
  intros Hall. inversion Hall as [| r l Hhead Htail]; subst.
  destruct (createLine_effect round (refreshData first) (refreshIdx first)
              (refreshScope first) parentNode Hhead)
    as (self0 & s & line & Hbuild & Hwf & _ & _ & _ & _ & _ & Hkeys).
  destruct (refreshAll_effect round history first self0 Hwf) as (self & Hrun & _ & Hlast).
  - intros c Hc. apply (Hkeys c Hc).
  - exact Htail.
  - exists self0, self. split; [exact Hbuild |]. split; [exact Hrun |].
    split; [| split].
    + apply (Hlast "fromSymbol"%string). simpl. tauto.
    + apply (Hlast "toSymbol"%string). simpl. tauto.
    + intros next c Hc. unfold symbolChanged. now rewrite (Hlast c Hc).
Qed.

Lemma cached_kind_is_last_record_kind_witness :
  let first : Refresh := (Sample.curveRecord, 0%nat, None) in
  let history : list Refresh := [(Sample.circleRecord, 0%nat, None)] in
  exists self0 self,
    _createLine (fun r => r) (refreshData first) (refreshIdx first) (refreshScope first)
                Sample.zoomed = Some self0 /\
    refreshAll (fun r => r) history self0 = Some self /\
    _fromSymbolType self = kindOf (last history first) "fromSymbol" /\
    _toSymbolType self = kindOf (last history first) "toSymbol" /\
    (forall (next : Refresh) (c : string),
       In c SYMBOL_CATEGORIES ->
       symbolChanged (refreshData next) (refreshIdx next) self c =
       negb (JS.strictEq (kindOf (last history first) c) (kindOf next c))).
Proof.
  apply (cached_kind_is_last_record_kind
           (fun r => r) (Sample.curveRecord, 0%nat, None) Sample.zoomed
           [(Sample.circleRecord, 0%nat, None)]).
  repeat constructor.
Defined.

(** ** Label visibility and text *)

Lemma styleLabel_ignore (round : R -> R) (lineData : LineData) (idx : nat)
    (labelModel hoverLabelModel : LabelModel) (visualColor : JS.value)
    (label : InnerLineLabel) :
  label_ignore (styleLabel round lineData idx labelModel hoverLabelModel visualColor label) = true
  <-> JS.truthy (model_show labelModel) = false /\
      JS.truthy (model_show hoverLabelModel) = false.
Proof.
  simpl.
  destruct (JS.truthy (model_show labelModel)), (JS.truthy (model_show hoverLabelModel));
    simpl; intuition discriminate.
Qed.

(** C6: after the style pass of a construction and of a data refresh, the
    label's [ignore] flag is true if and only if the [show] flag of the base
    label model and that of the hover label model are both falsy. *)
Theorem label_ignored_iff_both_hidden (round : R -> R)
    (lineData : LineData) (idx : nat) (seriesScope : option LineDrawSeriesScope) :
  (2 <= List.length (getItemLayout lineData idx))%nat ->
  let showLabel := model_show (resolveLabelModel lineData idx seriesScope) in
  let hoverShowLabel := model_show (resolveHoverLabelModel lineData idx seriesScope) in
  (forall parentNode,
      exists self label,
        _createLine round lineData idx seriesScope parentNode = Some self /\
        labelOfName "label" (children self) = Some label /\
        (label_ignore label = true <->
         JS.truthy showLabel = false /\ JS.truthy hoverShowLabel = false)) /\
  (forall self,
      wellFormed self ->
      exists self' label,
        updateData round lineData idx seriesScope self = Some self' /\
        labelOfName "label" (children self') = Some label /\
        (label_ignore label = true <->
         JS.truthy showLabel = false /\ JS.truthy hoverShowLabel = false)).
Proof.
  intros Hlen showLabel hoverShowLabel. split.
  - intros parentNode.
    destruct (createLine_effect round lineData idx seriesScope parentNode Hlen)
      as (self & s & line & Hbuild & _ & _ & _ & _ & _ & Hlabel & _).
    eexists self, _. split; [exact Hbuild |]. split; [exact Hlabel |].
    apply styleLabel_ignore.
  - intros self Hwf.
    destruct (updateData_effect round lineData idx seriesScope self Hwf Hlen)
      as (self' & Hrun & _ & _ & (label & _ & Hlabel) & _).
    eexists self', _. split; [exact Hrun |]. split; [exact Hlabel |].
    apply styleLabel_ignore.
Qed.

Lemma label_ignored_iff_both_hidden_witness :
  let lineData := Sample.curveRecord in
  let showLabel := model_show (resolveLabelModel lineData 0 None) in
  let hoverShowLabel := model_show (resolveHoverLabelModel lineData 0 None) in
  (exists self label,
      _createLine (fun r => r) lineData 0 None Sample.zoomed = Some self /\
      labelOfName "label" (children self) = Some label /\
      (label_ignore label = true <->
       JS.truthy showLabel = false /\ JS.truthy hoverShowLabel = false)) /\
  (exists self' label,
      updateData (fun r => r) lineData 0 None Sample.newCurve = Some self' /\
      labelOfName "label" (children self') = Some label /\
      (label_ignore label = true <->
       JS.truthy showLabel = false /\ JS.truthy hoverShowLabel = false)).
Proof.
  assert (Hlen : (2 <= List.length (getItemLayout Sample.curveRecord 0))%nat).
  { simpl. repeat constructor. }
  destruct (label_ignored_iff_both_hidden (fun r => r) Sample.curveRecord 0 None Hlen)
    as [Hnew Hrefresh].
  split.
  - apply Hnew.
  - apply Hrefresh. exact newCurve_wellFormed.
Defined.

(** C7, as the code has it: when either visibility is on, the base text is
    the formatted base label when there is one; otherwise the rounded raw
    value when that exists and is finite, the record's name when there is no
    raw value, and the raw value itself when it is not finite.  The hover
    text is the formatted hover label when there is one and otherwise the
    base text, provided the hover visibility is on; with the hover
    visibility off there is no hover text.  The style pass stores that hover
    text in the label's hover overlay. *)
Theorem label_text_resolution (round : R -> R)
    (lineData : LineData) (idx : nat) (seriesScope : option LineDrawSeriesScope) :
  let showLabel := model_show (resolveLabelModel lineData idx seriesScope) in
  let hoverShowLabel := model_show (resolveHoverLabelModel lineData idx seriesScope) in
  let seriesModel := hostModel lineData in
  let base := baseText round lineData idx showLabel hoverShowLabel in
  let hover := emphasisText round lineData idx showLabel hoverShowLabel in
  JS.truthy showLabel = true \/ JS.truthy hoverShowLabel = true ->
  ((forall s, getFormattedLabel seriesModel idx normal = Some s ->
              base = Some (TextString s)) /\
   (getFormattedLabel seriesModel idx normal = None ->
    (forall rawVal, getRawValue seriesModel idx = RawFinite rawVal ->
                    base = Some (TextNumber (round rawVal))) /\
    (getRawValue seriesModel idx = RawAbsent ->
     base = Some (TextString (getName lineData idx))) /\
    (forall rawVal, getRawValue seriesModel idx = RawNotFinite rawVal ->
                    base = Some (TextNotFinite rawVal)))) /\
  (JS.truthy hoverShowLabel = true ->
   (forall s, getFormattedLabel seriesModel idx emphasis = Some s ->
              hover = Some (TextString s)) /\
   (getFormattedLabel seriesModel idx emphasis = None -> hover = base)) /\
  (JS.truthy hoverShowLabel = false -> hover = None) /\
  (forall self line label,
      lineOfName "line" (children self) = Some line ->
      labelOfName "label" (children self) = Some label ->
      exists self' label',
        _updateCommonStl round lineData idx seriesScope self = Some self' /\
        labelOfName "label" (children self') = Some label' /\
        hover_text (label_hoverStyle label') = hover).
Proof.
  intros showLabel hoverShowLabel seriesModel base hover Hshown.
  assert (Hbase : base = Some (resolveBaseText round lineData idx)).
  { subst base. unfold baseText.
    destruct Hshown as [-> | ->]; [reflexivity | now rewrite orb_true_r]. }
  split; [| split; [| split]].
  - rewrite Hbase. unfold resolveBaseText. fold seriesModel. split.
    + intros s ->. reflexivity.
    + intros ->. repeat split.
      * intros rawVal ->. reflexivity.
      * intros ->. reflexivity.
      * intros rawVal ->. reflexivity.
  - intros Hon. subst hover. unfold emphasisText. rewrite Hon. fold seriesModel. split.
    + intros s ->. reflexivity.
    + intros ->. reflexivity.
  - intros Hoff. subst hover. unfold emphasisText. now rewrite Hoff.
  - intros self line label Hline Hlabel.
    destruct (updateCommonStl_effect round lineData idx seriesScope self line label Hline Hlabel)
      as (self' & Hrun & Hlab' & _).
    eexists self', _. split; [exact Hrun |]. split; [exact Hlab' |].
    unfold styleLabel. simpl hover_text. fold showLabel hoverShowLabel. fold hover.
    now destruct hover.
Qed.

Lemma label_text_resolution_witness :
  let lineData := Sample.hoverHidden in
  let showLabel := model_show (resolveLabelModel lineData 0 None) in
  let hoverShowLabel := model_show (resolveHoverLabelModel lineData 0 None) in
  let seriesModel := hostModel lineData in
  let base := baseText (fun r => r) lineData 0 showLabel hoverShowLabel in
  let hover := emphasisText (fun r => r) lineData 0 showLabel hoverShowLabel in
  ((forall s, getFormattedLabel seriesModel 0 normal = Some s ->
              base = Some (TextString s)) /\
   (getFormattedLabel seriesModel 0 normal = None ->
    (forall rawVal, getRawValue seriesModel 0 = RawFinite rawVal ->
                    base = Some (TextNumber rawVal)) /\
    (getRawValue seriesModel 0 = RawAbsent ->
     base = Some (TextString (getName lineData 0))) /\
    (forall rawVal, getRawValue seriesModel 0 = RawNotFinite rawVal ->
                    base = Some (TextNotFinite rawVal)))) /\
  (JS.truthy hoverShowLabel = true ->
   (forall s, getFormattedLabel seriesModel 0 emphasis = Some s ->
              hover = Some (TextString s)) /\
   (getFormattedLabel seriesModel 0 emphasis = None -> hover = base)) /\
  (JS.truthy hoverShowLabel = false -> hover = None) /\
  (forall self line label,
      lineOfName "line" (children self) = Some line ->
      labelOfName "label" (children self) = Some label ->
      exists self' label',
        _updateCommonStl (fun r => r) lineData 0 None self = Some self' /\
        labelOfName "label" (children self') = Some label' /\
        hover_text (label_hoverStyle label') = hover).
Proof.
  apply (label_text_resolution (fun r => r) Sample.hoverHidden 0 None).
  left. reflexivity.
Defined.

(** C7, as stated, fails on a record whose label is shown in the base state
    only: a visibility is on and a formatted hover label exists, yet there
    is no hover text, neither computed nor stored on the constructed label. *)
Lemma hover_text_needs_hover_visibility :
  let lineData := Sample.hoverHidden in
  let showLabel := model_show (resolveLabelModel lineData 0 None) in
  let hoverShowLabel := model_show (resolveHoverLabelModel lineData 0 None) in
  (JS.truthy showLabel = true \/ JS.truthy hoverShowLabel = true) /\
  getFormattedLabel (hostModel lineData) 0 emphasis = Some "hover"%string /\
  emphasisText (fun r => r) lineData 0 showLabel hoverShowLabel = None /\
  emphasisText (fun r => r) lineData 0 showLabel hoverShowLabel
    <> Some (TextString "hover") /\
  exists self label,
    _createLine (fun r => r) lineData 0 None None = Some self /\
    labelOfName "label" (children self) = Some label /\
    hover_text (label_hoverStyle label) = None.
Proof.
  simpl. repeat split.
  - left. reflexivity.
  - discriminate.
  - eexists _, _. repeat split; reflexivity.
Qed.

(** ** The marker factory and the geometry *)

(** C8, as the code has it: the factory returns no marker if and only if
    the record's shape kind for the category is falsy (absent, or the empty
    string) or is the sentinel "none"; otherwise it returns a shape named
    after the category, of the record's kind and color, in a box centered at
    the origin of size (w, h), where a scalar size s stands for (s, s) and a
    pair is taken as it is. *)
Theorem createSymbol_result (name : string) (lineData : LineData) (idx : nat) :
  let symbolType := getItemVisual lineData idx name in
  let symbolSize := getItemVisualSize lineData idx (name ++ "Size") in
  (createSymbol name lineData idx = None <->
   JS.truthy symbolType = false \/ symbolType = JS.Str "none") /\
  (JS.truthy symbolType = true -> symbolType <> JS.Str "none" ->
   exists symbol w h,
     createSymbol name lineData idx = Some symbol /\
     symbol_name symbol = name /\
     symbol_type symbol = symbolType /\
     symbol_color symbol = getItemVisual lineData idx "color" /\
     symbol_w symbol = w /\ symbol_h symbol = h /\
     symbol_x symbol = - w / 2 /\ symbol_y symbol = - h / 2 /\
     (symbol_x symbol + w / 2, symbol_y symbol + h / 2) = (0, 0) /\
     (forall s, symbolSize = Scalar s -> w = s /\ h = s) /\
     (forall a b, symbolSize = Pair a b -> w = a /\ h = b)).
Proof.
  intros symbolType symbolSize. split.
  - apply createSymbol_None_iff.
  - intros Ht Hn.
    assert (Hs : JS.strictEq symbolType (JS.Str "none") = false).
    { destruct (JS.strictEq symbolType (JS.Str "none")) eqn:E; [| reflexivity].
      apply strictEq_eq in E. contradiction. }
    unfold createSymbol. fold symbolType symbolSize. rewrite Ht, Hs. simpl.
    eexists _, (fst (toPair symbolSize)), (snd (toPair symbolSize)).
    repeat split; try reflexivity;
      try (match goal with H : symbolSize = _ |- _ => rewrite H; reflexivity end).
    simpl. f_equal; lra.
Qed.

Lemma createSymbol_result_witness :
  exists symbol w h,
    createSymbol "toSymbol" Sample.curveRecord 0 = Some symbol /\
    symbol_name symbol = "toSymbol"%string /\
    symbol_type symbol = JS.Str "arrow" /\
    symbol_color symbol = JS.Str "#333" /\
    symbol_w symbol = w /\ symbol_h symbol = h /\
    symbol_x symbol = - w / 2 /\ symbol_y symbol = - h / 2 /\
    (symbol_x symbol + w / 2, symbol_y symbol + h / 2) = (0, 0) /\
    (forall s, Scalar 10 = Scalar s -> w = s /\ h = s) /\
    (forall a b, Scalar 10 = Pair a b -> w = a /\ h = b).
Proof.
  apply (proj2 (createSymbol_result "toSymbol" Sample.curveRecord 0)).
  - reflexivity.
  - discriminate.
Defined.

(** C8, as stated, fails on a record whose from-marker kind is the empty
    string: the kind is present and is not "none", yet no marker is built. *)
Lemma empty_kind_builds_no_marker :
  getItemVisual Sample.emptyKind 0 "fromSymbol" = JS.Str "" /\
  getItemVisual Sample.emptyKind 0 "fromSymbol" <> JS.Undefined /\
  getItemVisual Sample.emptyKind 0 "fromSymbol" <> JS.Null /\
  getItemVisual Sample.emptyKind 0 "fromSymbol" <> JS.Str "none" /\
  createSymbol "fromSymbol" Sample.emptyKind 0 = None.
Proof.
  repeat split; discriminate.
Qed.

Lemma pointAt_withPercent (s : Shape) (p t : R) :
  pointAt (withPercent s p) t = pointAt s t.
Proof. reflexivity. Qed.

Lemma tangentAt_withPercent (s : Shape) (p t : R) :
  tangentAt (withPercent s p) t = tangentAt s t.
Proof. reflexivity. Qed.

Lemma setLinePoints_any_target (target target' : Shape) (points : list point) :
  setLinePoints target points = setLinePoints target' points.
Proof. reflexivity. Qed.

(** C9, as the code has it: [setLinePoints] on a list of at least two
    points writes the two endpoints, leaves a control point exactly when a
    third point is given (that point), and sets the draw progress to 1.  So
    a group constructed from a record of geometry G, then given G again
    through the method [setLinePoints], has the endpoints and control point
    it was constructed with, hence the same point and tangent at every
    parameter; the shape differs from the constructed one in the draw
    progress and in nothing else, which the constructor left at 0 and the
    method sets to 1. *)
Theorem setLinePoints_roundtrip (round : R -> R)
    (lineData : LineData) (idx : nat) (seriesScope : option LineDrawSeriesScope)
    (parentNode : option Node) :
  let G := getItemLayout lineData idx in
  (2 <= List.length G)%nat ->
  (forall target, exists s,
      setLinePoints target G = Some s /\
      Some (x1 s, y1 s) = nth_error G 0 /\
      Some (x2 s, y2 s) = nth_error G 1 /\
      controlPoint s = nth_error G 2 /\
      percent s = 1) /\
  exists self line self' line',
    _createLine round lineData idx seriesScope parentNode = Some self /\
    lineOfName "line" (children self) = Some line /\
    Line_setLinePoints G self = Some self' /\
    lineOfName "line" (children self') = Some line' /\
    (x1 (shape line'), y1 (shape line')) = (x1 (shape line), y1 (shape line)) /\
    (x2 (shape line'), y2 (shape line')) = (x2 (shape line), y2 (shape line)) /\
    controlPoint (shape line') = controlPoint (shape line) /\
    (forall t, pointAt (shape line') t = pointAt (shape line) t) /\
    (forall t, tangentAt (shape line') t = tangentAt (shape line) t) /\
    percent (shape line) = 0 /\
    percent (shape line') = 1 /\
    shape line' = withPercent (shape line) 1.
Proof.
  intros G Hlen. split.
  - intros target. unfold setLinePoints.
    destruct G as [| [a0 b0] [| [a1 b1] rest]]; simpl in Hlen.
    + inversion Hlen.
    + inversion Hlen as [| n Hle]. inversion Hle.
    + eexists. split; [reflexivity |]. simpl.
      repeat split. unfold controlPoint. simpl.
      destruct rest as [| [a2 b2] rest]; reflexivity.
  - destruct (createLine_effect round lineData idx seriesScope parentNode Hlen)
      as (self & s & line & Hbuild & _ & _ & Hs & Hline & Hshape & _).
    fold G in Hs.
    assert (Hs1 : percent s = 1).
    { unfold setLinePoints in Hs.
      destruct G as [| p0 [| p1 rest]]; try discriminate Hs.
      injection Hs as <-. reflexivity. }
    exists self, line.
    unfold Line_setLinePoints. rewrite Hline.
    rewrite (setLinePoints_any_target (shape line) emptyShape), Hs.
    eexists _, _.
    split; [exact Hbuild |]. split; [reflexivity |]. split; [reflexivity |].
    simpl children. rewrite lineOfName_update_same, Hline. simpl.
    split; [reflexivity |].
    rewrite Hshape. clear Hs Hshape.
    destruct s as [a b c d p cx cy]. simpl in Hs1. subst p.
    repeat split; reflexivity.
Qed.

Lemma setLinePoints_roundtrip_witness :
  let G := getItemLayout Sample.curveRecord 0 in
  (forall target, exists s,
      setLinePoints target G = Some s /\
      Some (x1 s, y1 s) = nth_error G 0 /\
      Some (x2 s, y2 s) = nth_error G 1 /\
      controlPoint s = nth_error G 2 /\
      percent s = 1) /\
  exists self line self' line',
    _createLine (fun r => r) Sample.curveRecord 0 None Sample.zoomed = Some self /\
    lineOfName "line" (children self) = Some line /\
    Line_setLinePoints G self = Some self' /\
    lineOfName "line" (children self') = Some line' /\
    (x1 (shape line'), y1 (shape line')) = (x1 (shape line), y1 (shape line)) /\
    (x2 (shape line'), y2 (shape line')) = (x2 (shape line), y2 (shape line)) /\
    controlPoint (shape line') = controlPoint (shape line) /\
    (forall t, pointAt (shape line') t = pointAt (shape line) t) /\
    (forall t, tangentAt (shape line') t = tangentAt (shape line) t) /\
    percent (shape line) = 0 /\
    percent (shape line') = 1 /\
    shape line' = withPercent (shape line) 1.
Proof.
  apply (setLinePoints_roundtrip (fun r => r) Sample.curveRecord 0 None Sample.zoomed).
  simpl. repeat constructor.
Defined.

(** C9, as stated, fails on the sample curve: after the construction the
    draw progress is 0 (line 123), after the method [setLinePoints] on the
    same geometry it is 1 (line 95), so the shape is not the constructed
    one. *)
Lemma roundtrip_changes_draw_progress :
  let G := getItemLayout Sample.curveRecord 0 in
  _createLine (fun r => r) Sample.curveRecord 0 None Sample.zoomed = Some Sample.newCurve /\
  lineOfName "line" (children Sample.newCurve) = Some Sample.curvePath /\
  Line_setLinePoints G Sample.newCurve = Some Sample.drawnCurve /\
  lineOfName "line" (children Sample.drawnCurve) = Some Sample.drawnPath /\
  percent (shape Sample.curvePath) = 0 /\
  percent (shape Sample.drawnPath) = 1 /\
  shape Sample.drawnPath <> shape Sample.curvePath.
Proof.
  repeat split.
  intros Heq. apply (f_equal percent) in Heq. simpl in Heq. lra.
Qed.

(** ** The end-to-end scenarios of the specification *)

Example middle_scenario :
  let lay := labelLayout SampleLabel.straight 1 (JS.Str "middle") (5, 5) in
  textPosition lay = Some (5, -5) /\
  textAlign lay = JS.Str "center" /\
  textVerticalAlign lay = JS.Str "bottom".
Proof.
  simpl. repeat split. do 2 f_equal; lra.
Qed.

Example insideStartTop_scenario :
  let lay := labelLayout SampleLabel.straight 1 (JS.Str "insideStartTop") (5, 5) in
  textPosition lay = Some (5, -5) /\
  textAlign lay = JS.Str "left".
Proof.
  unfold labelLayout. simpl.
  destruct (Rlt_dec (10 - 0) 0) as [H | H]; [lra |].
  split; [do 2 f_equal; lra | reflexivity].
Qed.


(** * Further properties of the group *)

(** ** In-place updates of children *)

Lemma updateChildOfName_absent (n : string) (f : Child -> Child) (cs : list Child) :
  childOfName n cs = None -> updateChildOfName n f cs = cs.
Proof.
  unfold childOfName.
  induction cs as [| c rest IH]; simpl; [reflexivity |].
  destruct (String.eqb (child_name c) n); [discriminate |].
  intros H. now rewrite IH.
Qed.

Lemma updateChildOfName_fixed (n : string) (f : Child -> Child) (cs : list Child) :
  (forall c, childOfName n cs = Some c -> f c = c) ->
  updateChildOfName n f cs = cs.
Proof.
  unfold childOfName.
  induction cs as [| c rest IH]; simpl; [reflexivity |].
  destruct (String.eqb (child_name c) n).
  - intros H. now rewrite H.
  - intros H. now rewrite IH.
Qed.

Lemma updateChildOfName_ext (n : string) (f g : Child -> Child) (cs : list Child) :
  (forall c, f c = g c) -> updateChildOfName n f cs = updateChildOfName n g cs.
Proof.
  intros H. induction cs as [| c rest IH]; simpl; [reflexivity |].
  destruct (String.eqb (child_name c) n); [now rewrite H | now rewrite IH].
Qed.

Lemma updateChildOfName_twice (n : string) (f g : Child -> Child) (cs : list Child) :
  namePreserving g ->
  updateChildOfName n f (updateChildOfName n g cs) =
  updateChildOfName n (fun c => f (g c)) cs.
Proof.
  intros Hg. induction cs as [| c rest IH]; simpl; [reflexivity |].
  destruct (String.eqb (child_name c) n) eqn:E; simpl.
  - now rewrite Hg, E.
  - now rewrite E, IH.
Qed.

Lemma updateChildOfName_commute (n m : string) (f g : Child -> Child) (cs : list Child) :
  namePreserving f -> namePreserving g ->
  String.eqb n m = false ->
  updateChildOfName n f (updateChildOfName m g cs) =
  updateChildOfName m g (updateChildOfName n f cs).
Proof.
  intros Hf Hg Hnm. induction cs as [| c rest IH]; simpl; [reflexivity |].
  destruct (String.eqb (child_name c) m) eqn:Em;
    destruct (String.eqb (child_name c) n) eqn:En; simpl;
    rewrite ?Hf, ?Hg, ?Em, ?En; try reflexivity.
  - apply String.eqb_eq in Em. apply String.eqb_eq in En.
    rewrite <- Em, <- En, String.eqb_refl in Hnm. discriminate.
  - now rewrite IH.
Qed.

(** A child that is neither the curve nor the label is a marker. *)
Lemma childOfName_marker (n : string) (cs : list Child) (c : Child) :
  String.eqb "line" n = false ->
  String.eqb "label" n = false ->
  childOfName n cs = Some c ->
  exists s, c = ChSymbol s /\ symbol_name s = n.
Proof.
  intros Hline Hlabel Hc. unfold childOfName in Hc.
  apply find_some in Hc. destruct Hc as [_ Hname].
  apply String.eqb_eq in Hname.
  destruct c as [l | t | s]; simpl in Hname; subst n.
  - discriminate Hline.
  - discriminate Hlabel.
  - now exists s.
Qed.

Lemma symbolOfName_None (n : string) (cs : list Child) :
  String.eqb "line" n = false ->
  String.eqb "label" n = false ->
  symbolOfName n cs = None -> childOfName n cs = None.
Proof.
  intros Hline Hlabel. unfold symbolOfName.
  destruct (childOfName n cs) as [c |] eqn:Hc; [| reflexivity].
  destruct (childOfName_marker n cs c Hline Hlabel Hc) as (s & -> & _).
  discriminate.
Qed.

(** ** The layout pass in closed form *)

Lemma beforeUpdate_closed_form (self : Line) (line : ECLinePath) (label : InnerLineLabel) :
  layoutReady self line label ->
  beforeUpdate self =
  Some (if layoutSkipped self line label then self
        else setChildren self (layoutOf self line label)).
Proof.
  intros (Hline & Hlabel & Hdist).
  unfold beforeUpdate, layoutSkipped, layoutOf. rewrite Hlabel, Hline.
  destruct (negb (isSome (symbolOfName "fromSymbol" (children self)))
            && negb (isSome (symbolOfName "toSymbol" (children self)))
            && label_ignore label) eqn:Hquick; simpl; [reflexivity |].
  destruct (negb (__dirty self) && negb (line_dirty line)); [reflexivity |].
  assert (Hfrom :
    (if isSome (symbolOfName "fromSymbol" (children self))
     then updateChildOfName "fromSymbol" (onSymbol (fromPose line (parent self)))
            (children self)
     else children self)
    = updateChildOfName "fromSymbol" (onSymbol (fromPose line (parent self)))
        (children self)).
  { destruct (symbolOfName "fromSymbol" (children self)) eqn:E; simpl; [reflexivity |].
    symmetry. apply updateChildOfName_absent. now apply symbolOfName_None. }
  set (cs1 := updateChildOfName "fromSymbol" _ (children self)) in *.
  assert (Hto :
    (if isSome (symbolOfName "toSymbol" (children self))
     then updateChildOfName "toSymbol" (onSymbol (toPose line (parent self))) cs1
     else cs1)
    = updateChildOfName "toSymbol" (onSymbol (toPose line (parent self))) cs1).
  { destruct (symbolOfName "toSymbol" (children self)) eqn:E; simpl; [reflexivity |].
    symmetry. apply updateChildOfName_absent. apply symbolOfName_None; try reflexivity.
    subst cs1. unfold fromPose.
    now rewrite symbolOfName_update_other by (auto with children). }
  unfold fromPose, toPose in *. cbv zeta in *.
  fold cs1. rewrite Hfrom. clear Hfrom.
  set (cs2 := updateChildOfName "toSymbol" _ cs1) in *.
  rewrite Hto. clear Hto.
  destruct (label_ignore label) eqn:Hig.
  - f_equal. f_equal. symmetry. apply updateChildOfName_fixed.
    now intros [l | t | s].
  - specialize (Hdist eq_refl). unfold labelPose.
    destruct (__labelDistance label) as [distance |]; [reflexivity | discriminate].
Qed.

(** ** The shape of the child list *)

Lemma onLine_kindPreserving (f : ECLinePath -> ECLinePath) : kindPreserving (onLine f).
Proof. intros [l | t | s]; exact I. Qed.

Lemma onLabel_kindPreserving (f : InnerLineLabel -> InnerLineLabel) :
  kindPreserving (onLabel f).
Proof. intros [l | t | s]; exact I. Qed.

Lemma onSymbol_kindPreserving (f : ECSymbol -> ECSymbol) : kindPreserving (onSymbol f).
Proof. intros [l | t | s]; exact I. Qed.

#[local] Hint Resolve onLine_kindPreserving onLabel_kindPreserving
  onSymbol_kindPreserving : children.

Lemma markers_update (n : string) (f : Child -> Child) (cs : list Child) :
  kindPreserving f -> Forall isMarker cs -> Forall isMarker (updateChildOfName n f cs).
Proof.
  intros Hf. induction 1 as [| c rest Hc Hrest IH]; simpl; [constructor |].
  destruct (String.eqb (child_name c) n).
  - constructor; [| assumption].
    specialize (Hf c). destruct c as [l | t | s]; simpl in Hc; try contradiction.
    cbv beta iota in Hf. revert Hf. destruct (f (ChSymbol s)); simpl; tauto.
  - constructor; assumption.
Qed.

Lemma markers_remove (n : string) (cs : list Child) :
  Forall isMarker cs -> Forall isMarker (removeChildOfName n cs).
Proof.
  induction 1 as [| c rest Hc Hrest IH]; simpl; [constructor |].
  destruct (String.eqb (child_name c) n); [assumption | now constructor].
Qed.

Lemma lineFirst_update (n : string) (f : Child -> Child) (cs : list Child) :
  kindPreserving f -> lineFirst cs -> lineFirst (updateChildOfName n f cs).
Proof.
  intros Hf.
  destruct cs as [| [l | t | s] [| [l' | t' | s'] rest]];
    cbn [lineFirst]; try tauto.
  intros Hrest. cbn [updateChildOfName child_name].
  pose proof (Hf (ChLine l)) as Hl. pose proof (Hf (ChLabel t')) as Ht.
  cbv beta iota in Hl, Ht.
  destruct (String.eqb "line" n).
  - revert Hl. destruct (f (ChLine l)); cbn [lineFirst]; tauto.
  - destruct (String.eqb "label" n).
    + revert Ht. destruct (f (ChLabel t')); cbn [lineFirst]; tauto.
    + cbn [lineFirst]. now apply markers_update.
Qed.

Lemma lineFirst_remove (c : string) (cs : list Child) :
  In c SYMBOL_CATEGORIES -> lineFirst cs -> lineFirst (removeChildOfName c cs).
Proof.
  intros Hc.
  destruct cs as [| [l | t | s] [| [l' | t' | s'] rest]]; simpl; try tauto.
  intros Hrest.
  destruct Hc as [<- | [<- | []]]; simpl; now apply markers_remove.
Qed.

Lemma lineFirst_add (s : option ECSymbol) (cs : list Child) :
  lineFirst cs -> lineFirst (add (option_map ChSymbol s) cs).
Proof.
  destruct s as [s |]; simpl; [| tauto].
  destruct cs as [| [l | t | s0] [| [l' | t' | s'] rest]]; simpl; try tauto.
  intros Hrest. apply Forall_app. split; [assumption |].
  repeat constructor.
Qed.

Lemma goodChildren_update (n : string) (f : Child -> Child) (cs : list Child) :
  kindPreserving f -> namePreserving f ->
  goodChildren cs -> goodChildren (updateChildOfName n f cs).
Proof.
  intros Hk Hn (Hfirst & Hnd & Hincl).
  unfold goodChildren. rewrite map_name_update by assumption.
  repeat split; try assumption. now apply lineFirst_update.
Qed.

Lemma goodChildren_remove (c : string) (cs : list Child) :
  In c SYMBOL_CATEGORIES ->
  goodChildren cs -> goodChildren (removeChildOfName c cs).
Proof.
  intros Hc (Hfirst & Hnd & Hincl). repeat split.
  - now apply lineFirst_remove.
  - now apply NoDup_remove.
  - intros n Hn. apply Hincl. eapply In_name_remove; eauto.
Qed.

Lemma goodChildren_add (c : string) (lineData : LineData) (idx : nat) (cs : list Child) :
  In c SYMBOL_CATEGORIES ->
  ~ In c (map child_name cs) ->
  goodChildren cs ->
  goodChildren (add (option_map ChSymbol (createSymbol c lineData idx)) cs).
Proof.
  intros Hc Hnotin (Hfirst & Hnd & Hincl). repeat split.
  - now apply lineFirst_add.
  - now apply NoDup_add_created.
  - destruct (createSymbol c lineData idx) as [s |] eqn:Hs; simpl; [| assumption].
    rewrite map_app. simpl. rewrite (createSymbol_name _ _ _ _ Hs).
    intros n Hn. apply in_app_or in Hn. destruct Hn as [Hn | [<- | []]].
    + now apply Hincl.
    + simpl. tauto.
Qed.

Lemma goodChildren_wellFormed (self : Line) :
  goodChildren (children self) -> wellFormed self.
Proof.
  intros (Hfirst & Hnd & _). split; [assumption |].
  unfold lineOfName, labelOfName.
  destruct (children self) as [| [l | t | s] [| [l' | t' | s'] rest]];
    simpl in Hfirst; try contradiction.
  split; reflexivity.
Qed.

Lemma updateCategory_good (lineData : LineData) (idx : nat) (self : Line) (c : string) :
  In c SYMBOL_CATEGORIES ->
  goodChildren (children self) ->
  goodChildren (children (updateCategory lineData idx self c)).
Proof.
  intros Hc Hgood.
  destruct (symbolChanged lineData idx self c) eqn:Hch.
  - rewrite updateCategory_changed by assumption.
    apply goodChildren_add; [assumption | | now apply goodChildren_remove].
    apply not_In_remove_same. apply Hgood.
  - now rewrite updateCategory_unchanged.
Qed.

Lemma updateCommonStl_good (round : R -> R) (lineData : LineData) (idx : nat)
    (seriesScope : option LineDrawSeriesScope) (self self' : Line) :
  _updateCommonStl round lineData idx seriesScope self = Some self' ->
  goodChildren (children self) -> goodChildren (children self').
Proof.
  unfold _updateCommonStl.
  destruct (lineOfName "line" (children self)); [| discriminate].
  simpl fold_left.
  destruct (labelOfName "label" _); [| discriminate].
  intros H Hgood. injection H as <-. simpl children.
  repeat apply goodChildren_update;
    auto using paintSymbol_namePreserving with children.
Qed.

Lemma updateData_good (round : R -> R) (lineData : LineData) (idx : nat)
    (seriesScope : option LineDrawSeriesScope) (self self' : Line) :
  updateData round lineData idx seriesScope self = Some self' ->
  goodChildren (children self) -> goodChildren (children self').
Proof.
  unfold updateData.
  destruct (setLinePoints emptyShape (getItemLayout lineData idx)); [| discriminate].
  simpl fold_left. intros H Hgood.
  apply (updateCommonStl_good _ _ _ _ _ _ H).
  repeat apply updateCategory_good; simpl; try tauto.
  apply goodChildren_update; auto with children.
Qed.

Lemma createLine_good (round : R -> R) (lineData : LineData) (idx : nat)
    (seriesScope : option LineDrawSeriesScope) (parentNode : option Node) (self : Line) :
  _createLine round lineData idx seriesScope parentNode = Some self ->
  goodChildren (children self).
Proof.
  unfold _createLine.
  destruct (createLine (getItemLayout lineData idx)) as [line |]; [| discriminate].
  cbv zeta. simpl add. simpl fold_left. intros H.
  apply (updateCommonStl_good _ _ _ _ _ _ H).
  rewrite !createCategory_children. simpl children.
  apply goodChildren_add; [simpl; tauto | |].
  - destruct (createSymbol "fromSymbol" lineData idx) as [s |] eqn:Hs; simpl.
    + rewrite (createSymbol_name _ _ _ _ Hs). intuition discriminate.
    + intuition discriminate.
  - apply goodChildren_add; [simpl; tauto | simpl; intuition discriminate |].
    repeat split.
    + simpl. constructor.
    + simpl. repeat constructor; simpl; intuition discriminate.
    + intros n Hn. simpl in *. tauto.
Qed.

Lemma setLinePoints_good (points : list point) (self self' : Line) :
  Line_setLinePoints points self = Some self' ->
  goodChildren (children self) -> goodChildren (children self').
Proof.
  unfold Line_setLinePoints.
  destruct (lineOfName "line" (children self)) as [linePath |]; [| discriminate].
  destruct (setLinePoints (shape linePath) points); [| discriminate].
  intros H Hgood. injection H as <-. simpl children.
  apply goodChildren_update; auto with children.
Qed.

Lemma beforeUpdate_good (self self' : Line) :
  beforeUpdate self = Some self' ->
  goodChildren (children self) -> goodChildren (children self').
Proof.
  intros H Hgood.
  pose proof (goodChildren_wellFormed self Hgood) as (_ & Hline & Hlabel).
  destruct (lineOfName "line" (children self)) as [line |] eqn:El; [| discriminate].
  destruct (labelOfName "label" (children self)) as [label |] eqn:Eb; [| discriminate].
  unfold beforeUpdate in H. rewrite El, Eb in H. cbv zeta in H.
  destruct (isSome (symbolOfName "fromSymbol" (children self)));
    destruct (isSome (symbolOfName "toSymbol" (children self)));
    destruct (label_ignore label);
    destruct (__dirty self); destruct (line_dirty line);
    destruct (__labelDistance label);
    cbn [negb andb] in H;
    try discriminate H; injection H as <-; try assumption; simpl children;
    repeat apply goodChildren_update;
    auto using poseSymbol_namePreserving with children.
Qed.

(** ** The invariant of the class *)

Lemma styleLabel_ready (round : R -> R) (lineData : LineData) (idx : nat)
    (labelModel hoverLabelModel : LabelModel) (visualColor : JS.value)
    (label : InnerLineLabel) :
  let label' := styleLabel round lineData idx labelModel hoverLabelModel visualColor label in
  label_ignore label' = false -> isSome (__labelDistance label') = true.
Proof.
  unfold styleLabel, normalText, emphasisText, baseText. simpl.
  destruct (JS.truthy (model_show labelModel)); simpl.
  - reflexivity.
  - destruct (JS.truthy (model_show hoverLabelModel)); simpl; [| discriminate].
    now destruct (getFormattedLabel (hostModel lineData) idx emphasis).
Qed.

Lemma createSymbol_kind (c : string) (lineData : LineData) (idx : nat) :
  match createSymbol c lineData idx with
  | Some s => symbol_type s = getItemVisual lineData idx c /\
              kindBuilds (getItemVisual lineData idx c) = true
  | None => kindBuilds (getItemVisual lineData idx c) = false
  end.
Proof.
  unfold createSymbol, kindBuilds.
  destruct (JS.truthy (getItemVisual lineData idx c)); simpl; [| reflexivity].
  destruct (JS.strictEq (getItemVisual lineData idx c) (JS.Str "none")); simpl; auto.
Qed.

Lemma setLinePoints_effect (points : list point) (self : Line) :
  wellFormed self ->
  (2 <= List.length points)%nat ->
  exists line s,
    lineOfName "line" (children self) = Some line /\
    setLinePoints (shape line) points = Some s /\
    Line_setLinePoints points self =
      Some (setChildren self (updateChildOfName "line" (onLine (redraw s)) (children self))).
Proof.
  intros (_ & Hline & _) Hlen. unfold Line_setLinePoints.
  destruct (lineOfName "line" (children self)) as [line |]; [| discriminate].
  exists line.
  destruct points as [| p0 [| p1 rest]]; simpl in Hlen.
  - inversion Hlen.
  - inversion Hlen as [| n Hle]. inversion Hle.
  - eexists. split; [reflexivity |]. split; reflexivity.
Qed.

Lemma layoutOf_symbol (self : Line) (line : ECLinePath) (label : InnerLineLabel) (c : string) :
  In c SYMBOL_CATEGORIES ->
  symbolOfName c (layoutOf self line label) =
  option_map (if String.eqb c "fromSymbol" then fromPose line (parent self)
              else toPose line (parent self))
             (symbolOfName c (children self)).
Proof.
  unfold layoutOf. intros [<- | [<- | []]]; simpl String.eqb; cbv iota.
  - rewrite !symbolOfName_update_other
      by (unfold toPose; auto using poseSymbol_namePreserving with children).
    now rewrite symbolOfName_update_same.
  - rewrite symbolOfName_update_other by (auto with children).
    rewrite symbolOfName_update_same by reflexivity.
    now rewrite symbolOfName_update_other
      by (unfold fromPose; auto using poseSymbol_namePreserving).
Qed.

Lemma layoutOf_label (self : Line) (line : ECLinePath) (label : InnerLineLabel) :
  labelOfName "label" (layoutOf self line label) =
  option_map (if label_ignore label then (fun t => t) else labelPose self line label)
             (labelOfName "label" (children self)).
Proof.
  unfold layoutOf. rewrite labelOfName_update_same.
  now rewrite !labelOfName_update_other
    by (unfold fromPose, toPose; auto using poseSymbol_namePreserving).
Qed.

Lemma layoutOf_line (self : Line) (line : ECLinePath) (label : InnerLineLabel) :
  lineOfName "line" (layoutOf self line label) = lineOfName "line" (children self).
Proof.
  unfold layoutOf.
  now rewrite !lineOfName_update_other
    by (unfold fromPose, toPose; auto using poseSymbol_namePreserving with children).
Qed.

Lemma labelPose_keeps (self : Line) (line : ECLinePath) (label t : InnerLineLabel) :
  let t' := labelPose self line label t in
  label_ignore t' = label_ignore t /\
  __labelDistance t' = __labelDistance t /\
  __position t' = __position t /\
  __textAlign t' = __textAlign t /\
  __verticalAlign t' = __verticalAlign t /\
  label_text t' = label_text t /\
  label_hoverStyle t' = label_hoverStyle t.
Proof.
  unfold labelPose. destruct (__labelDistance label); simpl; tauto.
Qed.

Lemma groupInv_ready (self : Line) :
  groupInv self ->
  exists line label, layoutReady self line label.
Proof.
  intros (Hgood & Hready & _).
  pose proof (goodChildren_wellFormed self Hgood) as (_ & Hline & Hlabel).
  destruct (lineOfName "line" (children self)) as [line |] eqn:El; [| discriminate].
  destruct (labelOfName "label" (children self)) as [label |] eqn:Eb; [| discriminate].
  exists line, label. split; [exact El |]. split; [exact Eb |].
  now apply Hready.
Qed.

Section Invariant.

Variable round : R -> R.

Lemma createLine_invariant (lineData : LineData) (idx : nat)
    (seriesScope : option LineDrawSeriesScope) (parentNode : option Node) :
  (2 <= List.length (getItemLayout lineData idx))%nat ->
  exists self,
    _createLine round lineData idx seriesScope parentNode = Some self /\
    groupInv self /\ parent self = parentNode.
Proof.
  intros Hlen.
  destruct (createLine_effect round lineData idx seriesScope parentNode Hlen)
    as (self & s & line & Hbuild & _ & Hpar & _ & _ & _ & Hlabel & Hsym).
  exists self. split; [exact Hbuild |]. split; [| exact Hpar].
  split; [| split].
  - exact (createLine_good _ _ _ _ _ _ Hbuild).
  - intros label Hl. rewrite Hlabel in Hl. injection Hl as <-.
    apply styleLabel_ready.
  - intros c Hc. destruct (Hsym c Hc) as (-> & ->).
    pose proof (createSymbol_kind c lineData idx) as Hk.
    now destruct (createSymbol c lineData idx).
Qed.

Lemma updateData_invariant (lineData : LineData) (idx : nat)
    (seriesScope : option LineDrawSeriesScope) (self : Line) :
  (2 <= List.length (getItemLayout lineData idx))%nat ->
  groupInv self ->
  exists self',
    updateData round lineData idx seriesScope self = Some self' /\
    groupInv self' /\ parent self' = parent self.
Proof.
  intros Hlen (Hgood & Hready & Hmatch).
  pose proof (goodChildren_wellFormed self Hgood) as Hwf.
  destruct (updateData_effect round lineData idx seriesScope self Hwf Hlen)
    as (self' & Hrun & _ & Hpar & (label & _ & Hlabel) & Hsym).
  exists self'. split; [exact Hrun |]. split; [| exact Hpar].
  split; [| split].
  - exact (updateData_good _ _ _ _ _ _ Hrun Hgood).
  - intros label' Hl. rewrite Hlabel in Hl. injection Hl as <-.
    apply styleLabel_ready.
  - intros c Hc. destruct (Hsym c Hc) as (-> & ->).
    unfold symbolChanged.
    destruct (JS.strictEq (getKey self (makeSymbolTypeKey c))
                          (getItemVisual lineData idx c)) eqn:E; simpl.
    + apply strictEq_eq in E. specialize (Hmatch c Hc). rewrite E in Hmatch.
      now destruct (symbolOfName c (children self)).
    + pose proof (createSymbol_kind c lineData idx) as Hk.
      now destruct (createSymbol c lineData idx).
Qed.

Lemma setLinePoints_invariant (points : list point) (self : Line) :
  (2 <= List.length points)%nat ->
  groupInv self ->
  exists self',
    Line_setLinePoints points self = Some self' /\
    groupInv self' /\ parent self' = parent self.
Proof.
  intros Hlen (Hgood & Hready & Hmatch).
  pose proof (goodChildren_wellFormed self Hgood) as Hwf.
  destruct (setLinePoints_effect points self Hwf Hlen) as (line & s & _ & _ & Hrun).
  eexists. split; [exact Hrun |]. split; [| reflexivity].
  split; [| split].
  - exact (setLinePoints_good _ _ _ Hrun Hgood).
  - intros label. simpl children.
    rewrite labelOfName_update_other by (auto with children). apply Hready.
  - intros c Hc. simpl children.
    rewrite symbolOfName_update_other
      by (auto with children; destruct Hc as [<- | [<- | []]]; reflexivity).
    exact (Hmatch c Hc).
Qed.

Lemma beforeUpdate_invariant (self : Line) :
  groupInv self ->
  exists self',
    beforeUpdate self = Some self' /\
    groupInv self' /\ parent self' = parent self.
Proof.
  intros Hinv.
  destruct (groupInv_ready self Hinv) as (line & label & Hready3).
  pose proof (beforeUpdate_closed_form self line label Hready3) as Hrun.
  destruct Hinv as (Hgood & Hready & Hmatch).
  destruct Hready3 as (Hline & Hlabel & Hdist).
  revert Hrun. destruct (layoutSkipped self line label); intros Hrun;
    (eexists; split; [exact Hrun |]).
  { split; [| reflexivity]. split; [exact Hgood |]. split; [exact Hready | exact Hmatch]. }
  split; [| reflexivity].
  split; [| split].
  - exact (beforeUpdate_good _ _ Hrun Hgood).
  - intros t. simpl children. rewrite layoutOf_label, Hlabel. simpl.
    intros Ht. injection Ht as <-.
    destruct (label_ignore label) eqn:Hig; [congruence |].
    destruct (labelPose_keeps self line label label) as (-> & -> & _).
    intros _. now apply Hdist.
  - intros c Hc. simpl children. rewrite (layoutOf_symbol _ _ _ _ Hc).
    specialize (Hmatch c Hc).
    destruct (symbolOfName c (children self)) as [s |]; simpl; [| exact Hmatch].
    now destruct (String.eqb c "fromSymbol").
Qed.

Lemma call_invariant (c : Call) (self : Line) :
  callable c ->
  groupInv self ->
  exists self',
    call round c self = Some self' /\ groupInv self' /\ parent self' = parent self.
Proof.
  destruct c as [lineData idx seriesScope | lineData idx | points |];
    unfold callable; simpl; intros Hc Hinv.
  - now apply updateData_invariant.
  - now apply setLinePoints_invariant.
  - now apply setLinePoints_invariant.
  - now apply beforeUpdate_invariant.
Qed.

Lemma callAll_invariant (history : list Call) :
  forall self,
    Forall callable history ->
    groupInv self ->
    exists self',
      callAll round history self = Some self' /\
      groupInv self' /\ parent self' = parent self.
Proof.
  induction history as [| c later IH]; intros self Hall Hinv.
  - exists self. auto.
  - inversion Hall as [| x l Hc Hlater]; subst.
    destruct (call_invariant c self Hc Hinv) as (self1 & Hrun & Hinv1 & Hpar1).
    destruct (IH self1 Hlater Hinv1) as (self' & Hrest & Hinv' & Hpar').
    exists self'. simpl. rewrite Hrun.
    split; [exact Hrest |]. split; [exact Hinv' | congruence].
Qed.

End Invariant.

Lemma calls_callable : Forall callable SampleHistory.calls.
Proof. repeat constructor. Qed.

Lemma curveRecord_endpoints :
  (2 <= List.length (getItemLayout Sample.curveRecord 0))%nat.
Proof. simpl. repeat constructor. Qed.

Lemma markers_map (rest : list Child) :
  Forall isMarker rest -> rest = map ChSymbol (markersOf rest).
Proof.
  induction 1 as [| c rest Hc Hrest IH]; simpl; [reflexivity |].
  destruct c as [l | t | s]; simpl in Hc; try contradiction.
  simpl. now rewrite <- IH.
Qed.

Lemma goodChildren_form (cs : list Child) :
  goodChildren cs ->
  exists line label,
    cs = ChLine line :: ChLabel label :: map ChSymbol (markersOf cs) /\
    NoDup (map symbol_name (markersOf cs)) /\
    incl (map symbol_name (markersOf cs)) SYMBOL_CATEGORIES.
Proof.
  intros (Hfirst & Hnd & Hincl).
  destruct cs as [| [l | t | s] [| [l' | t' | s'] rest]]; simpl in Hfirst; try contradiction.
  exists l, t'. simpl markersOf.
  pose proof (markers_map rest Hfirst) as Hrest.
  split; [now rewrite <- Hrest |].
  rewrite Hrest in Hnd, Hincl. simpl in Hnd, Hincl.
  rewrite map_map in Hnd, Hincl. simpl in Hnd, Hincl.
  inversion Hnd as [| x1 l1 Hn1 Hnd1]; subst.
  inversion Hnd1 as [| x2 l2 Hn2 Hnd2]; subst.
  split; [exact Hnd2 |].
  intros n Hn.
  assert (Hall : In n ("line" :: "label" :: SYMBOL_CATEGORIES)%string).
  { apply Hincl. simpl. tauto. }
  destruct Hall as [<- | [<- | Hcat]]; [| | exact Hcat].
  - exfalso. apply Hn1. simpl. tauto.
  - contradiction.
Qed.

(** X2: whatever calls follow the construction, the children of the group
    are the curve first, the label second, and then at most two markers,
    each named after a category, no two of the same name; so the curve
    always comes before the markers in update order. *)
Theorem line_stays_first (round : R -> R) (lineData : LineData) (idx : nat)
    (seriesScope : option LineDrawSeriesScope) (parentNode : option Node)
    (history : list Call) :
  (2 <= List.length (getItemLayout lineData idx))%nat ->
  Forall callable history ->
  exists self0 self line label,
    _createLine round lineData idx seriesScope parentNode = Some self0 /\
    callAll round history self0 = Some self /\
    children self = ChLine line :: ChLabel label :: map ChSymbol (markersOf (children self)) /\
    NoDup (map symbol_name (markersOf (children self))) /\
    incl (map symbol_name (markersOf (children self))) SYMBOL_CATEGORIES /\
    (List.length (markersOf (children self)) <= 2)%nat.
Proof.
  intros Hlen Hall.
  destruct (createLine_invariant round lineData idx seriesScope parentNode Hlen)
    as (self0 & Hbuild & Hinv & _).
  destruct (callAll_invariant round history self0 Hall Hinv)
    as (self & Hrun & (Hgood & _) & _).
  destruct (goodChildren_form _ Hgood) as (line & label & Hform & Hnd & Hincl).
  exists self0, self, line, label.
  repeat (split; [assumption |]).
  rewrite <- (length_map symbol_name).
  exact (NoDup_incl_length Hnd Hincl).
Qed.

Lemma line_stays_first_witness :
  exists self0 self line label,
    _createLine (fun r => r) Sample.curveRecord 0 None Sample.zoomed = Some self0 /\
    callAll (fun r => r) SampleHistory.calls self0 = Some self /\
    children self = ChLine line :: ChLabel label :: map ChSymbol (markersOf (children self)) /\
    NoDup (map symbol_name (markersOf (children self))) /\
    incl (map symbol_name (markersOf (children self))) SYMBOL_CATEGORIES /\
    (List.length (markersOf (children self)) <= 2)%nat.
Proof.
  apply (line_stays_first (fun r => r) Sample.curveRecord 0 None Sample.zoomed
                          SampleHistory.calls).
  - exact curveRecord_endpoints.
  - exact calls_callable.
Defined.

(** X3: whatever calls follow the construction, each category has a marker
    child exactly when its cached shape kind is truthy and is not "none",
    and that marker is of the cached kind and carries the category's name. *)
Theorem marker_present_iff_kind_builds (round : R -> R) (lineData : LineData) (idx : nat)
    (seriesScope : option LineDrawSeriesScope) (parentNode : option Node)
    (history : list Call) :
  (2 <= List.length (getItemLayout lineData idx))%nat ->
  Forall callable history ->
  exists self0 self,
    _createLine round lineData idx seriesScope parentNode = Some self0 /\
    callAll round history self0 = Some self /\
    forall c, In c SYMBOL_CATEGORIES ->
      let cached := getKey self (makeSymbolTypeKey c) in
      (symbolOfName c (children self) = None <->
       JS.truthy cached = false \/ cached = JS.Str "none") /\
      (forall s, symbolOfName c (children self) = Some s ->
                 symbol_type s = cached /\ symbol_name s = c).
Proof.
  intros Hlen Hall.
  destruct (createLine_invariant round lineData idx seriesScope parentNode Hlen)
    as (self0 & Hbuild & Hinv & _).
  destruct (callAll_invariant round history self0 Hall Hinv)
    as (self & Hrun & (_ & _ & Hmatch) & _).
  exists self0, self. split; [exact Hbuild |]. split; [exact Hrun |].
  intros c Hc cached. specialize (Hmatch c Hc). fold cached in Hmatch.
  assert (Hbuilds : kindBuilds cached = false <->
                    JS.truthy cached = false \/ cached = JS.Str "none").
  { unfold kindBuilds. destruct (JS.truthy cached); simpl.
    - destruct (JS.strictEq cached (JS.Str "none")) eqn:E; simpl.
      + apply strictEq_eq in E. tauto.
      + split; [discriminate |]. intros [H | H]; [discriminate |].
        rewrite H in E. discriminate.
    - tauto. }
  destruct (symbolOfName c (children self)) as [s |] eqn:Hs.
  - destruct Hmatch as (Htype & Hk). split.
    + split; [discriminate |]. intros H. apply Hbuilds in H. congruence.
    + intros s' Hs'. injection Hs' as <-. split; [exact Htype |].
      unfold symbolOfName in Hs.
      destruct (childOfName c (children self)) as [[l | t | s0] |] eqn:Hc0;
        try discriminate.
      injection Hs as ->.
      assert (Hne : String.eqb "line" c = false /\ String.eqb "label" c = false)
        by (destruct Hc as [<- | [<- | []]]; split; reflexivity).
      destruct (childOfName_marker c _ _ (proj1 Hne) (proj2 Hne) Hc0) as (s1 & Heq & Hname).
      now injection Heq as <-.
  - split; [| discriminate]. split; [intros _; now apply Hbuilds | reflexivity].
Qed.

Lemma marker_present_iff_kind_builds_witness :
  exists self0 self,
    _createLine (fun r => r) Sample.curveRecord 0 None Sample.zoomed = Some self0 /\
    callAll (fun r => r) SampleHistory.calls self0 = Some self /\
    forall c, In c SYMBOL_CATEGORIES ->
      let cached := getKey self (makeSymbolTypeKey c) in
      (symbolOfName c (children self) = None <->
       JS.truthy cached = false \/ cached = JS.Str "none") /\
      (forall s, symbolOfName c (children self) = Some s ->
                 symbol_type s = cached /\ symbol_name s = c).
Proof.
  apply (marker_present_iff_kind_builds (fun r => r) Sample.curveRecord 0 None Sample.zoomed
                                        SampleHistory.calls).
  - exact curveRecord_endpoints.
  - exact calls_callable.
Defined.

(** ** Groups that are reached *)

Lemma setLinePoints_None (target : Shape) (points : list point) :
  setLinePoints target points = None <-> (List.length points < 2)%nat.
Proof.
  unfold setLinePoints.
  destruct points as [| p0 [| p1 rest]]; simpl; split; intros H;
    try reflexivity; try discriminate H.
  - repeat constructor.
  - repeat constructor.
  - exfalso. inversion H as [| n Hle]. inversion Hle as [| m Hle']. inversion Hle'.
Qed.


Lemma createLine_Some_endpoints (round : R -> R) (lineData : LineData) (idx : nat)
    (seriesScope : option LineDrawSeriesScope) (parentNode : option Node) (self : Line) :
  _createLine round lineData idx seriesScope parentNode = Some self ->
  (2 <= List.length (getItemLayout lineData idx))%nat.
Proof.
  intros Hbuild.
  destruct (PeanoNat.Nat.lt_ge_cases (List.length (getItemLayout lineData idx)) 2)
    as [Hlt | Hge]; [| exact Hge].
  exfalso. unfold _createLine, createLine in Hbuild.
  apply (setLinePoints_None emptyShape) in Hlt. rewrite Hlt in Hbuild. discriminate.
Qed.

Lemma call_Some_callable (round : R -> R) (c : Call) (self self' : Line) :
  call round c self = Some self' -> callable c.
Proof.
  assert (Hset : forall points,
             (List.length points < 2)%nat -> Line_setLinePoints points self = None).
  { intros points Hlt. unfold Line_setLinePoints.
    destruct (lineOfName "line" (children self)) as [line |]; [| reflexivity].
    apply (setLinePoints_None (shape line)) in Hlt. now rewrite Hlt. }
  destruct c as [lineData idx seriesScope | lineData idx | points |];
    unfold callable; simpl; intros Hrun; [| | | exact I].
  - destruct (PeanoNat.Nat.lt_ge_cases (List.length (getItemLayout lineData idx)) 2)
      as [Hlt | Hge]; [| exact Hge].
    exfalso. unfold updateData in Hrun.
    apply (setLinePoints_None emptyShape) in Hlt. rewrite Hlt in Hrun. discriminate.
  - destruct (PeanoNat.Nat.lt_ge_cases (List.length (getItemLayout lineData idx)) 2)
      as [Hlt | Hge]; [| exact Hge].
    exfalso. unfold updateLayout in Hrun. rewrite (Hset _ Hlt) in Hrun. discriminate.
  - destruct (PeanoNat.Nat.lt_ge_cases (List.length points) 2)
      as [Hlt | Hge]; [| exact Hge].
    exfalso. rewrite (Hset _ Hlt) in Hrun. discriminate.
Qed.

Lemma callAll_reached (round : R -> R) (history : list Call) :
  forall self self',
    groupInv self ->
    callAll round history self = Some self' ->
    groupInv self'.
Proof.
  induction history as [| c later IH]; intros self self' Hinv Hrun; simpl in Hrun.
  - now injection Hrun as <-.
  - destruct (call round c self) as [self1 |] eqn:Hc; [| discriminate].
    destruct (call_invariant round c self (call_Some_callable _ _ _ _ Hc) Hinv)
      as (self1' & Hc' & Hinv1 & _).
    rewrite Hc in Hc'. injection Hc' as <-.
    now apply (IH self1).
Qed.

Lemma calls_reached :
  callAll (fun r => r) SampleHistory.calls Sample.newCurve = Some SampleHistory.reached.
Proof.
  destruct (callAll_invariant (fun r => r) SampleHistory.calls Sample.newCurve)
    as (self & Hrun & _).
  - exact calls_callable.
  - destruct (createLine_invariant (fun r => r) Sample.curveRecord 0 None Sample.zoomed
                curveRecord_endpoints) as (self0 & Hbuild & Hinv & _).
    rewrite newCurve_constructed in Hbuild. now injection Hbuild as <-.
  - unfold SampleHistory.reached. now rewrite Hrun.
Qed.

(** X1: a group the constructor has built and a sequence of [updateData],
    [updateLayout], [setLinePoints] and [beforeUpdate] calls has left always
    has its curve child and its label child, and a label that is not
    ignored has its distance cached: the objects [beforeUpdate] reads at
    lines 330, 346 and 383 without a test are there. *)
Theorem reached_group_is_layout_ready (round : R -> R) (lineData : LineData) (idx : nat)
    (seriesScope : option LineDrawSeriesScope) (parentNode : option Node)
    (history : list Call) (self0 self : Line) :
  _createLine round lineData idx seriesScope parentNode = Some self0 ->
  callAll round history self0 = Some self ->
  exists line label,
    lineOfName "line" (children self) = Some line /\
    labelOfName "label" (children self) = Some label /\
    (label_ignore label = false -> isSome (__labelDistance label) = true).
Proof.
  intros Hbuild Hrun.
  destruct (createLine_invariant round lineData idx seriesScope parentNode
              (createLine_Some_endpoints _ _ _ _ _ _ Hbuild))
    as (self0' & Hbuild' & Hinv & _).
  rewrite Hbuild in Hbuild'. injection Hbuild' as <-.
  pose proof (callAll_reached round history self0 self Hinv Hrun) as Hinv'.
  destruct (groupInv_ready self Hinv') as (line & label & Hready).
  exists line, label. exact Hready.
Qed.

Lemma reached_group_is_layout_ready_witness :
  exists line label,
    lineOfName "line" (children SampleHistory.reached) = Some line /\
    labelOfName "label" (children SampleHistory.reached) = Some label /\
    (label_ignore label = false -> isSome (__labelDistance label) = true).
Proof.
  apply (reached_group_is_layout_ready (fun r => r) Sample.curveRecord 0 None Sample.zoomed
           SampleHistory.calls Sample.newCurve SampleHistory.reached).
  - reflexivity.
  - exact calls_reached.
Defined.

(** ** The layout pass: from-marker, frame and stability *)

(** X5: in a layout pass over dirty geometry, a connector with a
    from-marker gets that marker placed at the curve point of parameter 0
    and rotated by PI/2 minus the [atan2] of the tangent sampled at
    parameter 0. *)
Theorem fromMarker_pose (self : Line) (line : ECLinePath) (label : InnerLineLabel)
    (symbolFrom : ECSymbol) :
  layoutReady self line label ->
  geometryDirty self line = true ->
  symbolOfName "fromSymbol" (children self) = Some symbolFrom ->
  exists self' symbolFrom',
    beforeUpdate self = Some self' /\
    symbolOfName "fromSymbol" (children self') = Some symbolFrom' /\
    symbol_position symbolFrom' = pointAt (shape line) 0 /\
    symbol_rotation symbolFrom' =
      PI / 2 - atan2 (snd (tangentAt (shape line) 0)) (fst (tangentAt (shape line) 0)).
Proof.
  intros Hready Hdirty Hfrom.
  destruct (beforeUpdate_markers self line label Hready Hdirty) as (self' & Hrun & Hfrom' & _).
  rewrite Hfrom in Hfrom'. simpl in Hfrom'.
  exists self', (fromPose line (parent self) symbolFrom).
  repeat split; assumption.
Qed.

Lemma labelled_ready :
  layoutReady (SampleGroup.built SampleGroup.labelled)
              (SampleGroup.theLine (SampleGroup.built SampleGroup.labelled))
              (SampleGroup.theLabel (SampleGroup.built SampleGroup.labelled)).
Proof. repeat split. Qed.

Lemma fromMarker_pose_witness :
  let self := SampleGroup.built SampleGroup.labelled in
  let line := SampleGroup.theLine self in
  exists self' symbolFrom',
    beforeUpdate self = Some self' /\
    symbolOfName "fromSymbol" (children self') = Some symbolFrom' /\
    symbol_position symbolFrom' = pointAt (shape line) 0 /\
    symbol_rotation symbolFrom' =
      PI / 2 - atan2 (snd (tangentAt (shape line) 0)) (fst (tangentAt (shape line) 0)).
Proof.
  apply (fromMarker_pose (SampleGroup.built SampleGroup.labelled) _
           (SampleGroup.theLabel (SampleGroup.built SampleGroup.labelled))
           (SampleGroup.theSymbol "fromSymbol" (SampleGroup.built SampleGroup.labelled))).
  - exact labelled_ready.
  - reflexivity.
  - reflexivity.
Defined.

Lemma samePaint_pose (p : point) (r : R) (sc : point) (s : ECSymbol) :
  samePaint s (poseSymbol p r sc s).
Proof. repeat split. Qed.

Lemma sameContent_refl (t : InnerLineLabel) : sameContent t t.
Proof. repeat split. Qed.

Lemma sameContent_labelPose (self : Line) (line : ECLinePath) (label t : InnerLineLabel) :
  sameContent t (labelPose self line label t).
Proof.
  pose proof (labelPose_keeps self line label t) as H. cbv zeta in H.
  unfold sameContent. tauto.
Qed.

(** X6: a layout pass changes poses only.  It keeps the cached kinds, the
    parent, the dirty flag, the names and order of the children and the
    curve itself; it adds and removes no marker and leaves each marker's
    name, kind, box, color and opacity, and the label's text, hover overlay,
    visibility and cached placement options as they were; and when it is
    skipped (nothing to lay out, or clean geometry) it changes nothing. *)
Theorem layout_pass_frame (self : Line) (line : ECLinePath) (label : InnerLineLabel) :
  layoutReady self line label ->
  exists self',
    beforeUpdate self = Some self' /\
    _fromSymbolType self' = _fromSymbolType self /\
    _toSymbolType self' = _toSymbolType self /\
    parent self' = parent self /\
    __dirty self' = __dirty self /\
    map child_name (children self') = map child_name (children self) /\
    lineOfName "line" (children self') = Some line /\
    (exists label',
        labelOfName "label" (children self') = Some label' /\ sameContent label label') /\
    (forall c, In c SYMBOL_CATEGORIES ->
       match symbolOfName c (children self), symbolOfName c (children self') with
       | Some s, Some s' => samePaint s s'
       | None, None => True
       | _, _ => False
       end) /\
    (layoutSkipped self line label = true -> self' = self).
Proof.
  intros Hready.
  pose proof (beforeUpdate_closed_form self line label Hready) as Hrun.
  destruct Hready as (Hline & Hlabel & Hdist).
  revert Hrun. destruct (layoutSkipped self line label); intros Hrun;
    (eexists; split; [exact Hrun |]).
  - repeat (split; [reflexivity |]).
    split; [exact Hline |].
    split; [exists label; split; [exact Hlabel | apply sameContent_refl] |].
    split; [| reflexivity].
    intros c _. destruct (symbolOfName c (children self)); [repeat split | exact I].
  - repeat (split; [reflexivity |]).
    simpl children.
    split.
    { unfold layoutOf, fromPose, toPose.
      now rewrite !map_name_update by (auto using poseSymbol_namePreserving with children). }
    split; [now rewrite layoutOf_line |].
    split.
    { rewrite layoutOf_label, Hlabel. simpl. eexists. split; [reflexivity |].
      destruct (label_ignore label); [apply sameContent_refl | apply sameContent_labelPose]. }
    split; [| discriminate].
    intros c Hc. rewrite (layoutOf_symbol _ _ _ _ Hc).
    destruct (symbolOfName c (children self)) as [s |]; simpl; [| exact I].
    destruct (String.eqb c "fromSymbol"); apply samePaint_pose.
Qed.

Lemma layout_pass_frame_witness :
  let self := SampleGroup.built SampleGroup.labelled in
  let line := SampleGroup.theLine self in
  let label := SampleGroup.theLabel self in
  exists self',
    beforeUpdate self = Some self' /\
    _fromSymbolType self' = _fromSymbolType self /\
    _toSymbolType self' = _toSymbolType self /\
    parent self' = parent self /\
    __dirty self' = __dirty self /\
    map child_name (children self') = map child_name (children self) /\
    lineOfName "line" (children self') = Some line /\
    (exists label',
        labelOfName "label" (children self') = Some label' /\ sameContent label label') /\
    (forall c, In c SYMBOL_CATEGORIES ->
       match symbolOfName c (children self), symbolOfName c (children self') with
       | Some s, Some s' => samePaint s s'
       | None, None => True
       | _, _ => False
       end) /\
    (layoutSkipped self line label = true -> self' = self).
Proof.
  apply (layout_pass_frame (SampleGroup.built SampleGroup.labelled)).
  exact labelled_ready.
Defined.

Lemma poseSymbol_idempotent (p : point) (r : R) (sc : point) (c : Child) :
  onSymbol (poseSymbol p r sc) (onSymbol (poseSymbol p r sc) c)
  = onSymbol (poseSymbol p r sc) c.
Proof. now destruct c. Qed.

Lemma labelPose_idempotent (self : Line) (line : ECLinePath) (label : InnerLineLabel)
    (c : Child) :
  onLabel (labelPose self line label) (onLabel (labelPose self line label) c)
  = onLabel (labelPose self line label) c.
Proof.
  destruct c as [l | t | s]; simpl; try reflexivity.
  unfold labelPose. destruct (__labelDistance label) as [distance |]; [| reflexivity].
  cbv zeta. unfold poseLabel. simpl.
  now destruct (rotation _), (textOrigin _).
Qed.

(** X7: the layout pass is stable: running it again on its own result,
    with nothing changed in between, returns that result unchanged. *)
Theorem layout_pass_stable (self : Line) (line : ECLinePath) (label : InnerLineLabel) :
  layoutReady self line label ->
  exists self',
    beforeUpdate self = Some self' /\
    beforeUpdate self' = Some self'.
Proof.
  intros Hready.
  pose proof (beforeUpdate_closed_form self line label Hready) as Hrun.
  destruct Hready as (Hline & Hlabel & Hdist).
  revert Hrun. destruct (layoutSkipped self line label) eqn:Hskip; intros Hrun;
    (eexists; split; [exact Hrun |]); [exact Hrun |].
  set (L := if label_ignore label then (fun t : InnerLineLabel => t)
            else labelPose self line label).
  set (self' := setChildren self (layoutOf self line label)).
  assert (Hkeep : label_ignore (L label) = label_ignore label /\
                  __labelDistance (L label) = __labelDistance label /\
                  __position (L label) = __position label).
  { subst L. destruct (label_ignore label) eqn:E.
    - cbv beta. repeat split; try reflexivity. exact E.
    - pose proof (labelPose_keeps self line label label) as H. cbv zeta in H.
      rewrite E in H. tauto. }
  destruct Hkeep as (Hig & Hdi & Hpo).
  assert (Hready' : layoutReady self' line (L label)).
  { split; [| split].
    - subst self'. simpl children. now rewrite layoutOf_line.
    - subst self'. simpl children. now rewrite layoutOf_label, Hlabel.
    - rewrite Hig, Hdi. exact Hdist. }
  rewrite (beforeUpdate_closed_form self' line (L label) Hready').
  destruct (layoutSkipped self' line (L label)); [reflexivity |].
  f_equal. subst self'. unfold setChildren at 1. simpl.
  unfold setChildren. f_equal.
  assert (HL : forall c,
             onLabel (if label_ignore (L label) then (fun t : InnerLineLabel => t)
                      else labelPose (setChildren self (layoutOf self line label))
                                     line (L label)) c
             = onLabel L c).
  { intros c. rewrite Hig. subst L.
    destruct (label_ignore label) eqn:E; [reflexivity |].
    destruct c as [l | t | s]; simpl; try reflexivity.
    unfold labelPose at 1. rewrite Hdi, Hpo. reflexivity. }
  unfold layoutOf at 1. simpl parent. simpl children.
  rewrite (updateChildOfName_ext "label" _ _ _ HL).
  unfold layoutOf. fold L.
  set (A := onSymbol (fromPose line (parent self))).
  set (B := onSymbol (toPose line (parent self))).
  set (C := onLabel L).
  assert (HA : namePreserving A) by (subst A; unfold fromPose; apply poseSymbol_namePreserving).
  assert (HB : namePreserving B) by (subst B; unfold toPose; apply poseSymbol_namePreserving).
  assert (HC : namePreserving C) by (subst C; apply onLabel_namePreserving).
  rewrite (updateChildOfName_commute "fromSymbol" "label") by (auto; reflexivity).
  rewrite (updateChildOfName_commute "toSymbol" "label") by (auto; reflexivity).
  rewrite (updateChildOfName_commute "fromSymbol" "toSymbol") by (auto; reflexivity).
  rewrite !updateChildOfName_twice by assumption.
  rewrite (updateChildOfName_ext "label" (fun c => C (C c)) C).
  2: { intros c. subst C L. destruct (label_ignore label).
       - now destruct c.
       - apply labelPose_idempotent. }
  rewrite (updateChildOfName_ext "toSymbol" (fun c => B (B c)) B)
    by (intros c; subst B; unfold toPose; apply poseSymbol_idempotent).
  rewrite (updateChildOfName_ext "fromSymbol" (fun c => A (A c)) A)
    by (intros c; subst A; unfold fromPose; apply poseSymbol_idempotent).
  reflexivity.
Qed.

Lemma layout_pass_stable_witness :
  exists self',
    beforeUpdate (SampleGroup.built SampleGroup.labelled) = Some self' /\
    beforeUpdate self' = Some self'.
Proof.
  apply (layout_pass_stable (SampleGroup.built SampleGroup.labelled)
           (SampleGroup.theLine (SampleGroup.built SampleGroup.labelled))
           (SampleGroup.theLabel (SampleGroup.built SampleGroup.labelled))).
  exact labelled_ready.
Defined.

(** ** Label placement *)



(** X9: the policy 'start' mirrors the policy 'end': its alignments are
    those of 'end' with left and right, top and bottom exchanged, and its
    anchor is offset from the curve's start by the opposite of the offset
    that 'end' applies at the point of the draw progress; neither sets an
    origin or a rotation. *)
Theorem start_mirrors_end (s : Shape) (invScale : R) (distance : point) :
  let atEnd := labelLayout s invScale (JS.Str "end") distance in
  let atStart := labelLayout s invScale (JS.Str "start") distance in
  textAlign atStart = mirrorAlignValue (textAlign atEnd) /\
  textVerticalAlign atStart = mirrorAlignValue (textVerticalAlign atEnd) /\
  (exists pe ps,
      textPosition atEnd = Some pe /\ textPosition atStart = Some ps /\
      fst ps - fst (pointAt s 0) = - (fst pe - fst (pointAt s (percent s))) /\
      snd ps - snd (pointAt s 0) = - (snd pe - snd (pointAt s (percent s)))) /\
  textOrigin atEnd = None /\ textOrigin atStart = None /\
  rotation atEnd = None /\ rotation atStart = None.
Proof.
  intros atEnd atStart.
  set (d := vector.normalize (vector.sub (pointAt s (percent s)) (pointAt s 0))).
  assert (He : textAlign atEnd = JS.Str (endTextAlign (fst d))) by reflexivity.
  assert (Hs : textAlign atStart = JS.Str (startTextAlign (fst d))) by reflexivity.
  assert (Hev : textVerticalAlign atEnd = JS.Str (endTextVerticalAlign (snd d)))
    by reflexivity.
  assert (Hsv : textVerticalAlign atStart = JS.Str (startTextVerticalAlign (snd d)))
    by reflexivity.
  split; [| split; [| split]].
  - rewrite He, Hs. unfold endTextAlign, startTextAlign. simpl.
    now destruct (Rgt_dec (fst d) 0.8), (Rlt_dec (fst d) (-0.8)).
  - rewrite Hev, Hsv. unfold endTextVerticalAlign, startTextVerticalAlign. simpl.
    now destruct (Rgt_dec (snd d) 0.8), (Rlt_dec (snd d) (-0.8)).
  - eexists _, _. split; [reflexivity |]. split; [reflexivity |].
    fold d. simpl fst. simpl snd. split; ring.
  - repeat split.
Qed.

(** X10: for the inside policies and 'middle' the origin handed to the
    label is the negation of the anchor's offset: anchor plus origin is the
    curve point the policy is attached to, namely the start for the
    insideStart policies, the point at half the draw progress for the
    insideMiddle policies and 'middle', and the point at the draw progress
    for the insideEnd policies. *)
Theorem origin_negates_offset (s : Shape) (invScale : R) (distance : point)
    (position : string) (base : point) :
  insideBase s position = Some base ->
  let lay := labelLayout s invScale (JS.Str position) distance in
  exists anchor origin,
    textPosition lay = Some anchor /\
    textOrigin lay = Some origin /\
    (fst anchor + fst origin, snd anchor + snd origin) = base.
Proof.
  unfold insideBase. simpl existsb.
  repeat match goal with
         | |- context [String.eqb position ?p] =>
             let E := fresh "E" in
             destruct (String.eqb position p) eqn:E;
             [apply String.eqb_eq in E; subst position |]
         end;
    simpl; intros H; try discriminate H; injection H as <-;
    (eexists _, _; split; [reflexivity |]; split; [reflexivity |]);
    unfold pointAt, tangentAt; destruct (controlPoint s) as [[cx cy] |];
    simpl; f_equal; ring.
Qed.

Lemma origin_negates_offset_witness :
  let lay := labelLayout SampleLabel.straight 1 (JS.Str "insideEndTop") (5, 5) in
  exists anchor origin,
    textPosition lay = Some anchor /\
    textOrigin lay = Some origin /\
    (fst anchor + fst origin, snd anchor + snd origin)
    = pointAt SampleLabel.straight (percent SampleLabel.straight).
Proof.
  apply (origin_negates_offset SampleLabel.straight 1 (5, 5) "insideEndTop").
  reflexivity.
Defined.

Lemma strictEq_false (a b : JS.value) : a <> b -> JS.strictEq a b = false.
Proof.
  intros Hne. destruct (JS.strictEq a b) eqn:E; [| reflexivity].
  apply strictEq_eq in E. contradiction.
Qed.

(** X11: in a layout pass over dirty geometry, a shown label whose policy
    is 'start' or 'end' keeps the rotation it had before the pass; under any
    other policy the rotation is set to minus the [atan2] of the tangent at
    half the draw progress, plus PI when the point of the draw progress lies
    to the left of the curve's start. *)
Theorem rotation_kept_at_start_and_end (self : Line) (line : ECLinePath)
    (label : InnerLineLabel) (distance : point) :
  lineOfName "line" (children self) = Some line ->
  labelOfName "label" (children self) = Some label ->
  label_ignore label = false ->
  __labelDistance label = Some distance ->
  geometryDirty self line = true ->
  let s := shape line in
  let tangent := tangentAt s (percent s / 2) in
  exists self' label',
    beforeUpdate self = Some self' /\
    labelOfName "label" (children self') = Some label' /\
    (__position label = JS.Str "start" \/ __position label = JS.Str "end" ->
     label_rotation label' = label_rotation label) /\
    (__position label <> JS.Str "start" -> __position label <> JS.Str "end" ->
     label_rotation label' =
       if Rlt_dec (fst (pointAt s (percent s))) (fst (pointAt s 0))
       then PI + - atan2 (snd tangent) (fst tangent)
       else - atan2 (snd tangent) (fst tangent)).
Proof.
  intros Hline Hlabel Hig Hdist Hdirty s tangent.
  destruct (beforeUpdate_label self line label distance Hline Hlabel Hig Hdist Hdirty)
    as (self' & Hrun & Hlabel').
  eexists self', _. split; [exact Hrun |]. split; [exact Hlabel' |].
  fold s. split.
  - intros [H | H]; rewrite H; reflexivity.
  - intros Hs He.
    pose proof (strictEq_false _ _ Hs) as Es.
    pose proof (strictEq_false _ _ He) as Ee.
    assert (Hrot : rotation (labelLayout s (invScaleOf (parent self)) (__position label) distance)
                   = Some (if Rlt_dec (fst (pointAt s (percent s))) (fst (pointAt s 0))
                           then PI + - atan2 (snd tangent) (fst tangent)
                           else - atan2 (snd tangent) (fst tangent))).
    { unfold labelLayout. cbv zeta. rewrite Es, Ee. simpl negb. simpl andb.
      unfold positionIn. simpl existsb. rewrite Es, Ee. simpl orb.
      repeat match goal with
             | |- context [if ?b then mkLayout _ _ _ _ _ _ else _] => destruct b
             end; reflexivity. }
    unfold poseLabel. simpl label_rotation. now rewrite Hrot.
Qed.

Lemma rotation_kept_at_start_and_end_witness :
  let self := SampleGroup.built SampleGroup.labelled in
  let label := SampleGroup.theLabel self in
  let s := shape (SampleGroup.theLine self) in
  let tangent := tangentAt s (percent s / 2) in
  exists self' label',
    beforeUpdate self = Some self' /\
    labelOfName "label" (children self') = Some label' /\
    (__position label = JS.Str "start" \/ __position label = JS.Str "end" ->
     label_rotation label' = label_rotation label) /\
    (__position label <> JS.Str "start" -> __position label <> JS.Str "end" ->
     label_rotation label' =
       if Rlt_dec (fst (pointAt s (percent s))) (fst (pointAt s 0))
       then PI + - atan2 (snd tangent) (fst tangent)
       else - atan2 (snd tangent) (fst tangent)).
Proof.
  apply (rotation_kept_at_start_and_end (SampleGroup.built SampleGroup.labelled)
           (SampleGroup.theLine (SampleGroup.built SampleGroup.labelled))
           (SampleGroup.theLabel (SampleGroup.built SampleGroup.labelled)) (5, 5));
    reflexivity.
Defined.

(** X12: a position that has no [case] in the layout pass gets no anchor,
    no origin and no computed horizontal alignment; its vertical offset is 0
    and its computed vertical alignment 'middle'. *)
Theorem unknown_position_has_no_anchor (s : Shape) (invScale : R) (distance : point)
    (position : JS.value) :
  positionIn position policies = false ->
  let lay := labelLayout s invScale position distance in
  textPosition lay = None /\
  textOrigin lay = None /\
  textAlign lay = JS.Undefined /\
  dy lay = 0 /\
  textVerticalAlign lay = JS.Str "middle".
Proof.
  unfold positionIn, policies. simpl existsb. intros H.
  repeat match type of H with
         | (_ || _)%bool = false => apply orb_false_elim in H; destruct H as [? H]
         end.
  unfold labelLayout, verticalPlacement, positionIn. simpl existsb.
  repeat match goal with
         | E : JS.strictEq position _ = false |- _ => rewrite E; clear E
         end.
  simpl. repeat split.
Qed.

Lemma unknown_position_has_no_anchor_witness :
  let lay := labelLayout SampleLabel.straight 1 (JS.Str "outside") (5, 5) in
  textPosition lay = None /\
  textOrigin lay = None /\
  textAlign lay = JS.Undefined /\
  dy lay = 0 /\
  textVerticalAlign lay = JS.Str "middle".
Proof.
  apply (unknown_position_has_no_anchor SampleLabel.straight 1 (5, 5) (JS.Str "outside")).
  reflexivity.
Defined.

(** ** The style pass *)

Lemma updateCommonStl_line (round : R -> R) (lineData : LineData) (idx : nat)
    (seriesScope : option LineDrawSeriesScope)
    (self : Line) (line : ECLinePath) (label : InnerLineLabel) :
  lineOfName "line" (children self) = Some line ->
  labelOfName "label" (children self) = Some label ->
  exists self' line',
    _updateCommonStl round lineData idx seriesScope self = Some self' /\
    lineOfName "line" (children self') = Some line' /\
    line_opacity line' = visualOpacity lineData idx seriesScope /\
    line_stroke line' =
      (if JS.isNullish (getItemVisual lineData idx "color")
       then stroke (resolveLineStyle lineData idx seriesScope)
       else getItemVisual lineData idx "color") /\
    line_hoverStyle line' = Some (resolveHoverLineStyle lineData idx seriesScope) /\
    shape line' = shape line /\ line_dirty line' = line_dirty line.
Proof.
  intros Hline Hlabel.
  unfold _updateCommonStl. rewrite Hline. simpl fold_left.
  rewrite !labelOfName_update_other by (auto using paintSymbol_namePreserving with children).
  rewrite Hlabel.
  eexists _, _. split; [reflexivity |]. simpl children.
  rewrite !lineOfName_update_other by (auto using paintSymbol_namePreserving with children).
  rewrite lineOfName_update_same, Hline. simpl.
  repeat split.
Qed.

(** X13: after a style pass the curve and every marker carry the same
    opacity, which is the record's visual opacity when it has one, else the
    opacity of the resolved line style when it has one, else 1; the curve
    is stroked in the record's visual color unless that is null or
    undefined, in which case the stroke of the resolved line style is
    kept. *)
Theorem paint_shared_by_curve_and_markers (round : R -> R)
    (lineData : LineData) (idx : nat) (seriesScope : option LineDrawSeriesScope)
    (self : Line) (line : ECLinePath) (label : InnerLineLabel) :
  lineOfName "line" (children self) = Some line ->
  labelOfName "label" (children self) = Some label ->
  let lineStyle := resolveLineStyle lineData idx seriesScope in
  let visualColor := getItemVisual lineData idx "color" in
  exists self' line' o,
    _updateCommonStl round lineData idx seriesScope self = Some self' /\
    lineOfName "line" (children self') = Some line' /\
    line_opacity line' = o /\
    (forall c s, In c SYMBOL_CATEGORIES ->
       symbolOfName c (children self') = Some s ->
       symbol_opacity s = o) /\
    (forall v, getItemVisualOpacity lineData idx = Some v -> o = v) /\
    (forall v, getItemVisualOpacity lineData idx = None ->
               opacity lineStyle = Some v -> o = v) /\
    (getItemVisualOpacity lineData idx = None -> opacity lineStyle = None -> o = 1) /\
    (JS.isNullish visualColor = false -> line_stroke line' = visualColor) /\
    (JS.isNullish visualColor = true -> line_stroke line' = stroke lineStyle).
Proof.
  intros Hline Hlabel lineStyle visualColor.
  destruct (updateCommonStl_line round lineData idx seriesScope self line label Hline Hlabel)
    as (self' & line' & Hrun & Hline' & Hop & Hstroke & _).
  destruct (updateCommonStl_effect round lineData idx seriesScope self line label Hline Hlabel)
    as (self2 & Hrun2 & _ & _ & Hsym & _).
  assert (self2 = self') by congruence. subst self2.
  exists self', line', (visualOpacity lineData idx seriesScope).
  split; [exact Hrun |]. split; [exact Hline' |]. split; [exact Hop |].
  split; [| split; [| split; [| split; [| split]]]].
  - intros c s Hc Hs. rewrite (Hsym c Hc) in Hs.
    destruct (symbolOfName c (children self)) as [s0 |]; [| discriminate].
    injection Hs as <-. reflexivity.
  - intros v Hv. unfold visualOpacity. now rewrite Hv.
  - intros v Hv Hl. unfold visualOpacity. fold lineStyle. now rewrite Hv, Hl.
  - intros Hv Hl. unfold visualOpacity. fold lineStyle. now rewrite Hv, Hl.
  - intros Hn. rewrite Hstroke. fold visualColor. now rewrite Hn.
  - intros Hn. rewrite Hstroke. fold visualColor. now rewrite Hn.
Qed.

Lemma paint_shared_by_curve_and_markers_witness :
  let lineData := Sample.circleRecord in
  let lineStyle := resolveLineStyle lineData 0 None in
  let visualColor := getItemVisual lineData 0 "color" in
  exists self' line' o,
    _updateCommonStl (fun r => r) lineData 0 None Sample.newCurve = Some self' /\
    lineOfName "line" (children self') = Some line' /\
    line_opacity line' = o /\
    (forall c s, In c SYMBOL_CATEGORIES ->
       symbolOfName c (children self') = Some s ->
       symbol_opacity s = o) /\
    (forall v, getItemVisualOpacity lineData 0 = Some v -> o = v) /\
    (forall v, getItemVisualOpacity lineData 0 = None ->
               opacity lineStyle = Some v -> o = v) /\
    (getItemVisualOpacity lineData 0 = None -> opacity lineStyle = None -> o = 1) /\
    (JS.isNullish visualColor = false -> line_stroke line' = visualColor) /\
    (JS.isNullish visualColor = true -> line_stroke line' = stroke lineStyle).
Proof.
  apply (paint_shared_by_curve_and_markers (fun r => r) Sample.circleRecord 0 None
           Sample.newCurve Sample.curvePath Sample.hiddenLabel); reflexivity.
Defined.

(** X14: with a shared scope and no per-item options in the data, the style
    pass never consults the item's own models: replacing them changes
    nothing.  With per-item options in the data the scope is not used: any
    scope, or none, gives the same result. *)
Theorem shared_scope_or_item_models (round : R -> R)
    (lineData : LineData) (idx : nat) (self : Line) :
  (hasItemOption lineData = false ->
   forall sc lineStyle hoverLineStyle labelModel hoverLabelModel,
     _updateCommonStl round
       (withItemModels lineData lineStyle hoverLineStyle labelModel hoverLabelModel)
       idx (Some sc) self
     = _updateCommonStl round lineData idx (Some sc) self) /\
  (hasItemOption lineData = true ->
   forall sc,
     _updateCommonStl round lineData idx (Some sc) self
     = _updateCommonStl round lineData idx None self).
Proof.
  split.
  - intros Hno sc ls hls lm hlm.
    unfold _updateCommonStl, resolveLineStyle, resolveHoverLineStyle,
      resolveLabelModel, resolveHoverLabelModel, withItemModels.
    simpl. rewrite Hno. reflexivity.
  - intros Hyes sc.
    unfold _updateCommonStl, resolveLineStyle, resolveHoverLineStyle,
      resolveLabelModel, resolveHoverLabelModel.
    rewrite Hyes. reflexivity.
Qed.

(** X15: a data update that finds the label hidden in both states marks it
    ignored and clears the hover overlay, and leaves the label's text, its
    cached policy, distance and alignments and its pose as they were. *)
Theorem hidden_label_keeps_cache (round : R -> R)
    (lineData : LineData) (idx : nat) (seriesScope : option LineDrawSeriesScope)
    (self : Line) :
  wellFormed self ->
  (2 <= List.length (getItemLayout lineData idx))%nat ->
  JS.truthy (model_show (resolveLabelModel lineData idx seriesScope)) = false ->
  JS.truthy (model_show (resolveHoverLabelModel lineData idx seriesScope)) = false ->
  exists self' label label',
    updateData round lineData idx seriesScope self = Some self' /\
    labelOfName "label" (children self) = Some label /\
    labelOfName "label" (children self') = Some label' /\
    label_ignore label' = true /\
    hover_text (label_hoverStyle label') = None /\
    label_text label' = label_text label /\
    __position label' = __position label /\
    __labelDistance label' = __labelDistance label /\
    __textAlign label' = __textAlign label /\
    __verticalAlign label' = __verticalAlign label /\
    (label_position label', label_rotation label', label_scale label', label_origin label')
    = (label_position label, label_rotation label, label_scale label, label_origin label).
Proof.
  intros Hwf Hlen Hshow Hhover.
  destruct (updateData_effect round lineData idx seriesScope self Hwf Hlen)
    as (self' & Hrun & _ & _ & (label & Hlabel & Hlabel') & _).
  eexists self', label, _.
  split; [exact Hrun |]. split; [exact Hlabel |]. split; [exact Hlabel' |].
  unfold styleLabel, normalText, emphasisText, baseText.
  rewrite Hshow, Hhover. simpl. repeat split.
Qed.

Lemma hidden_label_keeps_cache_witness :
  exists self' label label',
    updateData (fun r => r) Sample.circleRecord 0 None
               (SampleGroup.built SampleGroup.labelled) = Some self' /\
    labelOfName "label" (children (SampleGroup.built SampleGroup.labelled)) = Some label /\
    labelOfName "label" (children self') = Some label' /\
    label_ignore label' = true /\
    hover_text (label_hoverStyle label') = None /\
    label_text label' = label_text label /\
    __position label' = __position label /\
    __labelDistance label' = __labelDistance label /\
    __textAlign label' = __textAlign label /\
    __verticalAlign label' = __verticalAlign label /\
    (label_position label', label_rotation label', label_scale label', label_origin label')
    = (label_position label, label_rotation label, label_scale label, label_origin label).
Proof.
  apply (hidden_label_keeps_cache (fun r => r) Sample.circleRecord 0 None
           (SampleGroup.built SampleGroup.labelled)).
  - repeat split. simpl. repeat constructor; simpl; intuition discriminate.
  - simpl. repeat constructor.
  - reflexivity.
  - reflexivity.
Defined.

(** ** Direct geometry updates *)

Lemma setLinePoints_wellFormed (self : Line) (f : ECLinePath -> ECLinePath) :
  wellFormed self ->
  wellFormed (setChildren self (updateChildOfName "line" (onLine f) (children self))).
Proof.
  intros (Hnd & Hline & Hlabel). unfold wellFormed. simpl children.
  rewrite map_name_update by auto with children.
  rewrite lineOfName_update_same.
  rewrite labelOfName_update_other by auto with children.
  repeat split; try assumption.
  now destruct (lineOfName "line" (children self)).
Qed.

(** X16: of two successive [setLinePoints] calls only the last one counts:
    the group is left exactly as if the last geometry had been set
    directly. *)
Theorem last_geometry_wins (self : Line) (G1 G2 : list point) :
  wellFormed self ->
  (2 <= List.length G1)%nat ->
  (2 <= List.length G2)%nat ->
  exists self1 self2,
    Line_setLinePoints G1 self = Some self1 /\
    Line_setLinePoints G2 self1 = Some self2 /\
    Line_setLinePoints G2 self = Some self2.
Proof.
  intros Hwf H1 H2.
  destruct (setLinePoints_effect G1 self Hwf H1) as (line & s1 & Hline & Hs1 & Hrun1).
  destruct (setLinePoints_effect G2 self Hwf H2) as (line' & s2 & Hline' & Hs2 & Hrun2).
  pose proof (setLinePoints_wellFormed self (redraw s1) Hwf) as Hwf1.
  destruct (setLinePoints_effect G2 _ Hwf1 H2) as (line1 & s2' & Hline1 & Hs2' & Hrun12).
  assert (s2' = s2).
  { rewrite (setLinePoints_any_target (shape line1) (shape line')) in Hs2'. congruence. }
  subst s2'.
  eexists _, _. split; [exact Hrun1 |]. split; [exact Hrun12 |].
  rewrite Hrun2. f_equal. unfold setChildren. simpl. f_equal.
  rewrite updateChildOfName_twice by auto with children.
  apply updateChildOfName_ext. now intros [l | t | s].
Qed.

Lemma last_geometry_wins_witness :
  exists self1 self2,
    Line_setLinePoints [(0, 0); (3, 4)] Sample.newCurve = Some self1 /\
    Line_setLinePoints [(1, 1); (2, 2); (0, 5)] self1 = Some self2 /\
    Line_setLinePoints [(1, 1); (2, 2); (0, 5)] Sample.newCurve = Some self2.
Proof.
  apply (last_geometry_wins Sample.newCurve [(0, 0); (3, 4)] [(1, 1); (2, 2); (0, 5)]).
  - exact newCurve_wellFormed.
  - simpl. repeat constructor.
  - simpl. repeat constructor.
Defined.



(** ** Scale compensation *)

Lemma reciprocals_cancel (scales : list R) :
  Forall (fun x => x <> 0) scales ->
  productOfReciprocals scales * productOfScales scales = 1.
Proof.
  induction 1 as [| x rest Hx Hrest IH]; simpl.
  - ring.
  - replace (/ x * productOfReciprocals rest * (x * productOfScales rest))
      with ((/ x * x) * (productOfReciprocals rest * productOfScales rest)) by ring.
    rewrite IH. now field.
Qed.

(** X18: when no scale-bearing ancestor has x-scale 0, the factor computed
    by the ancestor walk cancels the accumulated x-scale of the ancestors:
    their product is 1.  An ancestor without a scale does not count. *)
Theorem invScale_cancels_ancestor_scale (parentNode : option Node) :
  Forall (fun x => x <> 0) (scalesAbove parentNode) ->
  invScaleOf parentNode * productOfScales (scalesAbove parentNode) = 1.
Proof.
  rewrite invScaleOf_product. apply reciprocals_cancel.
Qed.

Lemma invScale_cancels_ancestor_scale_witness :
  invScaleOf Sample.zoomed * productOfScales (scalesAbove Sample.zoomed) = 1.
Proof.
  apply (invScale_cancels_ancestor_scale Sample.zoomed).
  simpl. repeat constructor; lra.
Defined.

(** ** What a data update caches on a shown label *)

(** X19: a data update that finds the label shown in some state gives the
    label the base text as its own text only when the base state shows it,
    and no own text otherwise; it caches the model's position, or 'middle'
    when the model has none (undefined, null or empty), the model's distance
    with a scalar standing for both axes, and the model's alignments. *)
Theorem shown_label_cache (round : R -> R)
    (lineData : LineData) (idx : nat) (seriesScope : option LineDrawSeriesScope)
    (self : Line) :
  wellFormed self ->
  (2 <= List.length (getItemLayout lineData idx))%nat ->
  let labelModel := resolveLabelModel lineData idx seriesScope in
  let hoverLabelModel := resolveHoverLabelModel lineData idx seriesScope in
  JS.truthy (model_show labelModel) = true \/
  JS.truthy (model_show hoverLabelModel) = true ->
  exists self' label',
    updateData round lineData idx seriesScope self = Some self' /\
    labelOfName "label" (children self') = Some label' /\
    (JS.truthy (model_show labelModel) = true ->
     label_text label' = Some (resolveBaseText round lineData idx)) /\
    (JS.truthy (model_show labelModel) = false -> label_text label' = None) /\
    (JS.truthy (model_position labelModel) = true ->
     __position label' = model_position labelModel) /\
    (JS.truthy (model_position labelModel) = false ->
     __position label' = JS.Str "middle") /\
    (forall d, model_distance labelModel = Scalar d ->
               __labelDistance label' = Some (d, d)) /\
    (forall a b, model_distance labelModel = Pair a b ->
                 __labelDistance label' = Some (a, b)) /\
    __textAlign label' = model_align labelModel /\
    __verticalAlign label' = model_verticalAlign labelModel.
Proof.
  intros Hwf Hlen labelModel hoverLabelModel Hshown.
  destruct (updateData_effect round lineData idx seriesScope self Hwf Hlen)
    as (self' & Hrun & _ & _ & (label & _ & Hlabel') & _).
  eexists self', _. split; [exact Hrun |]. split; [exact Hlabel' |].
  fold labelModel hoverLabelModel.
  assert (Hstyled :
    exists nText eText,
      normalText round lineData idx (model_show labelModel) (model_show hoverLabelModel)
        = nText /\
      emphasisText round lineData idx (model_show labelModel) (model_show hoverLabelModel)
        = eText /\
      (nText <> None \/ eText <> None) /\
      (JS.truthy (model_show labelModel) = true ->
       nText = Some (resolveBaseText round lineData idx)) /\
      (JS.truthy (model_show labelModel) = false -> nText = None)).
  { eexists _, _. split; [reflexivity |]. split; [reflexivity |].
    unfold normalText, emphasisText, baseText.
    destruct (JS.truthy (model_show labelModel)) eqn:Es; simpl.
    - split; [left; discriminate |]. split; [reflexivity | discriminate].
    - destruct Hshown as [H | H]; [discriminate |]. rewrite H. simpl.
      split; [| split; [discriminate | reflexivity]].
      right. now destruct (getFormattedLabel (hostModel lineData) idx emphasis). }
  destruct Hstyled as (nText & eText & Hn & He & Hsome & Hon & Hoff).
  unfold styleLabel. rewrite Hn, He.
  assert (Hbranch : forall A (a b : A),
             match nText, eText with None, None => a | _, _ => b end = b).
  { intros A a b. destruct nText, eText; try reflexivity. destruct Hsome; congruence. }
  rewrite Hbranch. simpl. unfold JS.or.
  repeat split; try assumption.
  - intros H. now rewrite H.
  - intros H. now rewrite H.
  - intros d H. now rewrite H.
  - intros a b H. now rewrite H.
Qed.

Lemma shown_label_cache_witness :
  let lineData := SampleGroup.labelled in
  let labelModel := resolveLabelModel lineData 0 None in
  exists self' label',
    updateData (fun r => r) lineData 0 None Sample.newCurve = Some self' /\
    labelOfName "label" (children self') = Some label' /\
    (JS.truthy (model_show labelModel) = true ->
     label_text label' = Some (resolveBaseText (fun r => r) lineData 0)) /\
    (JS.truthy (model_show labelModel) = false -> label_text label' = None) /\
    (JS.truthy (model_position labelModel) = true ->
     __position label' = model_position labelModel) /\
    (JS.truthy (model_position labelModel) = false ->
     __position label' = JS.Str "middle") /\
    (forall d, model_distance labelModel = Scalar d ->
               __labelDistance label' = Some (d, d)) /\
    (forall a b, model_distance labelModel = Pair a b ->
                 __labelDistance label' = Some (a, b)) /\
    __textAlign label' = model_align labelModel /\
    __verticalAlign label' = model_verticalAlign labelModel.
Proof.
  apply (shown_label_cache (fun r => r) SampleGroup.labelled 0 None Sample.newCurve).
  - exact newCurve_wellFormed.
  - simpl. repeat constructor.
  - left. reflexivity.
Defined.

(** ** Symmetries of the inside policies *)

(** X20: the Top and Bottom variants of an inside policy are anchored
    symmetrically about the plain policy: same abscissa, ordinate lower,
    respectively higher, by the distance scaled by invScale; all three share
    the horizontal alignment. *)
Theorem top_and_bottom_around_plain (s : Shape) (invScale : R) (distance : point)
    (position : string) :
  In position plainInside ->
  let distanceY := snd distance * invScale in
  let plain := labelLayout s invScale (JS.Str position) distance in
  let top := labelLayout s invScale (JS.Str (position ++ "Top")) distance in
  let bottom := labelLayout s invScale (JS.Str (position ++ "Bottom")) distance in
  exists p pt pb,
    textPosition plain = Some p /\
    textPosition top = Some pt /\
    textPosition bottom = Some pb /\
    fst pt = fst p /\ fst pb = fst p /\
    snd pt = snd p - distanceY /\
    snd pb = snd p + distanceY /\
    textAlign top = textAlign plain /\
    textAlign bottom = textAlign plain.
Proof.
  intros [<- | [<- | [<- | []]]]; simpl;
    (eexists _, _, _; split; [reflexivity |]; split; [reflexivity |];
     split; [reflexivity |]); simpl; repeat split; ring.
Qed.

Lemma top_and_bottom_around_plain_witness :
  let plain := labelLayout SampleLabel.straight 1 (JS.Str "insideEnd") (5, 5) in
  let top := labelLayout SampleLabel.straight 1 (JS.Str "insideEndTop") (5, 5) in
  let bottom := labelLayout SampleLabel.straight 1 (JS.Str "insideEndBottom") (5, 5) in
  exists p pt pb,
    textPosition plain = Some p /\
    textPosition top = Some pt /\
    textPosition bottom = Some pb /\
    fst pt = fst p /\ fst pb = fst p /\
    snd pt = snd p - 5 * 1 /\
    snd pb = snd p + 5 * 1 /\
    textAlign top = textAlign plain /\
    textAlign bottom = textAlign plain.
Proof.
  apply (top_and_bottom_around_plain SampleLabel.straight 1 (5, 5) "insideEnd").
  simpl. tauto.
Defined.

(** X21: the insideEnd policies mirror the insideStart policies: the anchor
    is offset from the point of the draw progress by the opposite of the
    horizontal offset that insideStart applies at the curve's start, with
    the same vertical offset, and the horizontal alignment is the opposite
    one. *)
Theorem insideEnd_mirrors_insideStart (s : Shape) (invScale : R) (distance : point)
    (suffix : string) :
  In suffix [""; "Top"; "Bottom"]%string ->
  let atStart := labelLayout s invScale (JS.Str ("insideStart" ++ suffix)) distance in
  let atEnd := labelLayout s invScale (JS.Str ("insideEnd" ++ suffix)) distance in
  exists ps pe,
    textPosition atStart = Some ps /\
    textPosition atEnd = Some pe /\
    fst pe - fst (pointAt s (percent s)) = - (fst ps - fst (pointAt s 0)) /\
    snd pe - snd (pointAt s (percent s)) = snd ps - snd (pointAt s 0) /\
    textAlign atEnd = mirrorAlignValue (textAlign atStart).
Proof.
  intros [<- | [<- | [<- | []]]]; simpl;
    (eexists _, _; split; [reflexivity |]; split; [reflexivity |]);
    simpl; (split; [ring |]); (split; [ring |]);
    destruct (Rlt_dec (fst (tangentAt s (percent s / 2))) 0) as [Hlt | Hge];
    destruct (Rge_dec (fst (tangentAt s (percent s / 2))) 0) as [Hge' | Hlt'];
    try reflexivity; exfalso; lra.
Qed.

Lemma insideEnd_mirrors_insideStart_witness :
  let atStart := labelLayout SampleLabel.straight 1 (JS.Str "insideStartTop") (5, 5) in
  let atEnd := labelLayout SampleLabel.straight 1 (JS.Str "insideEndTop") (5, 5) in
  exists ps pe,
    textPosition atStart = Some ps /\
    textPosition atEnd = Some pe /\
    fst pe - fst (pointAt SampleLabel.straight (percent SampleLabel.straight))
    = - (fst ps - fst (pointAt SampleLabel.straight 0)) /\
    snd pe - snd (pointAt SampleLabel.straight (percent SampleLabel.straight))
    = snd ps - snd (pointAt SampleLabel.straight 0) /\
    textAlign atEnd = mirrorAlignValue (textAlign atStart).
Proof.
  apply (insideEnd_mirrors_insideStart SampleLabel.straight 1 (5, 5) "Top").
  simpl. tauto.
Defined.

(** ** Refreshing twice with the same record *)

Section Refresh.

Variable round : R -> R.
Variables (lineData : LineData) (idx : nat) (seriesScope : option LineDrawSeriesScope).





End Refresh.


Lemma shared_scope_or_item_models_witness :
  _updateCommonStl (fun r => r)
    (withItemModels Sample.curveRecord
       (fun _ => mkLineStyle (JS.Str "red") (Some 1))
       (fun _ => mkLineStyle (JS.Str "blue") None)
       (fun _ => Sample.plainLabel false) (fun _ => Sample.plainLabel true))
    0 (Some SampleGroup.scope) Sample.newCurve
  = _updateCommonStl (fun r => r) Sample.curveRecord 0 (Some SampleGroup.scope)
      Sample.newCurve.
Proof.
  apply (proj1 (shared_scope_or_item_models (fun r => r) Sample.curveRecord 0 Sample.newCurve)).
  reflexivity.
Defined.
